(** * genbackend: the generation pipeline, embedded and verified

    A shallow embedding of the TypeScript sources

    - [src/generator/openApiGenerator.ts]  (the Specification Projector),
    - [src/generator/promptParser.ts]      (the Prompt-to-Model Translator),
    - [src/generator/documentationGenerator.ts] (the Documentation Renderer),
    - [src/server.ts], function [updateGeneratedBackend],

    together with the properties the specification states about them.

    Conventions of the embedding.
    - A JavaScript string is a [string]: a sequence of code units below 256.
    - A JavaScript object used as a dictionary ([spec.paths], the object under
      a path, [operation.responses]) is a [gmap string _] over its own
      properties.
    - Optional properties ([parameters?], [responses?], [schema?], ...) are
      [option]s, [None] standing for an absent property ([undefined]).
    - A value that was decoded by [JSON.parse] and never validated is a
      [json] tree.
    - [try]/[catch] is a sum type: [inl] carries the thrown value, a
      [Thrown] where Node or the language throws (always an [Error]), a
      [Raised] where code outside the sources runs (a template, the module
      of a node, the client library): such code may throw a value on which
      [logger.error], called in the [catch] blocks, throws in its turn.
    - Calls that leave the process (the text-generation service, the file
      system, the template engine) are either nodes of an interaction
      ([Translator.Prog]) or operations of an abstract environment
      (Section variables), so that every theorem holds for every behaviour
      of the outside world. *)

From Stdlib Require Import ZArith Ascii String.
From stdpp Require Import gmap strings list fin_maps pretty.

Set Warnings "-register-all".
Local Open Scope string_scope.
Local Open Scope list_scope.

(** ** JavaScript values and built-ins used by the sources *)

Module JS.

(** The double quote character, and a one-character string of it. *)
Definition dquote : string := String "034"%char EmptyString.

(** [s.startsWith(p)] *)
Fixpoint startsWith (p s : string) : bool :=
  match p, s with
  | EmptyString, _ => true
  | String a p', String b s' => if Ascii.eqb a b then startsWith p' s' else false
  | String _ _, EmptyString => false
  end.

(** [s.substring(n)]: the string from index [n] to its end. *)
Fixpoint substring_from (n : nat) (s : string) : string :=
  match n, s with
  | O, _ => s
  | S n', String _ s' => substring_from n' s'
  | S _, EmptyString => EmptyString
  end.

(** [c.toLowerCase()] on one code unit below 256: the ASCII capitals and
    the Latin-1 capitals (all of 192..222 but the multiplication sign 215)
    move up by 32. *)
Definition lower_unit (c : ascii) : ascii :=
  let n := nat_of_ascii c in
  if (((65 <=? n) && (n <=? 90)) || ((192 <=? n) && (n <=? 222) && negb (n =? 215)))%nat
  then ascii_of_nat (n + 32)
  else c.

(** [s.toLowerCase()] *)
Fixpoint toLowerCase (s : string) : string :=
  match s with
  | EmptyString => EmptyString
  | String c s' => String (lower_unit c) (toLowerCase s')
  end.

(** White space as [String.prototype.trim] sees it, below 256: TAB, LF, VT,
    FF, CR, SPACE and NO-BREAK SPACE. *)
Definition is_white (c : ascii) : bool :=
  let n := nat_of_ascii c in
  (((9 <=? n) && (n <=? 13)) || (n =? 32) || (n =? 160))%nat.

Fixpoint trimStart (s : string) : string :=
  match s with
  | EmptyString => EmptyString
  | String c s' => if is_white c then trimStart s' else s
  end.

(** Drops trailing white space: a character is kept when it is not white or
    when something is kept after it. *)
Fixpoint trimEnd (s : string) : string :=
  match s with
  | EmptyString => EmptyString
  | String c s' =>
      match trimEnd s' with
      | EmptyString => if is_white c then EmptyString else String c EmptyString
      | t => String c t
      end
  end.

(** [s.trim()] *)
Definition trim (s : string) : string := trimEnd (trimStart s).

(** [n.toString()] for an integer-valued number (decimal digits, a minus
    sign for negatives): the form JavaScript prints below 10^21. *)
Definition Number_toString (n : Z) : string := pretty n.

(** A value produced by [JSON.parse]. An object keeps its members in text
    order; a repeated key is resolved by [get] (the last one wins, as in
    [JSON.parse]). Numbers are the integer-valued ones. *)
Inductive json : Type :=
| JNull
| JBool (b : bool)
| JNum (n : Z)
| JStr (s : string)
| JArr (items : list json)
| JObj (members : list (string * json)).

(** Own property [k] of an object literal's member list. *)
Fixpoint get_member (k : string) (members : list (string * json)) : option json :=
  match members with
  | [] => None
  | (k', v) :: rest =>
      match get_member k rest with
      | Some w => Some w
      | None => if String.eqb k k' then Some v else None
      end
  end.

(** What a thrown value is to a handler that only asks
    [error instanceof Error ? error.message : ...]: an [Error] with its
    message, or a value that is not an [Error] and that the logger of
    [src/utils/logger.ts] can report (a text, a number, an object that
    [JSON.stringify] accepts). Node, [JSON.parse] and the property reads of
    the sources throw [Error]s only. *)
Inductive Thrown : Type :=
| ErrorInstance (message : string)
| NotAnError.

(** [error instanceof Error ? error.message : 'Unknown error'] *)
Definition message_of (error : Thrown) : string :=
  match error with
  | ErrorInstance message => message
  | NotAnError => "Unknown error"
  end.

(** What code the sources do not control (a template, the module of a
    node, the client library) may throw: a value as above, or an object that
    is not an [Error] and on which [JSON.stringify] throws (a cyclic one,
    one holding a BigInt, one whose [toJSON] throws). On such a value
    [logger.error] itself throws (logger.ts, line 39): [rethrown] is what
    it throws, a TypeError for a cyclic object. *)
Inductive Raised : Type :=
| Reportable (thrown : Thrown)
| Unreportable (rethrown : Raised).

Coercion Reportable : Thrown >-> Raised.

(** [error instanceof Error ? error.message : 'Unknown error'] on any
    thrown value. *)
Definition raised_message (error : Raised) : string :=
  match error with
  | Reportable thrown => message_of thrown
  | Unreportable _ => "Unknown error"
  end.

(** A thrown value read back as the sum of a computation that may throw a
    reportable value only. *)
Definition lift {A} (r : Thrown + A) : Raised + A :=
  match r with
  | inl thrown => inl (Reportable thrown)
  | inr a => inr a
  end.


(** [v.k] for [k] one of the data property names read by the sources
    ([name], [workflows], [nodes]; none of them is defined on a built-in
    prototype): [inl] is the TypeError thrown on [null], [inr None] is
    [undefined]. *)
Definition get (v : json) (k : string) : Thrown + option json :=
  match v with
  | JNull =>
      inl (ErrorInstance ("Cannot read properties of null (reading '" +:+ k +:+ "')"))
  | JObj members => inr (get_member k members)
  | _ => inr None
  end.

(** Truthiness of a decoded value. *)
Definition truthy (v : json) : bool :=
  match v with
  | JNull => false
  | JBool b => b
  | JNum n => negb (n =? 0)%Z
  | JStr s => negb (String.eqb s EmptyString)
  | JArr _ | JObj _ => true
  end.

(** Truthiness of a possibly absent property. *)
Definition truthy_opt (o : option json) : bool :=
  match o with
  | Some v => truthy v
  | None => false
  end.

(** [Array.isArray(v)] *)
Definition isArray (o : option json) : bool :=
  match o with
  | Some (JArr _) => true
  | _ => false
  end.

(** Whether converting a decoded value to a string (as a template literal
    does) throws. An object converts through [Object.prototype.toString]
    unless it has an own [toString] member, which is never callable in a
    decoded value: then [valueOf] is tried and cannot give a primitive, a
    TypeError. An array converts through [join], element by element. *)
Fixpoint ToString_throws (v : json) : bool :=
  match v with
  | JObj members => existsb (fun kv => String.eqb (fst kv) "toString") members
  | JArr items => existsb ToString_throws items
  | _ => false
  end.

(** [a || d] on a possibly absent string. *)
Definition or_default (a : option string) (d : string) : string :=
  match a with
  | Some s => if String.eqb s EmptyString then d else s
  | None => d
  end.

End JS.

(** ** The data model: [src/types/index.ts] *)

Module Types.
Import JS.

(** [EndpointParameter.in] *)
Inductive ParamLocation : Type := InPath | InQuery | InBody | InHeader.

#[global] Instance ParamLocation_eq_dec : EqDecision ParamLocation.
Proof. solve_decision. Defined.

Record EndpointParameter : Type := {
  param_name : string;
  param_in : ParamLocation;
  param_required : bool;
  param_type : string;
  param_description : string
}.

Record EndpointResponse : Type := {
  resp_status : Z;
  resp_description : string;
  resp_schema : option json
}.

Record GeneratedEndpoint : Type := {
  ep_path : string;
  ep_method : string;
  ep_description : string;
  ep_parameters : option (list EndpointParameter);
  ep_responses : option (list EndpointResponse)
}.

(** [GeneratedBackend] as the projector meets it at run time. The value
    comes from an unvalidated decode (see [Translator.parsePrompt], which
    checks [name] and [workflows] only), so the properties the projector
    reads may be absent; [nodes] and [workflows] are not read by it and are
    kept as decoded. *)
Record GeneratedBackend : Type := {
  be_name : option string;
  be_description : option string;
  be_version : option string;
  be_nodes : option json;
  be_workflows : option json;
  be_endpoints : option (list GeneratedEndpoint)
}.

Record GeneratorConfig : Type := {
  openaiApiKey : option string;
  model : option string;
  outputDir : option string;
  verbose : option bool
}.

(** [GenerationResult]; [data] is declared a [GeneratedBackend] and holds
    the decoded value as it is. *)
Record GenerationResult : Type := {
  success : bool;
  error : option string;
  data : option json
}.

(** The members of [OpenAPISpec]. *)
Record OAInfo : Type := {
  info_title : option string;
  info_description : option string;
  info_version : option string
}.

(** What [convertParameter] builds; [oa_schema_type] is [schema.type] and
    is absent for a body parameter. *)
Record OAParameter : Type := {
  oa_name : string;
  oa_in : ParamLocation;
  oa_description : string;
  oa_required : bool;
  oa_schema_type : option string
}.

Record OARequestBody : Type := {
  rb_description : string;
  rb_required : bool;
  rb_content : json
}.

Record OAResponse : Type := {
  oar_description : string;
  oar_content : option json
}.

Record Operation : Type := {
  op_summary : string;
  op_description : string;
  op_parameters : option (list OAParameter);
  op_requestBody : option OARequestBody;
  op_responses : gmap string OAResponse
}.

Record OpenAPISpec : Type := {
  openapi : string;
  info : OAInfo;
  servers : list string;
  paths : gmap string (gmap string Operation);
  components : option (gmap string json)
}.

End Types.

(** ** The Specification Projector: [src/generator/openApiGenerator.ts] *)

Module OpenApi.
Import JS Types.

(** Lines 57-66 of [addEndpointToSpec]: the key under [spec.paths]. *)
Definition normalizePath (path : string) : string :=
  let path := if startsWith "/api" path then substring_from 4 path else path in
  if startsWith "/" path then path else "/" +:+ path.

(** [convertParameter] *)
Definition convertParameter (param : EndpointParameter) : OAParameter :=
  match param_in param with
  | InBody =>
      {| oa_name := param_name param; oa_in := param_in param;
         oa_description := param_description param;
         oa_required := param_required param;
         oa_schema_type := None |}
  | _ =>
      {| oa_name := param_name param; oa_in := param_in param;
         oa_description := param_description param;
         oa_required := param_required param;
         oa_schema_type := Some (param_type param) |}
  end.

(** [convertResponse] *)
Definition convertResponse (response : EndpointResponse) : OAResponse :=
  {| oar_description := resp_description response;
     oar_content :=
       match resp_schema response with
       | Some schema =>
           if truthy schema
           then Some (JObj [("application/json", JObj [("schema", schema)])])
           else None
       | None => None
       end |}.

(** The fixed [content] of a request body (lines 93-102). *)
Definition requestBody_content : json :=
  JObj [("application/json",
         JObj [("schema",
                JObj [("type", JStr "object"); ("properties", JObj [])])])].

(** Lines 84-108: the [parameters] and [requestBody] of the operation. *)
Definition operation_parameters (endpoint : GeneratedEndpoint)
  : option (list OAParameter) * option OARequestBody :=
  match ep_parameters endpoint with
  | Some ((_ :: _) as parameters) =>
      let converted := map convertParameter parameters in
      match filter (fun p => param_in p = InBody) parameters with
      | first :: _ =>
          (Some (filter (fun p => oa_in p <> InBody) converted),
           Some {| rb_description := param_description first;
                   rb_required := param_required first;
                   rb_content := requestBody_content |})
      | [] => (Some converted, None)
      end
  | _ => (None, None)
  end.

(** Lines 111-120: the [responses] of the operation; the loop assigns
    [operation.responses[response.status.toString()]] in list order. *)
Definition operation_responses (endpoint : GeneratedEndpoint)
  : gmap string OAResponse :=
  match ep_responses endpoint with
  | Some ((_ :: _) as responses) =>
      foldl (fun acc response =>
               <[Number_toString (resp_status response) := convertResponse response]> acc)
            ∅ responses
  | _ => {["200" := {| oar_description := "Successful operation";
                       oar_content := None |}]}
  end.

(** Lines 77-120: the operation object of an endpoint. *)
Definition operation_of (endpoint : GeneratedEndpoint) : Operation :=
  {| op_summary := ep_description endpoint;
     op_description := ep_description endpoint;
     op_parameters := fst (operation_parameters endpoint);
     op_requestBody := snd (operation_parameters endpoint);
     op_responses := operation_responses endpoint |}.

(** [obj[key] = value] on a plain object: every key but the accessor
    [__proto__] of [Object.prototype] becomes (or updates) an own property;
    assigning an object to [__proto__] replaces the prototype and leaves
    the own properties as they were. *)
Definition assign {V} (obj : gmap string V) (key : string) (value : V)
  : gmap string V :=
  if String.eqb key "__proto__" then obj else <[key := value]> obj.

(** [addEndpointToSpec]: the mutation of [spec.paths], as a new map.
    The key [path] starts with a slash, so that [spec.paths[path]] reads
    and writes an own property. *)
Definition addEndpointToPaths (paths : gmap string (gmap string Operation))
    (endpoint : GeneratedEndpoint) : gmap string (gmap string Operation) :=
  let path := normalizePath (ep_path endpoint) in
  let entry := default ∅ (paths !! path) in
  let method := toLowerCase (ep_method endpoint) in
  <[path := assign entry method (operation_of endpoint)]> paths.

Definition addEndpointToSpec (spec : OpenAPISpec) (endpoint : GeneratedEndpoint)
  : OpenAPISpec :=
  {| openapi := openapi spec; info := info spec; servers := servers spec;
     paths := addEndpointToPaths (paths spec) endpoint;
     components := components spec |}.

(** [for (const endpoint of backend.endpoints)]: iterating an absent
    property throws a TypeError before the first round. *)
Definition for_endpoints (spec : OpenAPISpec)
    (endpoints : option (list GeneratedEndpoint)) : Thrown + OpenAPISpec :=
  match endpoints with
  | Some l => inr (foldl addEndpointToSpec spec l)
  | None => inl (ErrorInstance "backend.endpoints is not iterable")
  end.

(** The [try] block of [generateOpenAPISpec] (lines 9-35). *)
Definition generate_try (backend : GeneratedBackend) : Thrown + OpenAPISpec :=
  let spec :=
    {| openapi := "3.0.0";
       info := {| info_title := be_name backend;
                  info_description := be_description backend;
                  info_version := be_version backend |};
       servers := ["/api"];
       paths := ∅;
       components := Some ∅ |} in
  for_endpoints spec (be_endpoints backend).

(** The [catch] block (lines 39-49): the minimal specification. *)
Definition minimal_spec (backend : GeneratedBackend) : OpenAPISpec :=
  {| openapi := "3.0.0";
     info := {| info_title := Some (or_default (be_name backend) "Generated API");
                info_description := Some "Error generating complete specification";
                info_version := Some (or_default (be_version backend) "0.1.0") |};
     servers := ["/api"];
     paths := ∅;
     components := None |}.

(** [generateOpenAPISpec] *)
Definition generateOpenAPISpec (backend : GeneratedBackend) : OpenAPISpec :=
  match generate_try backend with
  | inr spec => spec
  | inl _ => minimal_spec backend
  end.

End OpenApi.

(** ** Vocabulary of the statements about the projector *)

Module OpenApiSpec.
Import JS Types OpenApi.

(** Removes the four leading characters [/api] when the text starts with
    them, whatever follows. *)
Definition strip_api_prefix (path : string) : string :=
  match path with
  | String "/" (String "a" (String "p" (String "i" rest))) => rest
  | _ => path
  end.

(** Removes a leading [/api] only when it is a whole path segment: the
    text ends there or goes on with a slash. *)
Definition strip_api_segment (path : string) : string :=
  match path with
  | String "/" (String "a" (String "p" (String "i" rest))) =>
      match rest with
      | EmptyString | String "/" _ => rest
      | _ => path
      end
  | _ => path
  end.

Definition ensure_leading_slash (path : string) : string :=
  match path with
  | String "/" _ => path
  | _ => String "/" path
  end.

(** The key as the code computes it, in the words of its comment: the
    [/api] prefix removed, then a leading slash ensured. *)
Definition prefix_key (path : string) : string :=
  ensure_leading_slash (strip_api_prefix path).

(** The key when [/api] is removed as a path segment. *)
Definition segment_key (path : string) : string :=
  ensure_leading_slash (strip_api_segment path).

(** [/api], when it leads the path, is a whole segment of it. *)
Definition api_is_whole_segment (path : string) : Prop :=
  strip_api_segment path = strip_api_prefix path.

(** [spec.paths[p][m]] read as own properties. *)
Definition op_at (paths : gmap string (gmap string Operation)) (p m : string)
  : option Operation :=
  paths !! p ≫= (.!! m).

(** The endpoint that lands under path key [p] and method key [m]. *)
Definition lands_at (p m : string) (e : GeneratedEndpoint) : Prop :=
  normalizePath (ep_path e) = p ∧ toLowerCase (ep_method e) = m.

#[global] Instance lands_at_dec p m e : Decision (lands_at p m e).
Proof. unfold lands_at. apply _. Defined.

(** The last endpoint of the sequence that lands at [(p, m)]. *)
Definition last_at (p m : string) (eps : list GeneratedEndpoint)
  : option GeneratedEndpoint :=
  last (filter (lands_at p m) eps).

(** The capital letters among the code units below 256, and their small
    letters in the same order: the 26 letters of ASCII and the 30 letters
    of Latin-1 (capitals 192 to 222 without the multiplication sign, 215;
    small letters 224 to 254 without the division sign, 247). *)
Definition capital_letters : list ascii :=
  list_ascii_of_string "ABCDEFGHIJKLMNOPQRSTUVWXYZ"
  ++ (ascii_of_nat <$> seq 192 23 ++ seq 216 7).

Definition small_letters : list ascii :=
  list_ascii_of_string "abcdefghijklmnopqrstuvwxyz"
  ++ (ascii_of_nat <$> seq 224 23 ++ seq 248 7).

(** Each capital letter with its small letter. *)
Definition letter_cases : list (ascii * ascii) :=
  zip capital_letters small_letters.

(** The small letter of a capital letter; any other code unit as it is. *)
Definition small_letter (c : ascii) : ascii :=
  match List.find (fun entry => Ascii.eqb (fst entry) c) letter_cases with
  | Some entry => snd entry
  | None => c
  end.

(** A text with each capital letter replaced by its small letter. *)
Fixpoint lower_case (s : string) : string :=
  match s with
  | EmptyString => EmptyString
  | String c rest => String (small_letter c) (lower_case rest)
  end.


(** The endpoint belongs under path key [p] and method key [m]: [p] is its
    path without the prefix [/api] and with a leading slash, [m] its method
    in small letters. *)
Definition filed_at (p m : string) (e : GeneratedEndpoint) : Prop :=
  prefix_key (ep_path e) = p ∧ lower_case (ep_method e) = m.

#[global] Instance filed_at_dec p m e : Decision (filed_at p m e).
Proof. unfold filed_at. apply _. Defined.


(** The last supplied response whose status code prints as [k]. *)
Definition last_response (k : string) (rs : list EndpointResponse)
  : option EndpointResponse :=
  last (filter (fun r => Number_toString (resp_status r) = k) rs).

Definition default_response : OAResponse :=
  {| oar_description := "Successful operation"; oar_content := None |}.

(** A minimal valid specification: version tag, a title and a version that
    are present and not empty, the [/api] server, no path. *)
Definition minimal_valid (spec : OpenAPISpec) : Prop :=
  openapi spec = "3.0.0" ∧
  (∃ t, info_title (info spec) = Some t ∧ t ≠ EmptyString) ∧
  (∃ v, info_version (info spec) = Some v ∧ v ≠ EmptyString) ∧
  servers spec = ["/api"] ∧
  paths spec = ∅.

(** Sample inputs. *)
Definition endpoint (path method description : string) : GeneratedEndpoint :=
  {| ep_path := path; ep_method := method; ep_description := description;
     ep_parameters := None; ep_responses := None |}.

Definition backend (eps : option (list GeneratedEndpoint)) : GeneratedBackend :=
  {| be_name := Some "tasks-service"; be_description := Some "Tasks";
     be_version := Some "0.1.0"; be_nodes := Some (JArr []);
     be_workflows := Some (JArr []); be_endpoints := eps |}.

Definition parameter (name : string) (loc : ParamLocation) (required : bool)
    (description : string) : EndpointParameter :=
  {| param_name := name; param_in := loc; param_required := required;
     param_type := "string"; param_description := description |}.

Definition response (status : Z) (description : string) : EndpointResponse :=
  {| resp_status := status; resp_description := description;
     resp_schema := None |}.

End OpenApiSpec.

(** ** The Prompt-to-Model Translator: [src/generator/promptParser.ts] *)

Module Translator.
Import JS Types.

(** [JSON.parse], a built-in of the host: [None] is a SyntaxError. *)
Class JSONCodec : Type := { JSON_parse : string → option json }.

(** The request of [openai.chat.completions.create] (lines 82-97);
    [temperature] is [0.2], kept in tenths. *)
Record ChatMessage : Type := { role : string; content : string }.

Record ChatRequest : Type := {
  req_model : string;
  req_messages : list ChatMessage;
  req_temperature_tenths : Z;
  req_max_tokens : Z;
  req_response_format : string
}.

(** The reply: [choices[i].message.content] is a string or [null]. *)
Record Choice : Type := { message_content : option string }.
Record Completion : Type := { choices : list Choice }.

(** A run of [parsePrompt] up to its answer: what it asks of the OpenAI
    client library, and how it goes on for every outcome of the asking.
    [NewOpenAI] is [new OpenAI({ apiKey })], [CreateCompletion] the awaited
    network call; each may throw (reject). *)
Inductive Prog (R : Type) : Type :=
| Return (r : R)
| NewOpenAI (apiKey : string) (k : Raised + unit → Prog R)
| CreateCompletion (request : ChatRequest) (k : Raised + Completion → Prog R).
Arguments Return {R} r.
Arguments NewOpenAI {R} apiKey k.
Arguments CreateCompletion {R} request k.

(** The outside world of one run. *)
Record Service : Type := {
  construct : string → Raised + unit;
  create : ChatRequest → Raised + Completion
}.

Fixpoint run {R} (service : Service) (p : Prog R) : R :=
  match p with
  | Return r => r
  | NewOpenAI apiKey k => run service (k (construct service apiKey))
  | CreateCompletion request k => run service (k (create service request))
  end.

(** The requests issued to the network during a run, in order. *)
Fixpoint requests {R} (service : Service) (p : Prog R) : list ChatRequest :=
  match p with
  | Return _ => []
  | NewOpenAI apiKey k => requests service (k (construct service apiKey))
  | CreateCompletion request k =>
      request :: requests service (k (create service request))
  end.

(** The clients constructed during a run (their keys), in order. *)
Fixpoint clients {R} (service : Service) (p : Prog R) : list string :=
  match p with
  | Return _ => []
  | NewOpenAI apiKey k => apiKey :: clients service (k (construct service apiKey))
  | CreateCompletion request k => clients service (k (create service request))
  end.

(** Lines 34-76. *)
Definition systemPrompt : string :=
  "You are an expert backend architect specializing in nanoservice-ts. 
Your task is to analyze the user's request and generate a structured representation of the backend they need.
You should identify:
1. The required nodes (small, single-responsibility units)
2. The workflows that connect these nodes
3. The API endpoints that should be exposed

Think of nodes as individual functions that perform a specific task. Workflows are sequences of nodes that are executed to fulfill a request.

Respond with valid JSON in the following format:
{
  " +:+ dquote +:+ "name" +:+ dquote +:+ ": " +:+ dquote +:+ "short-service-name" +:+ dquote +:+ ",
  " +:+ dquote +:+ "description" +:+ dquote +:+ ": " +:+ dquote +:+ "Description of the backend service" +:+ dquote +:+ ",
  " +:+ dquote +:+ "nodes" +:+ dquote +:+ ": [
    {
      " +:+ dquote +:+ "name" +:+ dquote +:+ ": " +:+ dquote +:+ "node-name" +:+ dquote +:+ ",
      " +:+ dquote +:+ "type" +:+ dquote +:+ ": " +:+ dquote +:+ "data-processor|validator|external-api|database|transformer" +:+ dquote +:+ ",
      " +:+ dquote +:+ "description" +:+ dquote +:+ ": " +:+ dquote +:+ "What this node does" +:+ dquote +:+ ",
      " +:+ dquote +:+ "inputs" +:+ dquote +:+ ": [{" +:+ dquote +:+ "name" +:+ dquote +:+ ": " +:+ dquote +:+ "inputName" +:+ dquote +:+ ", " +:+ dquote +:+ "type" +:+ dquote +:+ ": " +:+ dquote +:+ "string|number|boolean|object" +:+ dquote +:+ ", " +:+ dquote +:+ "description" +:+ dquote +:+ ": " +:+ dquote +:+ "What this input is for" +:+ dquote +:+ "}],
      " +:+ dquote +:+ "outputs" +:+ dquote +:+ ": [{" +:+ dquote +:+ "name" +:+ dquote +:+ ": " +:+ dquote +:+ "outputName" +:+ dquote +:+ ", " +:+ dquote +:+ "type" +:+ dquote +:+ ": " +:+ dquote +:+ "string|number|boolean|object" +:+ dquote +:+ ", " +:+ dquote +:+ "description" +:+ dquote +:+ ": " +:+ dquote +:+ "What this output represents" +:+ dquote +:+ "}]
    }
  ],
  " +:+ dquote +:+ "workflows" +:+ dquote +:+ ": [
    {
      " +:+ dquote +:+ "name" +:+ dquote +:+ ": " +:+ dquote +:+ "workflow-name" +:+ dquote +:+ ",
      " +:+ dquote +:+ "description" +:+ dquote +:+ ": " +:+ dquote +:+ "What this workflow does" +:+ dquote +:+ ",
      " +:+ dquote +:+ "nodes" +:+ dquote +:+ ": [" +:+ dquote +:+ "node-name-1" +:+ dquote +:+ ", " +:+ dquote +:+ "node-name-2" +:+ dquote +:+ "],
      " +:+ dquote +:+ "endpoints" +:+ dquote +:+ ": [
        {
          " +:+ dquote +:+ "path" +:+ dquote +:+ ": " +:+ dquote +:+ "/api/resource" +:+ dquote +:+ ",
          " +:+ dquote +:+ "method" +:+ dquote +:+ ": " +:+ dquote +:+ "GET|POST|PUT|DELETE" +:+ dquote +:+ ",
          " +:+ dquote +:+ "description" +:+ dquote +:+ ": " +:+ dquote +:+ "What this endpoint does" +:+ dquote +:+ ",
          " +:+ dquote +:+ "parameters" +:+ dquote +:+ ": [
            {" +:+ dquote +:+ "name" +:+ dquote +:+ ": " +:+ dquote +:+ "paramName" +:+ dquote +:+ ", " +:+ dquote +:+ "in" +:+ dquote +:+ ": " +:+ dquote +:+ "path|query|body|header" +:+ dquote +:+ ", " +:+ dquote +:+ "required" +:+ dquote +:+ ": true, " +:+ dquote +:+ "type" +:+ dquote +:+ ": " +:+ dquote +:+ "string" +:+ dquote +:+ ", " +:+ dquote +:+ "description" +:+ dquote +:+ ": " +:+ dquote +:+ "Parameter description" +:+ dquote +:+ "}
          ],
          " +:+ dquote +:+ "responses" +:+ dquote +:+ ": [
            {" +:+ dquote +:+ "status" +:+ dquote +:+ ": 200, " +:+ dquote +:+ "description" +:+ dquote +:+ ": " +:+ dquote +:+ "Success response" +:+ dquote +:+ ", " +:+ dquote +:+ "schema" +:+ dquote +:+ ": {" +:+ dquote +:+ "type" +:+ dquote +:+ ": " +:+ dquote +:+ "object" +:+ dquote +:+ ", " +:+ dquote +:+ "properties" +:+ dquote +:+ ": {" +:+ dquote +:+ "key" +:+ dquote +:+ ": {" +:+ dquote +:+ "type" +:+ dquote +:+ ": " +:+ dquote +:+ "string" +:+ dquote +:+ "}}}}
          ]
        }
      ]
    }
  ]
}".

Definition failure (message : string) : GenerationResult :=
  {| success := false; error := Some message; data := None |}.

Definition succeeded (parsedData : json) : GenerationResult :=
  {| success := true; error := None; data := Some parsedData |}.

(** The result of the inner [catch] (lines 130-135). *)
Definition parse_failure : GenerationResult :=
  failure "Failed to parse OpenAI response as JSON".

(** The result of the failed basic validation (lines 113-118). *)
Definition format_failure : GenerationResult :=
  failure "Invalid data format in OpenAI response".

(** How the promise of [parsePrompt] settles: fulfilled with a result, or
    rejected with what was thrown and not caught. *)
Inductive Settled : Type :=
| Fulfilled (result : GenerationResult)
| Rejected (reason : Raised).

Coercion Fulfilled : GenerationResult >-> Settled.

(** The result of the outer [catch] (lines 139-142). *)
Definition caught (thrown : Thrown) : GenerationResult :=
  failure (message_of thrown).

(** The outer [catch] (lines 137-143): it calls [logger.error] with what
    was thrown, then answers [caught]. On a value the logger cannot report
    the call throws, out of the [catch] block: the promise rejects with
    what the logger threw. *)
Definition outer_catch (error : Raised) : Settled :=
  match error with
  | Reportable thrown => Fulfilled (caught thrown)
  | Unreportable rethrown => Rejected rethrown
  end.

(** Line 113: [!parsedData.name || !parsedData.workflows ||
    !Array.isArray(parsedData.workflows)], left to right; [inl] when reading
    a property throws. *)
Definition invalid_format (parsedData : json) : Thrown + bool :=
  match get parsedData "name" with
  | inl thrown => inl thrown
  | inr name =>
      if negb (truthy_opt name) then inr true
      else match get parsedData "workflows" with
           | inl thrown => inl thrown
           | inr workflows =>
               if negb (truthy_opt workflows) then inr true
               else inr (negb (isArray workflows))
           end
  end.

(** [parsedData.nodes?.length]: absent on [undefined] and [null], the
    number of elements or code units of an array or string, the own member
    [length] of an object, absent otherwise. *)
Definition nodes_length (parsedData : json) : Thrown + option json :=
  match get parsedData "nodes" with
  | inl thrown => inl thrown
  | inr None | inr (Some JNull) => inr None
  | inr (Some (JArr items)) => inr (Some (JNum (Z.of_nat (List.length items))))
  | inr (Some (JStr s)) => inr (Some (JNum (Z.of_nat (String.length s))))
  | inr (Some (JObj members)) => inr (get_member "length" members)
  | inr (Some _) => inr None
  end.

(** Lines 121-124: the logger returns normally; building the logged texts
    converts [parsedData.name] and [parsedData.nodes?.length || 0] to
    strings, which may throw. [true] when one of them does. *)
Definition logging_throws (parsedData : json) : bool :=
  match get parsedData "name" with
  | inl _ => true
  | inr name =>
      match name with
      | Some v => ToString_throws v
      | None => false
      end
      || match nodes_length parsedData with
         | inl _ => true
         | inr (Some n) => truthy n && ToString_throws n
         | inr None => false
         end
  end.

(** Lines 109-136: the inner [try] and its [catch], which receives the
    SyntaxError of [JSON.parse] and every other error thrown in the
    block. *)
Definition decode `{JSONCodec} (content : string) : GenerationResult :=
  match JSON_parse content with
  | None => parse_failure
  | Some parsedData =>
      match invalid_format parsedData with
      | inl _ => parse_failure
      | inr true => format_failure
      | inr false =>
          if logging_throws parsedData then parse_failure
          else succeeded parsedData
      end
  end.

(** Lines 99-106: [completion.choices[0]?.message.content]. *)
Definition first_content (completion : Completion) : option string :=
  match choices completion with
  | [] => None
  | choice :: _ => message_content choice
  end.

Definition falsy_string (s : option string) : bool :=
  match s with
  | Some t => String.eqb t EmptyString
  | None => true
  end.

Definition chat_request (prompt : string) (config : GeneratorConfig) : ChatRequest :=
  {| req_model := or_default (model config) "gpt-4o";
     req_messages := [ {| role := "system"; content := systemPrompt |};
                       {| role := "user"; content := prompt |} ];
     req_temperature_tenths := 2;
     req_max_tokens := 2500;
     req_response_format := "json_object" |}.

(** [parsePrompt]. Every throw inside the outer [try] ends in
    [outer_catch]. *)
Definition parsePrompt `{JSONCodec} (prompt : string) (config : GeneratorConfig)
  : Prog Settled :=
  if String.eqb prompt EmptyString || (String.length (trim prompt) =? 0)%nat
  then Return (Fulfilled (failure "Empty prompt provided"))
  else if falsy_string (openaiApiKey config)
  then Return (Fulfilled (failure "OpenAI API key is required"))
  else
    NewOpenAI (default EmptyString (openaiApiKey config)) (fun constructed =>
      match constructed with
      | inl error => Return (outer_catch error)
      | inr _ =>
          CreateCompletion (chat_request prompt config) (fun reply =>
            match reply with
            | inl error => Return (outer_catch error)
            | inr completion =>
                match first_content completion with
                | None => Return (Fulfilled (failure "No content in OpenAI response"))
                | Some content =>
                    if String.eqb content EmptyString
                    then Return (Fulfilled (failure "No content in OpenAI response"))
                    else Return (Fulfilled (decode content))
                end
            end)
      end).

End Translator.

(** ** Vocabulary of the statements about the translator *)

Module TranslatorSpec.
Import JS Types Translator.

(** Own member [k] of a decoded value ([None] when the value is not an
    object or has no such member). *)
Definition member (v : json) (k : string) : option json :=
  match v with
  | JObj members => get_member k members
  | _ => None
  end.

(** The decoded reply lacks a top-level [name] (absent or falsy) or lacks
    [workflows] as an array. *)
Definition lacks_required (v : json) : Prop :=
  truthy_opt (member v "name") = false ∨ isArray (member v "workflows") = false.

(** A service that answers every request with one completion holding
    [content]. *)
Definition replying (content : option string) : Service :=
  {| construct := fun _ => inr tt;
     create := fun _ => inr {| choices := [ {| message_content := content |} ] |} |}.

(** A service that cannot be reached: the call rejects, with an [Error] or
    another value that the logger reports. *)
Definition unreachable (thrown : Thrown) : Service :=
  {| construct := fun _ => inr tt; create := fun _ => inl (Reportable thrown) |}.

Definition config_with (key : option string) : GeneratorConfig :=
  {| openaiApiKey := key; model := None; outputDir := None; verbose := None |}.

(** The text [{"name":"todo","workflows":[]}]. *)
Definition bare_reply : string :=
  "{" +:+ dquote +:+ "name" +:+ dquote +:+ ":" +:+ dquote +:+ "todo" +:+ dquote +:+ "," +:+ dquote +:+ "workflows" +:+ dquote +:+ ":[]}".

Definition bare_object : json :=
  JObj [("name", JStr "todo"); ("workflows", JArr [])].

(** [JSON.parse] on three texts; every other text is taken as not
    decodable. *)
Definition sample_parse (text : string) : option json :=
  if String.eqb text "null" then Some JNull
  else if String.eqb text "{}" then Some (JObj [])
  else if String.eqb text bare_reply then Some bare_object
  else None.

Definition sample_codec : JSONCodec := {| JSON_parse := sample_parse |}.

End TranslatorSpec.

(** ** The host: file system, clock, template engine, logger *)

Module Host.
Import JS Types.

(** A call of the logger of [src/utils/logger.ts], by its arguments. *)
Inductive LogCall : Type :=
| LogInfo (message : string)
| LogError (message : string) (error : Raised).

(** What [ejs.render] receives (lines 31-37 of the renderer). *)
Record TemplateData : Type := {
  td_backend : GeneratedBackend;
  td_title : string;
  td_description : option string;
  td_version : option string;
  td_date : string
}.

(** The operations of Node and of the [ejs] package that the sources call,
    over a state of the outside world. An operation that may throw returns
    [inl]; the writing ones also return the world they leave behind. The
    operations of Node throw [Error]s; [ejs.render] runs the code of the
    template and throws again whatever that code threw. *)
Class Env (World : Type) : Type := {
  process_cwd : World → Thrown + string;
  path_join : list string → string;
  path_dirname : string → string;
  fs_existsSync : string → World → bool;
  fs_mkdirSync : string → World → World * (Thrown + unit);
  fs_writeFileSync : string → string → World → World * (Thrown + unit);
  fs_readFileSync : string → World → Thrown + string;
  today : World → string;
  ejs_render : string → TemplateData → Raised + string;
  JSON_stringify : GeneratedBackend → Thrown + string
}.

(** The state a function of the server runs in: the module variable
    [generatedBackend] of [src/server.ts], the outside world, and the calls
    made to the logger so far. *)
Record State (World : Type) : Type := {
  generatedBackend : option GeneratedBackend;
  world : World;
  log : list LogCall
}.
Arguments generatedBackend {World} _.
Arguments world {World} _.
Arguments log {World} _.

(** Computations that read and write the state and may throw. *)
Definition M (World A : Type) : Type := State World → State World * (Raised + A).

#[global] Instance M_ret {World} : MRet (M World) :=
  fun A (a : A) st => (st, inr a).

#[global] Instance M_bind {World} : MBind (M World) :=
  fun A B (k : A → M World B) (m : M World A) st =>
    match m st with
    | (st', inr a) => k a st'
    | (st', inl thrown) => (st', inl thrown)
    end.

(** [try { body } catch (error) { handler }] *)
Definition try_catch {World A} (body : M World A) (handler : Raised → M World A)
  : M World A :=
  fun st =>
    match body st with
    | (st', inr a) => (st', inr a)
    | (st', inl thrown) => handler thrown st'
    end.

(** An operation that reads the world. *)
Definition ask {World A} (f : World → Thrown + A) : M World A :=
  fun st => (st, lift (f (world st))).

(** An operation that changes the world. *)
Definition io {World A} (f : World → World * (Thrown + A)) : M World A :=
  fun st =>
    let (w, r) := f (world st) in
    ({| generatedBackend := generatedBackend st; world := w; log := log st |}, lift r).

(** A call into code that may throw any value. *)
Definition call {World A} (f : World → Raised + A) : M World A :=
  fun st => (st, f (world st)).

(** How a call of the logger ends: it returns normally, but for
    [logger.error] on a value it cannot report: there
    [JSON.stringify(error)] (logger.ts, line 39) throws out of
    [logger.error]. *)
Definition logged (call : LogCall) : Raised + unit :=
  match call with
  | LogError _ (Unreportable rethrown) => inl rethrown
  | _ => inr tt
  end.

(** [logger.log(message)] and [logger.error(message, error)]: the call is
    recorded, and ends as [logged] says. *)
Definition logger {World} (call : LogCall) : M World unit :=
  fun st =>
    ({| generatedBackend := generatedBackend st; world := world st;
        log := log st ++ [call] |}, logged call).

(** [generatedBackend = backend] *)
Definition set_generatedBackend {World} (backend : GeneratedBackend) : M World unit :=
  fun st =>
    ({| generatedBackend := Some backend; world := world st; log := log st |}, inr tt).

End Host.

(** ** The Documentation Renderer: [src/generator/documentationGenerator.ts] *)

Module Docs.
Import JS Types Host.

(** [getDefaultTemplate] *)
Definition getDefaultTemplate : string :=
  "<!DOCTYPE html>
<html lang=" +:+ dquote +:+ "en" +:+ dquote +:+ ">
<head>
  <meta charset=" +:+ dquote +:+ "UTF-8" +:+ dquote +:+ ">
  <meta name=" +:+ dquote +:+ "viewport" +:+ dquote +:+ " content=" +:+ dquote +:+ "width=device-width, initial-scale=1.0" +:+ dquote +:+ ">
  <title><%= title %></title>
  <style>
    body {
      font-family: -apple-system, BlinkMacSystemFont, " +:+ dquote +:+ "Segoe UI" +:+ dquote +:+ ", Roboto, Helvetica, Arial, sans-serif;
      line-height: 1.6;
      color: #333;
      max-width: 1200px;
      margin: 0 auto;
      padding: 20px;
    }
    header {
      background-color: #f8f9fa;
      padding: 20px;
      border-radius: 5px;
      margin-bottom: 30px;
      border-left: 5px solid #0366d6;
    }
    h1 {
      margin-top: 0;
      color: #0366d6;
    }
    h2 {
      margin-top: 40px;
      padding-bottom: 10px;
      border-bottom: 1px solid #eaecef;
      color: #0366d6;
    }
    h3 {
      margin-top: 30px;
      color: #0366d6;
    }
    .endpoint {
      background-color: #f8f9fa;
      padding: 20px;
      border-radius: 5px;
      margin-bottom: 20px;
      border-left: 5px solid #28a745;
    }
    .endpoint h3 {
      margin-top: 0;
      display: flex;
      align-items: center;
    }
    .method {
      display: inline-block;
      padding: 5px 10px;
      border-radius: 5px;
      color: white;
      font-weight: bold;
      margin-right: 10px;
      min-width: 60px;
      text-align: center;
    }
    .get { background-color: #0366d6; }
    .post { background-color: #28a745; }
    .put { background-color: #f9c513; }
    .delete { background-color: #d73a49; }
    .path {
      font-family: monospace;
      font-size: 1.1em;
    }
    table {
      width: 100%;
      border-collapse: collapse;
      margin: 20px 0;
    }
    th, td {
      text-align: left;
      padding: 12px;
      border-bottom: 1px solid #eaecef;
    }
    th {
      background-color: #f8f9fa;
    }
    code {
      font-family: SFMono-Regular, Consolas, " +:+ dquote +:+ "Liberation Mono" +:+ dquote +:+ ", Menlo, monospace;
      background-color: #f6f8fa;
      padding: 2px 5px;
      border-radius: 3px;
    }
    .response-code {
      display: inline-block;
      padding: 2px 8px;
      border-radius: 3px;
      color: white;
      font-weight: bold;
      min-width: 40px;
      text-align: center;
      margin-right: 10px;
    }
    .code-200, .code-201, .code-204 { background-color: #28a745; }
    .code-400, .code-404 { background-color: #f9c513; }
    .code-500 { background-color: #d73a49; }
    footer {
      margin-top: 50px;
      padding-top: 20px;
      border-top: 1px solid #eaecef;
      text-align: center;
      color: #6a737d;
    }
  </style>
</head>
<body>
  <header>
    <h1><%= backend.name %> API Documentation</h1>
    <p><%= backend.description %></p>
    <p><strong>Version:</strong> <%= backend.version %> | <strong>Generated:</strong> <%= date %></p>
  </header>

  <main>
    <h2>API Endpoints</h2>
    
    <% if (backend.endpoints && backend.endpoints.length > 0) { %>
      <% backend.endpoints.forEach(endpoint => { %>
        <div class=" +:+ dquote +:+ "endpoint" +:+ dquote +:+ ">
          <h3>
            <span class=" +:+ dquote +:+ "method <%= endpoint.method.toLowerCase() %>" +:+ dquote +:+ "><%= endpoint.method %></span>
            <span class=" +:+ dquote +:+ "path" +:+ dquote +:+ "><%= endpoint.path %></span>
          </h3>
          <p><%= endpoint.description %></p>
          
          <% if (endpoint.parameters && endpoint.parameters.length > 0) { %>
            <h4>Parameters</h4>
            <table>
              <thead>
                <tr>
                  <th>Name</th>
                  <th>Located in</th>
                  <th>Type</th>
                  <th>Required</th>
                  <th>Description</th>
                </tr>
              </thead>
              <tbody>
                <% endpoint.parameters.forEach(param => { %>
                  <tr>
                    <td><code><%= param.name %></code></td>
                    <td><%= param.in %></td>
                    <td><code><%= param.type %></code></td>
                    <td><%= param.required ? 'Yes' : 'No' %></td>
                    <td><%= param.description %></td>
                  </tr>
                <% }); %>
              </tbody>
            </table>
          <% } %>
          
          <% if (endpoint.responses && endpoint.responses.length > 0) { %>
            <h4>Responses</h4>
            <table>
              <thead>
                <tr>
                  <th>Status</th>
                  <th>Description</th>
                </tr>
              </thead>
              <tbody>
                <% endpoint.responses.forEach(response => { %>
                  <tr>
                    <td>
                      <span class=" +:+ dquote +:+ "response-code code-<%= response.status %>" +:+ dquote +:+ "><%= response.status %></span>
                    </td>
                    <td><%= response.description %></td>
                  </tr>
                <% }); %>
              </tbody>
            </table>
          <% } %>
        </div>
      <% }); %>
    <% } else { %>
      <p>No endpoints defined yet.</p>
    <% } %>

    <h2>Nodes</h2>
    <% if (backend.nodes && backend.nodes.length > 0) { %>
      <ul>
        <% backend.nodes.forEach(node => { %>
          <li>
            <strong><%= node.name %></strong> (<%= node.type %>)
          </li>
        <% }); %>
      </ul>
    <% } else { %>
      <p>No nodes defined yet.</p>
    <% } %>

    <h2>Workflows</h2>
    <% if (backend.workflows && backend.workflows.length > 0) { %>
      <ul>
        <% backend.workflows.forEach(workflow => { %>
          <li>
            <strong><%= workflow.name %></strong>: <%= workflow.description %>
          </li>
        <% }); %>
      </ul>
    <% } else { %>
      <p>No workflows defined yet.</p>
    <% } %>
  </main>

  <footer>
    <p>Generated by Generative Backend Builder</p>
  </footer>
</body>
</html>".

(** The page of the [catch] block, before and after the embedded message. *)
Definition error_page_head : string :=
  "
      <!DOCTYPE html>
      <html>
        <head>
          <title>Error - API Documentation</title>
          <style>
            body { font-family: Arial, sans-serif; margin: 40px; line-height: 1.6; }
            .error { color: red; border: 1px solid red; padding: 20px; border-radius: 5px; }
          </style>
        </head>
        <body>
          <h1>Error Generating Documentation</h1>
          <div class=" +:+ dquote +:+ "error" +:+ dquote +:+ ">
            <p>There was an error generating the documentation:</p>
            <p>".

Definition error_page_tail : string :=
  "</p>
          </div>
          <p>Please check the server logs for more information.</p>
        </body>
      </html>
    ".

Definition error_page (error : Raised) : string :=
  error_page_head +:+ raised_message error +:+ error_page_tail.

(** [`${backend.name} API Documentation`] *)
Definition title_of (backend : GeneratedBackend) : string :=
  default "undefined" (be_name backend) +:+ " API Documentation".

Section Renderer.
Context {World : Type} `{Env World}.

(** The [try] block of [renderDocumentation] (lines 12-39). *)
Definition render_try (backend : GeneratedBackend) : M World string :=
  logger (LogInfo "Rendering documentation...");;
  cwd ← ask process_cwd;
  let templatePath := path_join [cwd; "src"; "templates"; "documentation.ejs"] in
  present ← ask (fun w => inr (fs_existsSync templatePath w));
  (if negb present then
     let templateDir := path_dirname templatePath in
     dir_present ← ask (fun w => inr (fs_existsSync templateDir w));
     (if negb dir_present then io (fs_mkdirSync templateDir) else mret tt);;
     io (fs_writeFileSync templatePath getDefaultTemplate);;
     logger (LogInfo "Created default documentation template")
   else mret tt);;
  template ← ask (fs_readFileSync templatePath);
  date ← ask (fun w => inr (today w));
  call (fun _ => ejs_render template
                  {| td_backend := backend;
                     td_title := title_of backend;
                     td_description := be_description backend;
                     td_version := be_version backend;
                     td_date := date |}).

(** [renderDocumentation] *)
Definition renderDocumentation (backend : GeneratedBackend) : M World string :=
  try_catch (render_try backend)
    (fun error =>
       logger (LogError "Error rendering documentation:" error);;
       mret (error_page error)).

End Renderer.

End Docs.

(** ** The current model: [updateGeneratedBackend] of [src/server.ts] *)

Module Server.
Import JS Types Host.

Section Update.
Context {World : Type} `{Env World}.

(** The [try] block (lines 689-698). *)
Definition save_try (backend : GeneratedBackend) : M World unit :=
  cwd ← ask process_cwd;
  let dataPath := path_join [cwd; "src"; "generator"] in
  present ← ask (fun w => inr (fs_existsSync dataPath w));
  (if negb present then io (fs_mkdirSync dataPath) else mret tt);;
  let file := path_join [dataPath; "generated-backend.json"] in
  text ← ask (fun _ => JSON_stringify backend);
  io (fs_writeFileSync file text).

(** The state in which the persistence is attempted. *)
Definition installed (backend : GeneratedBackend) (st : State World) : State World :=
  {| generatedBackend := Some backend; world := world st; log := log st |}.

(** [updateGeneratedBackend] *)
Definition updateGeneratedBackend (backend : GeneratedBackend) : M World unit :=
  set_generatedBackend backend;;
  try_catch (save_try backend)
    (fun error => logger (LogError "Error saving generated backend data:" error)).

End Update.

End Server.

(** ** A host to run the sources against: a disk in memory

    Files and directories are kept by their path; a disk mounted read-only
    refuses every write with the error Node reports ([EROFS]). *)

Module SimHost.
Import JS Types Host.

Record Disk : Type := {
  files : gmap string string;
  dirs : gset string;
  read_only : bool
}.

(** [path.join] on segments that need no normalization. *)
Fixpoint join (segments : list string) : string :=
  match segments with
  | [] => "."
  | [segment] => segment
  | segment :: rest => segment +:+ "/" +:+ join rest
  end.

(** The text before the last slash, when there is a slash. *)
Fixpoint before_last_slash (path : string) : option string :=
  match path with
  | EmptyString => None
  | String c rest =>
      match before_last_slash rest with
      | Some dir => Some (String c dir)
      | None => if Ascii.eqb c "/" then Some EmptyString else None
      end
  end.

Definition dirname (path : string) : string :=
  default "." (before_last_slash path).

Definition existsSync (path : string) (disk : Disk) : bool :=
  bool_decide (is_Some (files disk !! path)) || bool_decide (path ∈ dirs disk).

Definition mkdirSync (path : string) (disk : Disk) : Disk * (Thrown + unit) :=
  if read_only disk
  then (disk, inl (ErrorInstance ("EROFS: read-only file system, mkdir '" +:+ path +:+ "'")))
  else ({| files := files disk; dirs := {[path]} ∪ dirs disk;
           read_only := read_only disk |}, inr tt).

Definition writeFileSync (path text : string) (disk : Disk) : Disk * (Thrown + unit) :=
  if read_only disk
  then (disk, inl (ErrorInstance ("EROFS: read-only file system, open '" +:+ path +:+ "'")))
  else if bool_decide (dirname path ∈ dirs disk)
  then ({| files := <[path := text]> (files disk); dirs := dirs disk;
           read_only := read_only disk |}, inr tt)
  else (disk, inl (ErrorInstance ("ENOENT: no such file or directory, open '" +:+ path +:+ "'"))).

Definition readFileSync (path : string) (disk : Disk) : Thrown + string :=
  if bool_decide (path ∈ dirs disk)
  then inl (ErrorInstance "EISDIR: illegal operation on a directory, read")
  else match files disk !! path with
       | Some text => inr text
       | None =>
           inl (ErrorInstance ("ENOENT: no such file or directory, open '" +:+ path +:+ "'"))
       end.

(** A stand-in for [JSON.stringify]: the name member only. *)
Definition stringify (backend : GeneratedBackend) : Thrown + string :=
  inr ("{" +:+ dquote +:+ "name" +:+ dquote +:+ ": " +:+ dquote +:+
       default "undefined" (be_name backend) +:+ dquote +:+ "}").

(** A template whose code throws an object that refers to itself. *)
Definition throwing_template : string :=
  "<% const o = {}; o.self = o; throw o; %>".

(** A stand-in for [ejs.render]: a template without tags is its own
    rendering; the empty template is refused; [throwing_template] throws
    its object, which [JSON.stringify] refuses. *)
Definition render (template : string) (_ : TemplateData) : Raised + string :=
  if String.eqb template EmptyString
  then inl (Reportable (ErrorInstance "Could not find matching close tag"))
  else if String.eqb template throwing_template
  then inl (Unreportable (Reportable (ErrorInstance "Converting circular structure to JSON")))
  else inr template.

#[global] Instance disk_env : Env Disk := {|
  process_cwd := fun _ => inr "/app";
  path_join := join;
  path_dirname := dirname;
  fs_existsSync := existsSync;
  fs_mkdirSync := mkdirSync;
  fs_writeFileSync := writeFileSync;
  fs_readFileSync := readFileSync;
  today := fun _ => "2026-01-01";
  ejs_render := render;
  JSON_stringify := stringify
|}.

(** A disk mounted read-only, with the directory of the persisted model
    and no file. *)
Definition read_only_disk : Disk :=
  {| files := ∅;
     dirs := {["/app"; "/app/src"; "/app/src/generator"]};
     read_only := true |}.

(** A disk whose template is [throwing_template]. *)
Definition throwing_template_disk : Disk :=
  {| files := {["/app/src/templates/documentation.ejs" := throwing_template]};
     dirs := {["/app"; "/app/src"; "/app/src/templates"]};
     read_only := false |}.

(** A disk on which the template path is a directory. *)
Definition template_is_directory : Disk :=
  {| files := ∅;
     dirs := {["/app/src/templates/documentation.ejs"]};
     read_only := false |}.

Definition initial (disk : Disk) : State Disk :=
  {| generatedBackend := None; world := disk; log := [] |}.

Definition sample_backend : GeneratedBackend :=
  {| be_name := Some "todo"; be_description := Some "Tasks";
     be_version := Some "0.1.0"; be_nodes := Some (JArr []);
     be_workflows := Some (JArr []); be_endpoints := Some [] |}.

End SimHost.

(** ** Further vocabulary for the projector *)

Module ProjectorSpec.
Import JS Types OpenApi OpenApiSpec.

(** Where an endpoint is filed: its path key and its method key. *)
Definition endpoint_key (e : GeneratedEndpoint) : string * string :=
  (normalizePath (ep_path e), toLowerCase (ep_method e)).

(** The number of parameters of an endpoint located at [body]. *)
Definition body_count (ps : list EndpointParameter) : nat :=
  length (filter (fun p => param_in p = InBody) ps).

(** A parameter of the endpoint is located at [body]. *)
Definition has_body_parameter (e : GeneratedEndpoint) : Prop :=
  ∃ ps p, ep_parameters e = Some ps ∧ p ∈ ps ∧ param_in p = InBody.

End ProjectorSpec.

(** ** Further sample replies for the translator *)

Module TranslatorSamples.
Import JS Types Translator.

(** The text [{"name":{"toString":1},"workflows":[]}]. *)
Definition unloggable_reply : string :=
  "{" +:+ dquote +:+ "name" +:+ dquote +:+ ":{" +:+ dquote +:+ "toString" +:+ dquote +:+
  ":1}," +:+ dquote +:+ "workflows" +:+ dquote +:+ ":[]}".

Definition unloggable_object : json :=
  JObj [("name", JObj [("toString", JNum 1)]); ("workflows", JArr [])].

(** [JSON.parse] on that text; every other text is taken as not decodable. *)
Definition unloggable_codec : JSONCodec :=
  {| JSON_parse := fun text =>
       if String.eqb text unloggable_reply then Some unloggable_object else None |}.

End TranslatorSamples.

(** ** Vocabulary of the statements about the documentation renderer *)

Module DocsSpec.
Import JS Types Host Docs.

(** Some part of the text starting anywhere in it is [part]. *)
Fixpoint contains (part s : string) : bool :=
  startsWith part s
  || match s with
     | EmptyString => false
     | String _ rest => contains part rest
     end.

(** White space only. *)
Definition blank (s : string) : Prop := trim s = EmptyString.

(** The text is an HTML page that reports [message]: between white space, a
    document from its doctype to the end of its [html] element, in whose
    [body] a paragraph holds [message]. *)
Definition html_page_reporting (message page : string) : Prop :=
  ∃ lead before after trail,
    page = lead +:+ "<!DOCTYPE html>" +:+ before +:+ "<p>" +:+ message +:+ "</p>"
           +:+ after +:+ "</html>" +:+ trail ∧
    blank lead ∧ blank trail ∧
    contains "<html>" before = true ∧
    contains "<body>" before = true ∧
    contains "</body>" before = false ∧
    contains "</body>" after = true.

(** How a call of [renderDocumentation] ends, from how its [try] block
    ends: with the rendering; with the error page for a thrown value that
    the logger reports; by throwing what the logger throws on a value it
    cannot report. *)
Definition outcome_of (block : Raised + string) : Raised + string :=
  match block with
  | inr html => inr html
  | inl (Reportable thrown) => inr (error_page (Reportable thrown))
  | inl (Unreportable rethrown) => inl rethrown
  end.

End DocsSpec.


(** ** More of [src/server.ts]: the start-up load and three route handlers *)

Module Routes.
Import JS Types Host Docs Server.

(** What [JSON.parse(data)] is to the code that stores it in
    [generatedBackend] and reads its [name]: [null], another falsy value
    ([0], [false], the empty string), or a value read through the members of
    [GeneratedBackend]. *)
Inductive Decoded : Type :=
| DNull
| DFalsy
| DBackend (backend : GeneratedBackend).

(** [JSON.parse] on the persisted text; [inl] is its SyntaxError. *)
Class BackendCodec : Type := { parse_backend : string → Thrown + Decoded }.

(** [throw error] *)
Definition throw {World A} (error : Raised) : M World A :=
  fun st => (st, inl error).

(** [generatedBackend = value] for a falsy [value]: no model is current. *)
Definition clear_generatedBackend {World} : M World unit :=
  fun st => ({| generatedBackend := None; world := world st; log := log st |}, inr tt).

(** An HTTP answer of a handler: the status code ([200] when the handler
    sets none) and what is sent. *)
Inductive Body : Type :=
| Json (value : json)
| Model (backend : GeneratedBackend)
| Html (text : string).

Record Response : Type := { status : nat; body : Body }.

(** [{ error: ..., message: ... }] *)
Definition error_body (error message : string) : Body :=
  Json (JObj [("error", JStr error); ("message", JStr message)]).

Definition no_backend : Response :=
  {| status := 404;
     body := error_body "No generated backend found"
               "Generate a backend first using the CLI" |}.

Section Routes.
Context {World : Type} `{Env World} `{BackendCodec}.

(** The [try] block of the start-up load in [initializeServer] (lines
    41-47). The assignment comes before the log line, whose text reads
    [generatedBackend.name]: on [null] that read throws. *)
Definition load_try : M World unit :=
  cwd ← ask process_cwd;
  let dataPath := path_join [cwd; "src"; "generator"; "generated-backend.json"] in
  present ← ask (fun w => inr (fs_existsSync dataPath w));
  if (present : bool) then
    data ← ask (fs_readFileSync dataPath);
    decoded ← ask (fun _ => parse_backend data);
    match decoded with
    | DBackend backend =>
        set_generatedBackend backend;;
        logger (LogInfo ("Loaded generated backend: "
                         +:+ default "undefined" (be_name backend)))
    | DFalsy =>
        clear_generatedBackend;;
        logger (LogInfo "Loaded generated backend: undefined")
    | DNull =>
        clear_generatedBackend;;
        throw (Reportable (ErrorInstance "Cannot read properties of null (reading 'name')"))
    end
  else mret tt.

(** Lines 40-50 of [initializeServer]. *)
Definition loadGeneratedBackend : M World unit :=
  try_catch load_try
    (fun error => logger (LogError "Error loading generated backend data:" error)).

(** The handler of [GET /preview] (lines 136-145). *)
Definition preview (st : State World) : Response :=
  match generatedBackend st with
  | None => no_backend
  | Some backend => {| status := 200; body := Model backend |}
  end.

(** The handler of [GET /docs] (lines 148-165). *)
Definition docs : M World Response :=
  fun st =>
    match generatedBackend st with
    | None => (st, inr no_backend)
    | Some backend =>
        try_catch
          (html ← renderDocumentation backend;
           mret {| status := 200; body := Html html |})
          (fun error =>
             mret {| status := 500;
                     body := error_body "Failed to render documentation"
                               (raised_message error) |})
          st
    end.

End Routes.

(** [const { name, description, releaseYear } = req.body] reads three
    members; destructuring [null] throws. *)
Definition movie_fields (body : json)
  : Thrown + (option json * option json * option json) :=
  match body with
  | JNull => inl (ErrorInstance "Cannot destructure property 'name' of 'req.body' as it is null.")
  | _ =>
      match get body "name", get body "description", get body "releaseYear" with
      | inr name, inr description, inr releaseYear => inr (name, description, releaseYear)
      | inl thrown, _, _ | _, inl thrown, _ | _, _, inl thrown => inl thrown
      end
  end.

(** [{ name, description, releaseYear }]: a member whose value is
    [undefined] is assigned all the same and is left out when the object is
    sent as JSON. *)
Definition movie_object (name description releaseYear : option json) : json :=
  JObj (omap (fun kv => match snd kv with
                        | Some v => Some (fst kv, v)
                        | None => None
                        end)
          [("name", name); ("description", description); ("releaseYear", releaseYear)]).

(** The handler of [POST /api/movies] (lines 661-677), after its log
    line. *)
Definition post_movie (body : json) : Thrown + Response :=
  match movie_fields body with
  | inl thrown => inl thrown
  | inr (name, description, releaseYear) =>
      if negb (truthy_opt name) || negb (truthy_opt description)
         || negb (truthy_opt releaseYear)
      then inr {| status := 400;
                  body := error_body "Missing required fields"
                            "Please provide name, description, and releaseYear" |}
      else inr {| status := 200;
                  body := Json (JObj [("success", JBool true);
                                      ("movie", movie_object name description releaseYear)]) |}
  end.

End Routes.

(** ** Vocabulary and sample hosts for the statements about the server *)

Module RoutesSpec.
Import JS Types Host Docs DocsSpec Server Routes.

Section Vocabulary.
Context {World : Type} `{Env World}.

(** What the template engine is asked to render for a model, from a
    template text and a date. *)
Definition rendering_of (template : string) (backend : GeneratedBackend) (date : string)
  : Raised + string :=
  ejs_render template
    {| td_backend := backend; td_title := title_of backend;
       td_description := be_description backend; td_version := be_version backend;
       td_date := date |}.

(** The HTML body of a rendering: the text, or the error page. *)
Definition page_of (r : Raised + string) : string :=
  match r with
  | inr html => html
  | inl error => error_page error
  end.

(** The log line of a failed rendering, if it failed. *)
Definition failure_line (r : Raised + string) : list LogCall :=
  match r with
  | inr _ => []
  | inl error => [LogError "Error rendering documentation:" error]
  end.

End Vocabulary.

(** A process that starts: no current model yet, the world as it is. *)
Definition restarted {World} (st : State World) : State World :=
  {| generatedBackend := None; world := world st; log := log st |}.

(** A disk that can be written, with the working directory only. *)
Definition fresh_disk : SimHost.Disk :=
  {| SimHost.files := ∅; SimHost.dirs := {["/app"]}; SimHost.read_only := false |}.

(** The text [SimHost.stringify] gives for the sample model. *)
Definition sample_text : string :=
  match SimHost.stringify SimHost.sample_backend with
  | inr text => text
  | inl _ => EmptyString
  end.

(** [JSON.parse] on that text and on [null]; every other text is taken as
    not decodable. *)
Definition sample_backend_codec : BackendCodec :=
  {| parse_backend := fun text =>
       if String.eqb text sample_text then inr (DBackend SimHost.sample_backend)
       else if String.eqb text "null" then inr DNull
       else inl (ErrorInstance "Unexpected token in JSON") |}.

End RoutesSpec.

(** ** The node registry: [src/nodes.ts] *)

Module Nodes.
Import JS Types Host.

(** [file.endsWith(suffix)]: some tail of the text is the suffix. *)
Fixpoint endsWith (suffix s : string) : bool :=
  String.eqb suffix s
  || match s with
     | EmptyString => false
     | String _ rest => endsWith suffix rest
     end.

(** [file.replace(/\.js$/, '')]: the text without a final [.js]. *)
Fixpoint strip_js (file : string) : string :=
  if String.eqb file ".js" then EmptyString
  else match file with
       | EmptyString => EmptyString
       | String c rest => String c (strip_js rest)
       end.

(** What [src/nodes.ts] asks of Node and of the packages it imports, besides
    the operations of [Env]: listing a directory, loading a compiled module
    and taking its default export ([None] when it is absent or falsy; the
    module's own code may change the world), and constructing a node.
    Loading a module and constructing a node run code of the module, which
    may throw any value. *)
Class Loader (World NodeClass Node : Type) : Type := {
  fs_readdirSync : string → World → Thrown + list string;
  require_default : string → World → World * (Raised + option NodeClass);
  construct : NodeClass → World → World * (Raised + Node);
  new_ApiCall : World → World * (Raised + Node);
  new_IfElse : World → World * (Raised + Node)
}.

(** The module state: the calls [nodeMap.addNode(name, node)] made so far,
    in order, the world and the log. *)
Record Registry (World Node : Type) : Type := {
  nodeMap : list (string * Node);
  reg_world : World;
  reg_log : list LogCall
}.
Arguments nodeMap {World Node} _.
Arguments reg_world {World Node} _.
Arguments reg_log {World Node} _.

Section Registry.
Context {World NodeClass Node : Type} `{Env World} `{Loader World NodeClass Node}.

Definition with_world (r : Registry World Node) (w : World) : Registry World Node :=
  {| nodeMap := nodeMap r; reg_world := w; reg_log := reg_log r |}.

Definition with_log (r : Registry World Node) (call : LogCall) : Registry World Node :=
  {| nodeMap := nodeMap r; reg_world := reg_world r; reg_log := reg_log r ++ [call] |}.

(** [nodeMap.addNode(name, node)] *)
Definition addNode (r : Registry World Node) (name : string) (node : Node)
  : Registry World Node :=
  {| nodeMap := nodeMap r ++ [(name, node)]; reg_world := reg_world r;
     reg_log := reg_log r |}.

(** [initializeBuiltInNodes] *)
Definition initializeBuiltInNodes (r : Registry World Node)
  : Registry World Node * (Raised + unit) :=
  match new_ApiCall (reg_world r) with
  | (w, inl thrown) => (with_world r w, inl thrown)
  | (w, inr apiCall) =>
      let r := addNode (with_world r w) "@nanoservice-ts/api-call" apiCall in
      match new_IfElse (reg_world r) with
      | (w, inl thrown) => (with_world r w, inl thrown)
      | (w, inr ifElse) =>
          let r := addNode (with_world r w) "@nanoservice-ts/if-else" ifElse in
          (with_log r (LogInfo "Initialized built-in nodes"), inr tt)
      end
  end.

(** One round of the loop of [initializeCustomNodes] (lines 41-55), on the
    registry and [loadedCount]. The [catch] calls [logger.error] with what
    was thrown; when that call throws, the round throws. *)
Definition load_file (nodesDir : string) (acc : Registry World Node * nat)
    (file : string) : Registry World Node * nat * (Raised + unit) :=
  let (r, loadedCount) := acc in
  let nodePath := path_join [nodesDir; file] in
  let failed (r : Registry World Node) (error : Raised) :=
    let call := LogError ("Error loading node from file " +:+ file +:+ ":") error in
    (with_log r call, loadedCount, logged call) in
  match require_default nodePath (reg_world r) with
  | (w, inl error) => failed (with_world r w) error
  | (w, inr None) => (with_world r w, loadedCount, inr tt)
  | (w, inr (Some NodeClass)) =>
      match construct NodeClass w with
      | (w, inl error) => failed (with_world r w) error
      | (w, inr node) =>
          (addNode (with_world r w) (strip_js file) node, S loadedCount, inr tt)
      end
  end.

(** The loop of [initializeCustomNodes] (lines 41-55): a round that throws
    ends it. *)
Fixpoint load_files (nodesDir : string) (acc : Registry World Node * nat)
    (nodeFiles : list string) : Registry World Node * nat * (Raised + unit) :=
  match nodeFiles with
  | [] => (acc, inr tt)
  | file :: rest =>
      match load_file nodesDir acc file with
      | (acc, inr _) => load_files nodesDir acc rest
      | (acc, inl thrown) => (acc, inl thrown)
      end
  end.

(** [initializeCustomNodes]. [logger.warn(message)] hands the text
    [[WARN] message] to the underlying logger, as [logger.log] would. *)
Definition initializeCustomNodes (r : Registry World Node)
  : Registry World Node * (Raised + unit) :=
  match process_cwd (reg_world r) with
  | inl thrown => (r, inl (Reportable thrown))
  | inr cwd =>
      let nodesDir := path_join [cwd; "dist"; "nodes"] in
      if negb (fs_existsSync nodesDir (reg_world r))
      then (with_log r (LogInfo "[WARN] Compiled nodes directory does not exist"), inr tt)
      else
        match fs_readdirSync nodesDir (reg_world r) with
        | inl thrown => (r, inl (Reportable thrown))
        | inr files =>
            let nodeFiles := List.filter (endsWith ".js") files in
            match load_files nodesDir (r, O) nodeFiles with
            | ((r, loadedCount), inr _) =>
                (with_log r (LogInfo ("Initialized " +:+ pretty loadedCount
                                      +:+ " custom nodes")),
                 inr tt)
            | ((r, _), inl thrown) => (r, inl thrown)
            end
        end
  end.

(** [initializeNodes]: the registrations it returns. *)
Definition initializeNodes (r : Registry World Node)
  : Registry World Node * (Raised + list (string * Node)) :=
  match initializeBuiltInNodes r with
  | (r, inl thrown) => (r, inl thrown)
  | (r, inr _) =>
      match initializeCustomNodes r with
      | (r, inl thrown) => (r, inl thrown)
      | (r, inr _) => (r, inr (nodeMap r))
      end
  end.

(** [getNodeMap] *)
Definition getNodeMap (r : Registry World Node) : list (string * Node) := nodeMap r.

End Registry.

End Nodes.

(** ** The logger: [src/utils/logger.ts] *)

Module Logger.
Import JS Types.

(** The second argument of [logger.error]: nothing, an [Error], or any other
    value (a thrown text, a decoded value). *)
Inductive ErrorArgument : Type :=
| NoArgument
| AnError (message : string)
| AValue (v : json).

(** [!error] *)
Definition absent (error : ErrorArgument) : bool :=
  match error with
  | NoArgument => true
  | AnError _ => false
  | AValue v => negb (truthy v)
  end.

Section Logger.
(** [JSON.stringify] on a decoded value. *)
Variable stringify : json → string.

(** [Logger.error]: the text handed to [DefaultLogger.log]. *)
Definition error_line (message : string) (error : ErrorArgument) : string :=
  if absent error then message
  else
    let errorMsg :=
      match error with
      | AnError text => text
      | AValue (JStr text) => text
      | AValue ((JObj _) as v) | AValue ((JArr _) as v) => stringify v
      | _ => "Unknown error"
      end in
    message +:+ " " +:+ errorMsg.

End Logger.

(** [Logger.warn]: the text handed to [DefaultLogger.log]. *)
Definition warn_line (message : string) : string := "[WARN] " +:+ message.

End Logger.

(** ** Vocabulary of the statements about the registry *)

Module NodesSpec.
Import JS Types Host Nodes.

(** A log line of a node file that could not be loaded. *)
Definition load_error_line (files : list string) (call : LogCall) : Prop :=
  ∃ file error, file ∈ files ∧
    call = LogError ("Error loading node from file " +:+ file +:+ ":") error.

(** The logger reports what the call carries, and returns. *)
Definition reported (call : LogCall) : Prop := logged call = inr tt.

(** The text holds no slash. *)
Definition no_slash (s : string) : Prop :=
  ¬ In "/"%char (list_ascii_of_string s).

(** The compiled files of a listing. *)
Definition compiled (files : list string) : list string :=
  List.filter (endsWith ".js") files.

Definition built_in_names : list string :=
  ["@nanoservice-ts/api-call"; "@nanoservice-ts/if-else"].

End NodesSpec.

(** ** A directory of compiled nodes to run the registry against *)

Module NodesSamples.
Import JS Types Host Nodes.

(** Modules by path: a class name, nothing exported, a module that throws
    an object referring to itself when loaded, or a module that throws an
    [Error]. *)
Definition sample_require (path : string) (disk : SimHost.Disk)
  : SimHost.Disk * (Raised + option string) :=
  if String.eqb path "/app/dist/nodes/fetch-movies.js" then (disk, inr (Some "FetchMovies"))
  else if String.eqb path "/app/dist/nodes/helpers.js" then (disk, inr None)
  else if String.eqb path "/app/dist/nodes/cyclic.js"
  then (disk, inl (Unreportable
                     (Reportable (ErrorInstance "Converting circular structure to JSON"))))
  else (disk, inl (Reportable (ErrorInstance "Unexpected token"))).

Definition sample_loader : Loader SimHost.Disk string string := {|
  fs_readdirSync := fun path disk =>
    if String.eqb path "/app/dist/nodes"
    then inr ["broken.js"; "fetch-movies.js"; "fetch-movies.js.map"; "helpers.js"]
    else inl (ErrorInstance "ENOENT: no such file or directory, scandir");
  require_default := sample_require;
  construct := fun class disk => (disk, inr ("a " +:+ class));
  new_ApiCall := fun disk => (disk, inr "an ApiCall");
  new_IfElse := fun disk => (disk, inr "an IfElse")
|}.

(** A directory in which every compiled file exports a class named after
    the file. *)
Definition sound_loader : Loader SimHost.Disk string string := {|
  fs_readdirSync := fun path disk =>
    if String.eqb path "/app/dist/nodes"
    then inr ["fetch-movies.js"; "notes.txt"; "add-movie.js"]
    else inl (ErrorInstance "ENOENT: no such file or directory, scandir");
  require_default := fun path disk => (disk, inr (Some path));
  construct := fun class disk => (disk, inr ("a " +:+ class));
  new_ApiCall := fun disk => (disk, inr "an ApiCall");
  new_IfElse := fun disk => (disk, inr "an IfElse")
|}.

(** A directory whose second compiled file throws, when loaded, an object
    referring to itself. *)
Definition cyclic_loader : Loader SimHost.Disk string string := {|
  fs_readdirSync := fun path disk =>
    if String.eqb path "/app/dist/nodes"
    then inr ["fetch-movies.js"; "cyclic.js"; "helpers.js"]
    else inl (ErrorInstance "ENOENT: no such file or directory, scandir");
  require_default := sample_require;
  construct := fun class disk => (disk, inr ("a " +:+ class));
  new_ApiCall := fun disk => (disk, inr "an ApiCall");
  new_IfElse := fun disk => (disk, inr "an IfElse")
|}.

Definition compiled_disk : SimHost.Disk :=
  {| SimHost.files := ∅; SimHost.dirs := {["/app/dist/nodes"]};
     SimHost.read_only := false |}.

Definition empty_registry (disk : SimHost.Disk) : Registry SimHost.Disk string :=
  {| nodeMap := []; reg_world := disk; reg_log := [] |}.

End NodesSamples.

(** * Properties of the Specification Projector *)

Module OpenApiFacts.
Import JS Types OpenApi OpenApiSpec.

(** *** The path key *)

Lemma startsWith_slash (s : string) :
  startsWith "/" s = true ↔ ∃ rest, s = String "/" rest.
Proof.
  destruct s as [|c s]; cbn [startsWith].
  - split; [discriminate | intros [? ?]; discriminate].
  - destruct (Ascii.eqb_spec "/"%char c) as [<-|Hne].
    + split; eauto.
    + split; [discriminate | intros [rest [= ? ?]]; congruence].
Qed.

Lemma startsWith_String (a : ascii) (p s : string) :
  startsWith (String a p) s = true ↔ ∃ rest, s = String a rest ∧ startsWith p rest = true.
Proof.
  destruct s as [|c s]; cbn [startsWith].
  - split; [discriminate | intros (? & ? & ?); discriminate].
  - destruct (Ascii.eqb_spec a c) as [<-|Hne].
    + split; [eauto | intros (rest & [= <-] & ?); done].
    + split; [discriminate | intros (rest & [= ? ?] & ?); congruence].
Qed.

Lemma startsWith_api (s : string) :
  startsWith "/api" s = true ↔ ∃ rest, s = "/api" +:+ rest.
Proof.
  split.
  - intros H.
    apply startsWith_String in H as (s1 & -> & H).
    apply startsWith_String in H as (s2 & -> & H).
    apply startsWith_String in H as (s3 & -> & H).
    apply startsWith_String in H as (s4 & -> & _).
    by exists s4.
  - intros [rest ->]. simpl. reflexivity.
Qed.

(** The two branches of the source are the two functions of the
    vocabulary. *)
Lemma strip_api_prefix_source (path : string) :
  (if startsWith "/api" path then substring_from 4 path else path)
  = strip_api_prefix path.
Proof.
  destruct (startsWith "/api" path) eqn:H.
  - apply startsWith_api in H as [rest ->]. reflexivity.
  - unfold strip_api_prefix.
    repeat (match goal with
            | |- context [match ?s with EmptyString => _ | String _ _ => _ end] =>
                destruct s as [|? ?]; try reflexivity
            | |- context [match ?c with Ascii _ _ _ _ _ _ _ _ => _ end] =>
                destruct c as [[] [] [] [] [] [] [] []]; try reflexivity
            end).
    all: simpl in H; discriminate.
Qed.

Lemma ensure_leading_slash_source (path : string) :
  (if startsWith "/" path then path else "/" +:+ path) = ensure_leading_slash path.
Proof.
  destruct (startsWith "/" path) eqn:H.
  - apply startsWith_slash in H as [rest ->]. reflexivity.
  - destruct path as [|c rest]; [reflexivity|].
    unfold ensure_leading_slash.
    destruct (Ascii.eqb_spec "/"%char c) as [<-|Hne].
    + cbn [startsWith] in H. rewrite Ascii.eqb_refl in H. discriminate.
    + destruct c as [[] [] [] [] [] [] [] []]; try reflexivity. congruence.
Qed.

Lemma normalizePath_prefix_key (path : string) :
  normalizePath path = prefix_key path.
Proof.
  unfold normalizePath, prefix_key.
  rewrite strip_api_prefix_source. apply ensure_leading_slash_source.
Qed.

Lemma normalizePath_slash (path : string) :
  ∃ rest, normalizePath path = String "/" rest.
Proof.
  rewrite normalizePath_prefix_key. unfold prefix_key, ensure_leading_slash.
  destruct (strip_api_prefix path) as [|c rest]; [eauto|].
  destruct (Ascii.eqb_spec "/"%char c) as [<-|Hne]; [eauto|].
  destruct c as [[] [] [] [] [] [] [] []]; eauto.
Qed.

(** *** Lists *)

Lemma filter_none {A} (P : A → Prop) `{!∀ x, Decision (P x)} (l : list A) :
  Forall (fun x => ¬ P x) l → filter P l = [].
Proof.
  induction 1 as [|x l Hx _ IH]; [reflexivity|]. by rewrite filter_cons_False.
Qed.

(** *** The paths map *)

Lemma paths_foldl (spec : OpenAPISpec) (l : list GeneratedEndpoint) :
  paths (foldl addEndpointToSpec spec l) = foldl addEndpointToPaths (paths spec) l.
Proof.
  revert spec. induction l as [|e l IH]; intros spec; [reflexivity|].
  simpl. by rewrite IH.
Qed.

Lemma generate_present (b : GeneratedBackend) (eps : list GeneratedEndpoint) :
  be_endpoints b = Some eps →
  generate_try b = inr (generateOpenAPISpec b) ∧
  paths (generateOpenAPISpec b) = foldl addEndpointToPaths ∅ eps.
Proof.
  intros H. unfold generateOpenAPISpec, generate_try. rewrite H. simpl.
  split; [reflexivity|]. by rewrite paths_foldl.
Qed.

Lemma key_add (ps : gmap string (gmap string Operation)) (e : GeneratedEndpoint)
    (k : string) :
  is_Some (addEndpointToPaths ps e !! k)
  ↔ k = normalizePath (ep_path e) ∨ is_Some (ps !! k).
Proof.
  unfold addEndpointToPaths.
  destruct (decide (normalizePath (ep_path e) = k)) as [<-|Hne].
  - rewrite lookup_insert_eq. split; eauto.
  - rewrite lookup_insert_ne by done. split; [eauto|]. intros [->|?]; done.
Qed.

Lemma keys_foldl (ps : gmap string (gmap string Operation))
    (l : list GeneratedEndpoint) (k : string) :
  is_Some (foldl addEndpointToPaths ps l !! k)
  ↔ (∃ e, e ∈ l ∧ k = normalizePath (ep_path e)) ∨ is_Some (ps !! k).
Proof.
  revert ps. induction l as [|e l IH]; intros ps; simpl.
  - split; [eauto|]. intros [(e & He & _)|?]; [|done]. by apply elem_of_nil in He.
  - rewrite IH, key_add. split.
    + intros [(e' & He' & ->)|[->|?]]; eauto.
      * left. exists e'. split; [by right|done].
      * left. exists e. split; [by left|done].
    + intros [(e' & He' & ->)|?]; [|eauto].
      apply elem_of_cons in He' as [->|He']; eauto.
Qed.

Lemma assign_lookup {V} (obj : gmap string V) (key : string) (value : V) (m : string) :
  m ≠ "__proto__" →
  assign obj key value !! m = if decide (key = m) then Some value else obj !! m.
Proof.
  intros Hm. unfold assign.
  destruct (String.eqb_spec key "__proto__") as [->|Hk].
  - by rewrite decide_False.
  - destruct (decide (key = m)) as [->|Hne].
    + by rewrite lookup_insert_eq.
    + by rewrite lookup_insert_ne.
Qed.

Lemma op_at_add (ps : gmap string (gmap string Operation)) (e : GeneratedEndpoint)
    (p m : string) :
  m ≠ "__proto__" →
  op_at (addEndpointToPaths ps e) p m
  = if decide (lands_at p m e) then Some (operation_of e) else op_at ps p m.
Proof.
  intros Hm. unfold op_at, addEndpointToPaths, lands_at.
  destruct (decide (normalizePath (ep_path e) = p)) as [<-|Hp].
  - rewrite lookup_insert_eq. simpl. rewrite assign_lookup by done.
    destruct (decide (toLowerCase (ep_method e) = m)) as [Hm'|Hm'].
    + by rewrite decide_True.
    + rewrite decide_False by (intros [_ ?]; done).
      by destruct (ps !! normalizePath (ep_path e)).
  - rewrite lookup_insert_ne by done.
    by rewrite decide_False by (intros [? _]; done).
Qed.

Lemma op_at_foldl (ps : gmap string (gmap string Operation))
    (l : list GeneratedEndpoint) (p m : string) :
  m ≠ "__proto__" →
  op_at (foldl addEndpointToPaths ps l) p m
  = match last_at p m l with
    | Some e => Some (operation_of e)
    | None => op_at ps p m
    end.
Proof.
  intros Hm. induction l as [|e l IH] using rev_ind; [reflexivity|].
  rewrite foldl_snoc, op_at_add by done. unfold last_at in *.
  rewrite filter_app, filter_cons, filter_nil.
  destruct (decide (lands_at p m e)).
  - by rewrite last_snoc.
  - by rewrite app_nil_r.
Qed.

Lemma generate_absent (b : GeneratedBackend) :
  be_endpoints b = None →
  (∃ t, generate_try b = inl t) ∧ generateOpenAPISpec b = minimal_spec b.
Proof.
  intros H. unfold generateOpenAPISpec, generate_try. rewrite H. simpl. eauto.
Qed.

Lemma or_default_nonempty (a : option string) (d : string) :
  d ≠ EmptyString → or_default a d ≠ EmptyString.
Proof.
  intros Hd. unfold or_default. destruct a as [s|]; [|done].
  by destruct (String.eqb_spec s EmptyString).
Qed.

(** *** Parameters and request body *)

Lemma convertParameter_in (p : EndpointParameter) :
  oa_in (convertParameter p) = param_in p.
Proof. unfold convertParameter. by destruct (param_in p). Qed.

Lemma filter_converted (ps : list EndpointParameter) :
  filter (fun q => oa_in q ≠ InBody) (map convertParameter ps)
  = convertParameter <$> filter (fun p => param_in p ≠ InBody) ps.
Proof.
  induction ps as [|p ps IH]; [reflexivity|].
  cbn [map]. rewrite !filter_cons, convertParameter_in, IH.
  by destruct (decide (param_in p ≠ InBody)).
Qed.

Lemma filter_body_first (before after : list EndpointParameter)
    (first : EndpointParameter) :
  Forall (fun p => param_in p ≠ InBody) before →
  param_in first = InBody →
  filter (fun p => param_in p = InBody) (before ++ first :: after)
  = first :: filter (fun p => param_in p = InBody) after.
Proof.
  intros Hbefore Hfirst. rewrite filter_app, filter_cons_True by done.
  rewrite (filter_none (fun p => param_in p = InBody) before); [reflexivity|].
  by eapply Forall_impl.
Qed.

(** *** Responses *)

Lemma responses_foldl (acc : gmap string OAResponse) (rs : list EndpointResponse)
    (k : string) :
  foldl (fun acc response =>
           <[Number_toString (resp_status response) := convertResponse response]> acc)
        acc rs !! k
  = match last_response k rs with
    | Some r => Some (convertResponse r)
    | None => acc !! k
    end.
Proof.
  induction rs as [|r rs IH] using rev_ind; [reflexivity|].
  rewrite foldl_snoc. unfold last_response in *.
  rewrite filter_app, filter_cons, filter_nil.
  destruct (decide (Number_toString (resp_status r) = k)) as [<-|Hne].
  - by rewrite last_snoc, lookup_insert_eq.
  - by rewrite app_nil_r, lookup_insert_ne.
Qed.

Lemma Number_toString_inj (n m : Z) :
  Number_toString n = Number_toString m → n = m.
Proof. apply pretty_Z_inj. Qed.

Lemma last_response_elem (k : string) (rs : list EndpointResponse)
    (r : EndpointResponse) :
  last_response k rs = Some r → r ∈ rs ∧ Number_toString (resp_status r) = k.
Proof.
  intros H. apply last_Some_elem_of, list_elem_of_filter in H. tauto.
Qed.

Lemma same_status_same_response (rs : list EndpointResponse)
    (r r' : EndpointResponse) :
  NoDup (resp_status <$> rs) → r ∈ rs → r' ∈ rs →
  resp_status r = resp_status r' → r = r'.
Proof.
  induction rs as [|x rs IH]; intros Hnd Hr Hr' Heq.
  - by apply elem_of_nil in Hr.
  - rewrite fmap_cons in Hnd. apply NoDup_cons in Hnd as [Hx Hnd].
    apply elem_of_cons in Hr as [->|Hr]; apply elem_of_cons in Hr' as [->|Hr'].
    + reflexivity.
    + exfalso. apply Hx. rewrite Heq. by apply list_elem_of_fmap_2.
    + exfalso. apply Hx. rewrite <- Heq. by apply list_elem_of_fmap_2.
    + by apply IH.
Qed.

(** *** The case of letters *)







(** *** The claims about the projector *)

(** C1, as stated, fails: the endpoint path [/apiary] does not have [/api]
    as a leading segment, so the stated key is [/apiary]; the projector
    removes the four characters all the same and files the endpoint under
    [/ary], and no key [/apiary] exists. *)
Lemma C1_segment_counterexample :
  let b := backend (Some [endpoint "/apiary" "GET" "List the hives"]) in
  segment_key "/apiary" = "/apiary" ∧
  paths (generateOpenAPISpec b) !! segment_key "/apiary" = None ∧
  is_Some (paths (generateOpenAPISpec b) !! "/ary").
Proof.
  cbv zeta. split; [reflexivity|]. split; [by vm_compute|].
  vm_compute. eauto.
Qed.

(** C1 (amended): the keys of the projected [paths] are exactly the
    endpoint paths with the prefix [/api] (their first four characters,
    whatever follows them) removed when present and a leading slash then
    ensured; this is the key of the claim whenever [/api] is a whole
    segment of the path, and in particular [/api/tasks] and [tasks] both
    give the key [/tasks]. *)
Theorem C1_paths_key (b : GeneratedBackend) (eps : list GeneratedEndpoint) :
  be_endpoints b = Some eps →
  (∀ k, is_Some (paths (generateOpenAPISpec b) !! k)
        ↔ ∃ e, e ∈ eps ∧ k = prefix_key (ep_path e)) ∧
  (∀ e, e ∈ eps → api_is_whole_segment (ep_path e) →
        is_Some (paths (generateOpenAPISpec b) !! segment_key (ep_path e))) ∧
  prefix_key "/api/tasks" = "/tasks" ∧
  prefix_key "tasks" = "/tasks".
Proof.
  intros Heps. destruct (generate_present b eps Heps) as [_ ->].
  assert (Hkeys : ∀ k, is_Some (foldl addEndpointToPaths ∅ eps !! k)
                       ↔ ∃ e, e ∈ eps ∧ k = prefix_key (ep_path e)).
  { intros k. rewrite keys_foldl. split.
    - intros [(e & He & ->)|[? Habs]].
      + exists e. by rewrite normalizePath_prefix_key.
      + by rewrite lookup_empty in Habs.
    - intros (e & He & ->). left. exists e. by rewrite normalizePath_prefix_key. }
  split; [exact Hkeys|]. split; [|split; reflexivity].
  intros e He Hwhole. apply Hkeys. exists e. split; [done|].
  unfold segment_key, prefix_key. by rewrite Hwhole.
Qed.

Lemma C1_paths_key_witness :
  is_Some (paths (generateOpenAPISpec
                    (backend (Some [endpoint "/api/tasks" "GET" "List tasks";
                                    endpoint "tasks" "POST" "Add a task"])))
           !! "/tasks").
Proof.
  apply (proj1 (C1_paths_key
                  (backend (Some [endpoint "/api/tasks" "GET" "List tasks";
                                  endpoint "tasks" "POST" "Add a task"]))
                  [endpoint "/api/tasks" "GET" "List tasks";
                   endpoint "tasks" "POST" "Add a task"] eq_refl)).
  exists (endpoint "tasks" "POST" "Add a task"). split; [|reflexivity].
  right. by left.
Defined.

(** C2: when an endpoint has parameters located at [body], the projected
    operation has one request body, whose description and required flag
    are those of the first such parameter in list order, and its
    [parameters] array is the conversion of the other parameters: none of
    its members is located at [body]. *)
Theorem C2_body_first_wins (e : GeneratedEndpoint)
    (before after : list EndpointParameter) (first : EndpointParameter) :
  ep_parameters e = Some (before ++ first :: after) →
  Forall (fun p => param_in p ≠ InBody) before →
  param_in first = InBody →
  op_requestBody (operation_of e)
  = Some {| rb_description := param_description first;
            rb_required := param_required first;
            rb_content := requestBody_content |} ∧
  op_parameters (operation_of e)
  = Some (convertParameter <$>
            filter (fun p => param_in p ≠ InBody) (before ++ first :: after)) ∧
  (∀ kept, op_parameters (operation_of e) = Some kept →
           Forall (fun q => oa_in q ≠ InBody) kept).
Proof.
  intros Hps Hbefore Hfirst.
  assert (Hop : operation_parameters e
                = (Some (convertParameter <$>
                           filter (fun p => param_in p ≠ InBody) (before ++ first :: after)),
                   Some {| rb_description := param_description first;
                           rb_required := param_required first;
                           rb_content := requestBody_content |})).
  { unfold operation_parameters. rewrite Hps.
    destruct (before ++ first :: after) as [|p ps] eqn:Hl.
    { by destruct before. }
    rewrite <- Hl, filter_body_first by done.
    by rewrite filter_converted. }
  unfold operation_of. cbn [op_requestBody op_parameters]. rewrite Hop.
  cbn [fst snd]. split; [reflexivity|]. split; [reflexivity|].
  intros kept [= <-]. apply Forall_fmap, Forall_forall.
  intros p Hp. apply list_elem_of_filter in Hp as [Hp _].
  cbn. by rewrite convertParameter_in.
Qed.

Lemma C2_body_first_wins_witness :
  let e := {| ep_path := "/api/tasks"; ep_method := "POST";
              ep_description := "Add a task";
              ep_parameters :=
                Some [parameter "id" InPath true "Task id";
                      parameter "task" InBody true "The task";
                      parameter "note" InBody false "A note"];
              ep_responses := None |} in
  op_requestBody (operation_of e)
  = Some {| rb_description := "The task"; rb_required := true;
            rb_content := requestBody_content |}.
Proof.
  intros e.
  refine (proj1 (C2_body_first_wins e [parameter "id" InPath true "Task id"]
                   [parameter "note" InBody false "A note"]
                   (parameter "task" InBody true "The task") eq_refl _ eq_refl)).
  repeat constructor. discriminate.
Defined.



(** C4: [generateOpenAPISpec] returns a specification for every backend
    model. Either its [try] block completes and its result is returned, or
    the block throws and the result is the minimal specification, which is
    valid and has an empty [paths] map; the latter happens (when the model
    carries no [endpoints] sequence at all). A model with zero endpoints is
    projected without failure to a specification with an empty [paths]
    map. *)
Theorem C4_projector_total (b : GeneratedBackend) :
  (generate_try b = inr (generateOpenAPISpec b)
   ∨ ((∃ t, generate_try b = inl t) ∧ generateOpenAPISpec b = minimal_spec b)) ∧
  minimal_valid (minimal_spec b) ∧
  (be_endpoints b = None → generateOpenAPISpec b = minimal_spec b) ∧
  (be_endpoints b = Some [] →
     generate_try b = inr (generateOpenAPISpec b) ∧
     paths (generateOpenAPISpec b) = ∅).
Proof.
  split; [|split; [|split]].
  - destruct (be_endpoints b) as [eps|] eqn:Heps.
    + left. by apply (generate_present b eps).
    + right. by apply generate_absent.
  - unfold minimal_valid, minimal_spec. cbn.
    split; [reflexivity|]. split; [|split; [|done]].
    + eexists. split; [reflexivity|]. by apply or_default_nonempty.
    + eexists. split; [reflexivity|]. by apply or_default_nonempty.
  - intros H. by apply generate_absent.
  - intros H. by apply (generate_present b []).
Qed.

Lemma C4_projector_total_witness :
  generateOpenAPISpec (backend None) = minimal_spec (backend None) ∧
  paths (generateOpenAPISpec (backend (Some []))) = ∅.
Proof.
  split.
  - exact (proj1 (proj2 (proj2 (C4_projector_total (backend None)))) eq_refl).
  - exact (proj2 (proj2 (proj2 (proj2 (C4_projector_total (backend (Some []))))) eq_refl)).
Defined.

(** C8, as stated, fails: of two supplied responses with the same status
    code the first does not appear in the responses map. *)
Lemma C8_duplicate_status_counterexample :
  let first := response 200 "Created on the spot" in
  let rs := [first; response 200 "Queued"] in
  let e := {| ep_path := "/api/tasks"; ep_method := "POST";
              ep_description := "Add a task"; ep_parameters := None;
              ep_responses := Some rs |} in
  first ∈ rs ∧
  operation_responses e !! Number_toString (resp_status first)
  ≠ Some (convertResponse first).
Proof.
  cbv zeta. split; [by left|]. vm_compute. discriminate.
Qed.

(** C8 (amended): an endpoint without responses (absent or empty list)
    gets exactly one entry, keyed [200], described "Successful operation".
    When responses are supplied, the entry under a key is the conversion of
    the last supplied response whose status code prints as that key: the
    keys are the supplied status codes, every supplied response appears
    under its status code when no status code is supplied twice, and no
    default entry is added. *)
Theorem C8_responses (e : GeneratedEndpoint) :
  ((ep_responses e = None ∨ ep_responses e = Some []) →
     operation_responses e = {["200" := default_response]}) ∧
  (∀ rs, ep_responses e = Some rs → rs ≠ [] →
     (∀ k, operation_responses e !! k = convertResponse <$> last_response k rs) ∧
     (NoDup (resp_status <$> rs) → ∀ r, r ∈ rs →
        operation_responses e !! Number_toString (resp_status r)
        = Some (convertResponse r)) ∧
     ((∀ r, r ∈ rs → resp_status r ≠ 200%Z) →
        operation_responses e !! "200" = None)).
Proof.
  split.
  - unfold operation_responses. by intros [->| ->].
  - intros rs Hrs Hne.
    assert (Hlookup : ∀ k, operation_responses e !! k
                           = convertResponse <$> last_response k rs).
    { intros k. unfold operation_responses. rewrite Hrs.
      destruct rs as [|r0 rs']; [done|].
      rewrite responses_foldl, lookup_empty.
      by destruct (last_response k (r0 :: rs')). }
    split; [exact Hlookup|]. split.
    + intros Hnd r Hr. rewrite Hlookup.
      destruct (last_response (Number_toString (resp_status r)) rs) as [r'|] eqn:Hlast.
      * apply last_response_elem in Hlast as [Hr' Heq].
        apply Number_toString_inj in Heq.
        by rewrite (same_status_same_response rs r' r Hnd Hr' Hr Heq).
      * exfalso. unfold last_response in Hlast. apply last_None in Hlast.
        by apply (filter_nil_not_elem_of _ _ r Hlast eq_refl).
    + intros Hno. rewrite Hlookup.
      destruct (last_response "200" rs) as [r'|] eqn:Hlast; [|reflexivity].
      apply last_response_elem in Hlast as [Hr' Heq].
      exfalso. apply (Hno r' Hr'). by apply Number_toString_inj.
Qed.

Lemma C8_responses_witness :
  let rs := [response 201 "Created"; response 400 "Rejected"] in
  let e := {| ep_path := "/api/tasks"; ep_method := "POST";
              ep_description := "Add a task"; ep_parameters := None;
              ep_responses := Some rs |} in
  operation_responses e !! "200" = None ∧
  operation_responses (endpoint "/api/tasks" "GET" "List tasks")
  = {["200" := default_response]}.
Proof.
  intros rs e. split.
  - refine (proj2 (proj2 (proj2 (C8_responses e) rs eq_refl _)) _).
    + discriminate.
    + intros r Hr.
      apply elem_of_cons in Hr as [->|Hr]; [discriminate|].
      apply elem_of_cons in Hr as [->|Hr]; [discriminate|].
      by apply elem_of_nil in Hr.
  - exact (proj1 (C8_responses (endpoint "/api/tasks" "GET" "List tasks"))
             (or_introl eq_refl)).
Defined.

End OpenApiFacts.

(** * Properties of the Translator *)

Module TranslatorFacts.
Import JS Types Translator TranslatorSpec.

Lemma length_zero (s : string) : (String.length s =? 0)%nat = true ↔ s = EmptyString.
Proof. destruct s; cbn; split; (done || discriminate). Qed.

(** The guard of line 14 is the emptiness of the trimmed prompt. *)
Lemma empty_guard (prompt : string) :
  String.eqb prompt EmptyString || (String.length (trim prompt) =? 0)%nat = true
  ↔ trim prompt = EmptyString.
Proof.
  rewrite orb_true_iff, length_zero. split; [|by right].
  intros [Hempty|Htrim]; [|done].
  apply String.eqb_eq in Hempty. by subst.
Qed.


(** With a prompt and a key in place, a run against a service that answers
    with a text is the decoding of that text. *)
Lemma run_replying `{JSONCodec} (prompt : string) (config : GeneratorConfig)
    (reply : string) :
  trim prompt ≠ EmptyString →
  falsy_string (openaiApiKey config) = false →
  reply ≠ EmptyString →
  run (replying (Some reply)) (parsePrompt prompt config) = decode reply.
Proof.
  intros Hprompt Hkey Hreply. unfold parsePrompt.
  destruct (String.eqb prompt EmptyString || (String.length (trim prompt) =? 0)%nat)
    eqn:Hguard.
  { by apply empty_guard in Hguard. }
  rewrite Hkey. cbn.
  by destruct (String.eqb_spec reply EmptyString).
Qed.

(** With a prompt and a key in place, a run against a service that cannot
    be reached, or that answers without content, ends in the failure of the
    outer [catch], or in the missing-content failure. *)
Lemma run_upstream `{JSONCodec} (prompt : string) (config : GeneratorConfig) :
  trim prompt ≠ EmptyString →
  falsy_string (openaiApiKey config) = false →
  (∀ thrown, run (unreachable thrown) (parsePrompt prompt config) = caught thrown) ∧
  run (replying None) (parsePrompt prompt config)
  = failure "No content in OpenAI response".
Proof.
  intros Hprompt Hkey. unfold parsePrompt.
  destruct (String.eqb prompt EmptyString || (String.length (trim prompt) =? 0)%nat)
    eqn:Hguard.
  { by apply empty_guard in Hguard. }
  rewrite Hkey. by cbn.
Qed.

Lemma invalid_format_lacking (v : json) :
  v ≠ JNull → lacks_required v → invalid_format v = inr true.
Proof.
  intros Hnull Hlacks. unfold invalid_format, lacks_required, member in *.
  destruct v as [| b | n | s | items | members]; try done.
  cbn [get]. destruct (truthy_opt (get_member "name" members)) eqn:Hname; [|done].
  cbn [negb]. destruct Hlacks as [Hl|Hl]; [discriminate|].
  destruct (truthy_opt (get_member "workflows" members)); [|done].
  cbn [negb]. by rewrite Hl.
Qed.

(** C5: a reply that is not decodable is answered with the parse failure,
    and a decoded reply other than [null] that lacks [name] or an array
    [workflows] with the format failure; the two results differ from each
    other and from the answer to an empty completion, and an unreachable
    service is answered with the message of its own error. The reply [null]
    is decodable and lacks both members, and is answered with the parse
    failure all the same: reading [name] of [null] throws inside the block
    whose [catch] reports a parse error. *)
Theorem C5_null_reply_reported_unparsable `{JSONCodec} (prompt : string)
    (config : GeneratorConfig) (reply : string) :
  trim prompt ≠ EmptyString →
  falsy_string (openaiApiKey config) = false →
  reply ≠ EmptyString →
  let result := run (replying (Some reply)) (parsePrompt prompt config) in
  (JSON_parse reply = None → result = parse_failure) ∧
  (∀ v, JSON_parse reply = Some v → v ≠ JNull → lacks_required v →
        result = format_failure) ∧
  (JSON_parse reply = Some JNull → lacks_required JNull ∧ result = parse_failure) ∧
  parse_failure ≠ format_failure ∧
  (∀ thrown, run (unreachable thrown) (parsePrompt prompt config)
             = failure (message_of thrown)) ∧
  run (replying None) (parsePrompt prompt config)
  = failure "No content in OpenAI response" ∧
  failure "No content in OpenAI response" ≠ parse_failure ∧
  failure "No content in OpenAI response" ≠ format_failure.
Proof.
  intros Hprompt Hkey Hreply result. subst result.
  rewrite run_replying by done. unfold decode.
  destruct (run_upstream prompt config Hprompt Hkey) as [Hthrown Hnone].
  split; [|split; [|split; [|split; [|split; [|split; [|split]]]]]].
  - by intros ->.
  - intros v -> Hnull Hlacks. by rewrite invalid_format_lacking.
  - intros ->. split; [by left|reflexivity].
  - discriminate.
  - intros thrown. rewrite Hthrown. by destruct thrown.
  - exact Hnone.
  - discriminate.
  - discriminate.
Qed.

Lemma C5_null_reply_witness :
  @run Settled (replying (Some "null"))
    (@parsePrompt sample_codec "An API to list tasks" (config_with (Some "sk-test")))
  = parse_failure.
Proof.
  refine (proj2 (proj1 (proj2 (proj2
    (@C5_null_reply_reported_unparsable sample_codec "An API to list tasks"
       (config_with (Some "sk-test")) "null" _ eq_refl _))) eq_refl)).
  - by vm_compute.
  - discriminate.
Defined.

(** C6: when the prompt is empty after trimming, or the configuration has
    no credential (absent or empty), [parsePrompt] is a failure result and
    nothing else: its promise is fulfilled with that result, no client is
    constructed and no request is issued, whatever the service would have
    done. *)
Theorem C6_input_errors_before_network `{JSONCodec} (prompt : string)
    (config : GeneratorConfig) (service : Service) :
  trim prompt = EmptyString ∨ falsy_string (openaiApiKey config) = true →
  let p := parsePrompt prompt config in
  p = Return (run service p) ∧
  (∃ result, run service p = Fulfilled result ∧
     success result = false ∧
     (trim prompt = EmptyString → error result = Some "Empty prompt provided") ∧
     (trim prompt ≠ EmptyString → error result = Some "OpenAI API key is required")) ∧
  clients service p = [] ∧
  requests service p = [].
Proof.
  intros Hinput p. subst p. unfold parsePrompt.
  destruct (String.eqb prompt EmptyString || (String.length (trim prompt) =? 0)%nat)
    eqn:Hguard.
  - apply empty_guard in Hguard. cbn. split; [done|]. split; [|done].
    eexists. split; [reflexivity|]. by repeat split.
  - assert (Hprompt : trim prompt ≠ EmptyString).
    { intros Htrim. apply empty_guard in Htrim. congruence. }
    destruct Hinput as [?|Hkey]; [done|]. rewrite Hkey. cbn.
    split; [done|]. split; [|done].
    eexists. split; [reflexivity|]. by repeat split.
Qed.

Lemma C6_input_errors_witness :
  (let p := @parsePrompt sample_codec (" " +:+ String "009"%char EmptyString)
              (config_with (Some "sk-test")) in
   p = Return (Fulfilled (failure "Empty prompt provided"))) ∧
  (let p := @parsePrompt sample_codec "An API to list tasks" (config_with None) in
   p = Return (Fulfilled (failure "OpenAI API key is required"))).
Proof.
  split.
  - exact (proj1 (@C6_input_errors_before_network sample_codec
             (" " +:+ String "009"%char EmptyString) (config_with (Some "sk-test"))
             (replying None) (or_introl eq_refl))).
  - exact (proj1 (@C6_input_errors_before_network sample_codec
             "An API to list tasks" (config_with None)
             (replying None) (or_intror eq_refl))).
Defined.



End TranslatorFacts.

(** * Properties of the Documentation Renderer and of the current model *)

Module HostFacts.
Import JS Types Host Docs DocsSpec Server.

Lemma try_catch_result {World A} (body : M World A) (handler : Raised → M World A)
    (st : State World) :
  try_catch body handler st
  = match snd (body st) with
    | inr a => (fst (body st), inr a)
    | inl thrown => handler thrown (fst (body st))
    end.
Proof. unfold try_catch. by destruct (body st) as [st' [thrown|a]]. Qed.

(** The error page is an HTML page around the message. *)
Lemma error_page_html (error : Raised) :
  html_page_reporting (raised_message error) (error_page error).
Proof.
  exists (substring 0 7 error_page_head),
         (substring 22 (String.length error_page_head - 25) error_page_head),
         (substring 4 (String.length error_page_tail - 16) error_page_tail),
         (substring (String.length error_page_tail - 5) 5 error_page_tail).
  repeat split; try by vm_compute.
Qed.

Section Renderer.
Context {World : Type} `{Env World}.

Lemma render_outcome (backend : GeneratedBackend) (st : State World) :
  snd (renderDocumentation backend st) = outcome_of (snd (render_try backend st)).
Proof.
  unfold renderDocumentation. rewrite try_catch_result.
  by destruct (snd (render_try backend st)) as [[thrown|rethrown]|html].
Qed.

(** What the [try] block throws and the logger cannot report was thrown by
    the template engine. *)
Lemma render_try_unreportable (backend : GeneratedBackend) (st : State World)
    (rethrown : Raised) :
  snd (render_try backend st) = inl (Unreportable rethrown) →
  ∃ template data, ejs_render template data = inl (Unreportable rethrown).
Proof.
  unfold render_try, mbind, M_bind, ask, io, call, logger, logged, lift, mret, M_ret.
  cbn.
  destruct (process_cwd (world st)) as [?|cwd]; [done|]. cbn.
  destruct (fs_existsSync _ (world st)); cbn.
  - destruct (fs_readFileSync _ (world st)) as [?|template]; [done|]. cbn. eauto.
  - destruct (fs_existsSync _ (world st)); cbn.
    + destruct (fs_writeFileSync _ _ (world st)) as [w [?|[]]]; [done|]. cbn.
      destruct (fs_readFileSync _ w) as [?|template]; [done|]. cbn. eauto.
    + destruct (fs_mkdirSync _ (world st)) as [w [?|[]]]; [done|]. cbn.
      destruct (fs_writeFileSync _ _ w) as [w' [?|[]]]; [done|]. cbn.
      destruct (fs_readFileSync _ w') as [?|template]; [done|]. cbn. eauto.
Qed.

(** C7, as far as it holds, and where it fails. [renderDocumentation]
    answers the rendering when its [try] block completes. When the block
    throws an [Error], or another value that the logger reports, the
    answer is the error page: an HTML page, from its doctype to the end of
    its [html] element, whose body holds the message of the error in a
    paragraph ("Unknown error" for a value that is not an [Error]); in
    particular a failed read of an existing template ends in the error
    page of that failure. But the [catch] block calls [logger.error]
    before it builds the page: when the block throws a value that the
    logger cannot report, which only the code of the template can do, the
    logger throws and [renderDocumentation] throws what the logger threw,
    so that it does not return a string. It returns a string exactly when
    the block throws no such value. *)
Theorem C7_render_throws_what_logger_throws (backend : GeneratedBackend)
    (st : State World) :
  snd (renderDocumentation backend st) = outcome_of (snd (render_try backend st)) ∧
  (∀ html, snd (render_try backend st) = inr html →
     snd (renderDocumentation backend st) = inr html) ∧
  (∀ thrown, snd (render_try backend st) = inl (Reportable thrown) →
     snd (renderDocumentation backend st) = inr (error_page thrown) ∧
     html_page_reporting (message_of thrown) (error_page thrown)) ∧
  (∀ rethrown, snd (render_try backend st) = inl (Unreportable rethrown) →
     snd (renderDocumentation backend st) = inl rethrown ∧
     ∃ template data, ejs_render template data = inl (Unreportable rethrown)) ∧
  ((∃ html, snd (renderDocumentation backend st) = inr html)
   ↔ ∀ rethrown, snd (render_try backend st) ≠ inl (Unreportable rethrown)) ∧
  (∀ cwd error,
     process_cwd (world st) = inr cwd →
     let templatePath := path_join [cwd; "src"; "templates"; "documentation.ejs"] in
     fs_existsSync templatePath (world st) = true →
     fs_readFileSync templatePath (world st) = inl error →
     snd (renderDocumentation backend st) = inr (error_page error)) ∧
  (∀ cwd template rethrown,
     process_cwd (world st) = inr cwd →
     let templatePath := path_join [cwd; "src"; "templates"; "documentation.ejs"] in
     fs_existsSync templatePath (world st) = true →
     fs_readFileSync templatePath (world st) = inr template →
     ejs_render template
       {| td_backend := backend; td_title := title_of backend;
          td_description := be_description backend; td_version := be_version backend;
          td_date := today (world st) |} = inl (Unreportable rethrown) →
     snd (renderDocumentation backend st) = inl rethrown).
Proof.
  split; [apply render_outcome|]. rewrite render_outcome.
  split; [by intros html ->|].
  split; [intros thrown ->; split; [reflexivity|apply (error_page_html thrown)]|].
  split.
  { intros rethrown Hblock. split; [by rewrite Hblock|].
    by apply (render_try_unreportable backend st). }
  split.
  { split.
    - intros [html Hhtml] rethrown Hblock. by rewrite Hblock in Hhtml.
    - intros Hnone.
      destruct (snd (render_try backend st)) as [[thrown|rethrown]|html]; cbn; eauto.
      by destruct (Hnone rethrown). }
  split.
  - intros cwd error Hcwd templatePath Hpresent Hread.
    unfold render_try, mbind, M_bind, ask, call, logger, logged, lift, mret, M_ret.
    cbn. rewrite Hcwd. cbn. fold templatePath. rewrite Hpresent. cbn.
    by rewrite Hread.
  - intros cwd template rethrown Hcwd templatePath Hpresent Hread Hrender.
    unfold render_try, mbind, M_bind, ask, call, logger, logged, lift, mret, M_ret.
    cbn. rewrite Hcwd. cbn. fold templatePath. rewrite Hpresent. cbn.
    rewrite Hread. cbn. by rewrite Hrender.
Qed.

End Renderer.

Lemma C7_render_throws_witness :
  snd (renderDocumentation SimHost.sample_backend
         (SimHost.initial SimHost.throwing_template_disk))
  = inl (Reportable (ErrorInstance "Converting circular structure to JSON")) ∧
  snd (renderDocumentation SimHost.sample_backend
         (SimHost.initial SimHost.template_is_directory))
  = inr (error_page (ErrorInstance "EISDIR: illegal operation on a directory, read")).
Proof.
  split.
  - refine (proj2 (proj2 (proj2 (proj2 (proj2 (proj2
      (C7_render_throws_what_logger_throws SimHost.sample_backend
         (SimHost.initial SimHost.throwing_template_disk)))))))
      "/app" SimHost.throwing_template _ eq_refl _ _ _).
    + by vm_compute.
    + by vm_compute.
    + by vm_compute.
  - refine (proj1 (proj2 (proj2 (proj2 (proj2 (proj2
      (C7_render_throws_what_logger_throws SimHost.sample_backend
         (SimHost.initial SimHost.template_is_directory)))))))
      "/app" _ eq_refl _ _).
    + by vm_compute.
    + by vm_compute.
Defined.

Section Update.
Context {World : Type} `{Env World}.

Lemma update_unfold (backend : GeneratedBackend) (st : State World) :
  updateGeneratedBackend backend st
  = try_catch (save_try backend)
      (fun error => logger (LogError "Error saving generated backend data:" error))
      (installed backend st).
Proof. reflexivity. Qed.

Lemma save_try_backend (backend : GeneratedBackend) (st : State World) :
  generatedBackend (fst (save_try backend st)) = generatedBackend st ∧
  log (fst (save_try backend st)) = log st.
Proof.
  unfold save_try, mbind, M_bind, ask, io, lift, mret, M_ret. cbn.
  destruct (process_cwd (world st)) as [?|cwd]; [done|]. cbn.
  destruct (fs_existsSync _ (world st)); cbn.
  - destruct (JSON_stringify backend) as [?|text]; [done|]. cbn.
    by destruct (fs_writeFileSync _ text (world st)) as [w [?|[]]].
  - destruct (fs_mkdirSync _ (world st)) as [w [?|[]]]; [done|]. cbn.
    destruct (JSON_stringify backend) as [?|text]; [done|]. cbn.
    by destruct (fs_writeFileSync _ text w) as [w' [?|[]]].
Qed.

(** What the persistence throws is an [Error], or another value that the
    logger reports: it comes from [process.cwd], [fs] or
    [JSON.stringify]. *)
Lemma save_try_reportable (backend : GeneratedBackend) (st : State World)
    (error : Raised) :
  snd (save_try backend st) = inl error → ∃ thrown, error = Reportable thrown.
Proof.
  unfold save_try, mbind, M_bind, ask, io, lift, mret, M_ret. cbn.
  destruct (process_cwd (world st)) as [?|cwd]; cbn; [intros [= <-]; eauto|].
  destruct (fs_existsSync _ (world st)); cbn.
  - destruct (JSON_stringify backend) as [?|text]; cbn; [intros [= <-]; eauto|].
    destruct (fs_writeFileSync _ text (world st)) as [w [?|[]]]; cbn;
      [intros [= <-]; eauto|done].
  - destruct (fs_mkdirSync _ (world st)) as [w [?|[]]]; cbn; [intros [= <-]; eauto|].
    destruct (JSON_stringify backend) as [?|text]; cbn; [intros [= <-]; eauto|].
    destruct (fs_writeFileSync _ text w) as [w' [?|[]]]; cbn;
      [intros [= <-]; eauto|done].
Qed.

Lemma save_try_write_throws (backend : GeneratedBackend) (st : State World)
    (cwd text : string) (w : World) (error : Thrown) :
  process_cwd (world st) = inr cwd →
  fs_existsSync (path_join [cwd; "src"; "generator"]) (world st) = true →
  JSON_stringify backend = inr text →
  fs_writeFileSync
    (path_join [path_join [cwd; "src"; "generator"]; "generated-backend.json"])
    text (world st) = (w, inl error) →
  save_try backend st
  = ({| generatedBackend := generatedBackend st; world := w; log := log st |},
     inl (Reportable error)).
Proof.
  intros Hcwd Hpresent Htext Hwrite.
  unfold save_try, mbind, M_bind, ask, io, lift, mret, M_ret. cbn.
  rewrite Hcwd. cbn. rewrite Hpresent. cbn. rewrite Htext. cbn. by rewrite Hwrite.
Qed.

(** C10: [updateGeneratedBackend] makes the model the current one first
    and attempts the persistence in that state; it returns normally and
    the model stays the current one whatever the persistence does. When
    the persistence throws, the error is logged and nothing else is
    done; when it is the write that throws, the world is the one the
    failed write left. *)
Theorem C10_update_keeps_model (backend : GeneratedBackend) (st : State World) :
  let st' := fst (updateGeneratedBackend backend st) in
  updateGeneratedBackend backend st
  = try_catch (save_try backend)
      (fun error => logger (LogError "Error saving generated backend data:" error))
      (installed backend st) ∧
  generatedBackend (installed backend st) = Some backend ∧
  snd (updateGeneratedBackend backend st) = inr tt ∧
  generatedBackend st' = Some backend ∧
  (∀ error, snd (save_try backend (installed backend st)) = inl error →
     log st' = log st ++ [LogError "Error saving generated backend data:" error]) ∧
  (∀ cwd text w error,
     process_cwd (world st) = inr cwd →
     fs_existsSync (path_join [cwd; "src"; "generator"]) (world st) = true →
     JSON_stringify backend = inr text →
     fs_writeFileSync
       (path_join [path_join [cwd; "src"; "generator"]; "generated-backend.json"])
       text (world st) = (w, inl error) →
     st' = {| generatedBackend := Some backend; world := w;
              log := log st ++ [LogError "Error saving generated backend data:" error] |}).
Proof.
  intros st'. subst st'.
  split; [reflexivity|]. split; [reflexivity|].
  rewrite update_unfold, try_catch_result.
  destruct (save_try_backend backend (installed backend st)) as [Hmodel Hlog].
  pose proof (save_try_reportable backend (installed backend st)) as Hreportable.
  split; [|split; [|split]].
  - destruct (snd (save_try backend (installed backend st))) as [error|[]]; [|done].
    by destruct (Hreportable error eq_refl) as [thrown ->].
  - by destruct (snd (save_try backend (installed backend st))) as [error|[]].
  - intros error ->. unfold logger. cbn. by rewrite Hlog.
  - intros cwd text w error Hcwd Hpresent Htext Hwrite.
    by rewrite (save_try_write_throws backend (installed backend st)
                  cwd text w error Hcwd Hpresent Htext Hwrite).
Qed.

End Update.

Lemma C10_update_keeps_model_witness :
  let st' := fst (updateGeneratedBackend SimHost.sample_backend
                    (SimHost.initial SimHost.read_only_disk)) in
  st' = {| generatedBackend := Some SimHost.sample_backend;
           world := SimHost.read_only_disk;
           log := [LogError "Error saving generated backend data:"
                     (ErrorInstance
                        "EROFS: read-only file system, open '/app/src/generator/generated-backend.json'")] |} ∧
  (∀ text, fs_readFileSync "/app/src/generator/generated-backend.json" (world st')
           ≠ inr text).
Proof.
  intros st'.
  assert (Hst : st' = {| generatedBackend := Some SimHost.sample_backend;
                         world := SimHost.read_only_disk;
                         log := [LogError "Error saving generated backend data:"
                                   (ErrorInstance
                                      "EROFS: read-only file system, open '/app/src/generator/generated-backend.json'")] |}).
  { refine (proj2 (proj2 (proj2 (proj2 (proj2
      (C10_update_keeps_model SimHost.sample_backend
         (SimHost.initial SimHost.read_only_disk))))))
      "/app" _ SimHost.read_only_disk _ eq_refl _ eq_refl _).
    - by vm_compute.
    - by vm_compute. }
  split; [exact Hst|]. rewrite Hst. intros text. by vm_compute.
Defined.

End HostFacts.

(** * Further properties of the Specification Projector *)

Module ProjectorFacts.
Import JS Types OpenApi OpenApiSpec ProjectorSpec OpenApiFacts.

(** *** Keys *)

Lemma lower_unit_idem (c : ascii) : lower_unit (lower_unit c) = lower_unit c.
Proof. destruct c as [[] [] [] [] [] [] [] []]; by vm_compute. Qed.

Lemma toLowerCase_idem (s : string) : toLowerCase (toLowerCase s) = toLowerCase s.
Proof.
  induction s as [|c s IH]; [reflexivity|]. cbn. by rewrite lower_unit_idem, IH.
Qed.

Lemma op_at_accessor (ps : gmap string (gmap string Operation))
    (l : list GeneratedEndpoint) (p : string) :
  op_at (foldl addEndpointToPaths ps l) p "__proto__" = op_at ps p "__proto__".
Proof.
  revert ps. induction l as [|e l IH]; intros ps; [reflexivity|].
  simpl. rewrite IH. unfold op_at, addEndpointToPaths.
  destruct (decide (normalizePath (ep_path e) = p)) as [<-|Hp].
  - rewrite lookup_insert_eq. simpl. unfold assign.
    destruct (String.eqb_spec (toLowerCase (ep_method e)) "__proto__") as [Hk|Hk].
    + by destruct (ps !! normalizePath (ep_path e)).
    + rewrite lookup_insert_ne by done.
      by destruct (ps !! normalizePath (ep_path e)).
  - by rewrite lookup_insert_ne.
Qed.

(** X1: every key of the projected [paths] starts with a slash, whatever
    the endpoint paths are. *)
Theorem path_keys_start_with_slash (b : GeneratedBackend) (k : string) :
  is_Some (paths (generateOpenAPISpec b) !! k) →
  ∃ rest, k = String "/" rest.
Proof.
  destruct (be_endpoints b) as [eps|] eqn:Heps.
  - destruct (generate_present b eps Heps) as [_ ->].
    rewrite keys_foldl. intros [(e & _ & ->)|[? Habs]].
    + apply normalizePath_slash.
    + by rewrite lookup_empty in Habs.
  - destruct (generate_absent b Heps) as [_ ->]. cbn.
    rewrite lookup_empty. by intros [? ?].
Qed.

Lemma path_keys_start_with_slash_witness :
  ∃ rest, "/ary" = String "/" rest.
Proof.
  apply (path_keys_start_with_slash
           (backend (Some [endpoint "/apiary" "GET" "List the hives"])) "/ary").
  vm_compute. eauto.
Defined.

(** X2: every operation found in the projected [paths] is the operation of
    an endpoint of the model that lands at that place, and its method key is
    in lower case (lower-casing it again changes nothing). *)
Theorem stored_operations_come_from_endpoints (b : GeneratedBackend)
    (p m : string) (op : Operation) :
  op_at (paths (generateOpenAPISpec b)) p m = Some op →
  toLowerCase m = m ∧
  ∃ eps e, be_endpoints b = Some eps ∧ e ∈ eps ∧ lands_at p m e ∧
           op = operation_of e.
Proof.
  destruct (be_endpoints b) as [eps|] eqn:Heps.
  - destruct (generate_present b eps Heps) as [_ ->].
    destruct (decide (m = "__proto__")) as [->|Hm].
    { rewrite op_at_accessor. unfold op_at. by rewrite lookup_empty. }
    rewrite op_at_foldl by done.
    destruct (last_at p m eps) as [e|] eqn:Hlast.
    + intros [= <-]. unfold last_at in Hlast.
      apply last_Some_elem_of, list_elem_of_filter in Hlast as [Hland He].
      split.
      * destruct Hland as [_ <-]. apply toLowerCase_idem.
      * by exists eps, e.
    + unfold op_at. by rewrite lookup_empty.
  - destruct (generate_absent b Heps) as [_ ->]. unfold op_at. cbn.
    by rewrite lookup_empty.
Qed.

Lemma stored_operations_come_from_endpoints_witness :
  toLowerCase "get" = "get".
Proof.
  refine (proj1 (stored_operations_come_from_endpoints
                   (backend (Some [endpoint "/x" "GeT" "first"])) "/x" "get"
                   (operation_of (endpoint "/x" "GeT" "first")) _)).
  by vm_compute.
Defined.

(** *** The document around the paths *)

(** X3: the endpoints only touch [paths]. Whatever the model, the version
    tag is [3.0.0] and the only server is [/api]; when the endpoint sequence
    is present, [info] is the name, description and version of the model as
    they are and [components] is an empty schema table; when it is absent the
    minimal document has no [components]. *)
Theorem document_frame (b : GeneratedBackend) :
  openapi (generateOpenAPISpec b) = "3.0.0" ∧
  servers (generateOpenAPISpec b) = ["/api"] ∧
  (∀ eps, be_endpoints b = Some eps →
     info (generateOpenAPISpec b)
     = {| info_title := be_name b; info_description := be_description b;
          info_version := be_version b |} ∧
     components (generateOpenAPISpec b) = Some ∅) ∧
  (be_endpoints b = None → components (generateOpenAPISpec b) = None).
Proof.
  assert (Hframe : ∀ spec l,
            openapi (foldl addEndpointToSpec spec l) = openapi spec ∧
            servers (foldl addEndpointToSpec spec l) = servers spec ∧
            info (foldl addEndpointToSpec spec l) = info spec ∧
            components (foldl addEndpointToSpec spec l) = components spec).
  { intros spec l. revert spec. induction l as [|e l IH]; intros spec; [done|].
    cbn [foldl]. destruct (IH (addEndpointToSpec spec e)) as (-> & -> & -> & ->).
    done. }
  unfold generateOpenAPISpec, generate_try, for_endpoints.
  destruct (be_endpoints b) as [eps|]; cbn.
  - match goal with
    | |- context [foldl addEndpointToSpec ?s eps] =>
        destruct (Hframe s eps) as (-> & -> & Hinfo & Hcomp)
    end.
    split; [done|]. split; [done|]. split; [|done].
    intros ? _. by rewrite Hinfo, Hcomp.
  - split; [done|]. split; [done|]. by split.
Qed.

Lemma document_frame_witness :
  components (generateOpenAPISpec (backend (Some [endpoint "/x" "GET" "first"])))
  = Some ∅ ∧
  components (generateOpenAPISpec (backend None)) = None.
Proof.
  split.
  - exact (proj2 (proj1 (proj2 (proj2
             (document_frame (backend (Some [endpoint "/x" "GET" "first"]))))) _ eq_refl)).
  - exact (proj2 (proj2 (proj2 (document_frame (backend None)))) eq_refl).
Defined.

(** *** Operations *)

Lemma filter_complement_all {A} (P : A → Prop) `{!∀ x, Decision (P x)} (l : list A) :
  filter P l = [] → filter (fun x => ¬ P x) l = l.
Proof.
  induction l as [|x l IH]; [reflexivity|]. rewrite !filter_cons.
  destruct (decide (P x)) as [HP|HP]; [discriminate|].
  intros Hnil. rewrite decide_True by done. by rewrite IH.
Qed.

Lemma filter_complement_length {A} (P : A → Prop) `{!∀ x, Decision (P x)} (l : list A) :
  length (filter (fun x => ¬ P x) l) + length (filter P l) = length l.
Proof.
  rewrite Nat.add_comm, <- length_app. apply Permutation_length, filter_app_complement.
Qed.

Lemma operation_parameters_kept (e : GeneratedEndpoint) (ps : list EndpointParameter) :
  ep_parameters e = Some ps → ps ≠ [] →
  op_parameters (operation_of e)
  = Some (convertParameter <$> filter (fun p => param_in p ≠ InBody) ps) ∧
  (is_Some (op_requestBody (operation_of e))
   ↔ filter (fun p => param_in p = InBody) ps ≠ []).
Proof.
  intros Hps Hne. unfold operation_of. cbn [op_parameters op_requestBody].
  unfold operation_parameters. rewrite Hps. destruct ps as [|p0 ps0]; [done|].
  destruct (filter (fun p => param_in p = InBody) (p0 :: ps0)) as [|first others] eqn:Hbody.
  - cbn [fst snd]. split.
    + by rewrite (filter_complement_all _ _ Hbody).
    + split; [by intros [? ?]|done].
  - cbn [fst snd]. split.
    + by rewrite filter_converted.
    + split; [done|eauto].
Qed.

(** X4: in every projected operation the [parameters] array, when there is
    one, is the conversion of the parameters that are not located at [body],
    in their order: none of its members is located at [body], each carries a
    schema type, and its length is the number of parameters less those at
    [body]. The array is absent exactly when the endpoint has no parameter,
    and a request body is present exactly when some parameter is located at
    [body]. *)
Theorem operation_parameters_invariant (e : GeneratedEndpoint) :
  (∀ kept, op_parameters (operation_of e) = Some kept →
     Forall (fun q => oa_in q ≠ InBody ∧ is_Some (oa_schema_type q)) kept ∧
     ∃ ps, ep_parameters e = Some ps ∧
           kept = convertParameter <$> filter (fun p => param_in p ≠ InBody) ps ∧
           length kept + body_count ps = length ps) ∧
  (op_parameters (operation_of e) = None
   ↔ ep_parameters e = None ∨ ep_parameters e = Some []) ∧
  (is_Some (op_requestBody (operation_of e)) ↔ has_body_parameter e).
Proof.
  destruct (ep_parameters e) as [[|p0 ps0]|] eqn:Hps.
  - unfold operation_of, operation_parameters. rewrite Hps. cbn.
    split; [discriminate|]. split; [by split; eauto|].
    split; [by intros [? ?]|].
    intros (ps & p & Hps' & Hp & _). rewrite Hps in Hps'.
    injection Hps' as <-. by apply elem_of_nil in Hp.
  - destruct (operation_parameters_kept e (p0 :: ps0) Hps) as [Hkept Hbody]; [done|].
    rewrite Hkept. split; [|split].
    + intros kept [= <-]. split.
      * apply Forall_fmap, Forall_forall. intros p Hp.
        apply list_elem_of_filter in Hp as [Hp _]. cbn.
        rewrite convertParameter_in. split; [done|].
        unfold convertParameter. destruct (param_in p); by eauto.
      * exists (p0 :: ps0). split; [done|]. split; [done|].
        rewrite length_fmap. apply filter_complement_length.
    + split; [discriminate|]. by intros [?|?].
    + rewrite Hbody. unfold has_body_parameter. split.
      * intros Hne.
        destruct (filter (fun p => param_in p = InBody) (p0 :: ps0)) as [|p l] eqn:Hf; [done|].
        assert (Hp : p ∈ filter (fun p => param_in p = InBody) (p0 :: ps0))
          by (rewrite Hf; by left).
        apply list_elem_of_filter in Hp as [Hin Hp]. by exists (p0 :: ps0), p.
      * intros (ps & p & Hps' & Hp & Hin) Hnil. rewrite Hps in Hps'.
        injection Hps' as <-. by apply (filter_nil_not_elem_of _ _ p Hnil Hin).
  - unfold operation_of, operation_parameters. rewrite Hps. cbn.
    split; [discriminate|]. split; [by split; eauto|].
    split; [by intros [? ?]|]. intros (ps & p & Hps' & _). congruence.
Qed.

Lemma operation_parameters_invariant_witness :
  let e := {| ep_path := "/api/tasks"; ep_method := "POST";
              ep_description := "Add a task";
              ep_parameters :=
                Some [parameter "task" InBody true "The task";
                      parameter "id" InPath true "Task id"];
              ep_responses := None |} in
  Forall (fun q => oa_in q ≠ InBody ∧ is_Some (oa_schema_type q))
    [convertParameter (parameter "id" InPath true "Task id")].
Proof.
  intros e.
  exact (proj1 (proj1 (operation_parameters_invariant e)
                  [convertParameter (parameter "id" InPath true "Task id")] eq_refl)).
Defined.

(** X5: the [responses] of a projected operation are never empty, and
    nothing in them is invented: an entry is the default one under [200] of
    an endpoint without responses, or the conversion of a supplied response
    under the print of its own status code. *)
Theorem responses_never_empty (e : GeneratedEndpoint) :
  op_responses (operation_of e) ≠ ∅ ∧
  ∀ k r, op_responses (operation_of e) !! k = Some r →
    (k = "200" ∧ r = default_response ∧
     (ep_responses e = None ∨ ep_responses e = Some []))
    ∨ (∃ rs src, ep_responses e = Some rs ∧ src ∈ rs ∧
                 k = Number_toString (resp_status src) ∧ r = convertResponse src).
Proof.
  cbn [operation_of op_responses]. unfold operation_responses.
  destruct (ep_responses e) as [[|r0 rs]|] eqn:Hrs.
  - split; [apply insert_non_empty|].
    intros k r Hk. apply lookup_singleton_Some in Hk as [<- <-]. left. eauto.
  - split.
    + intros Hempty.
      assert (Hlast : is_Some (last (r0 :: rs))) by (by apply last_is_Some).
      destruct Hlast as [rl Hrl].
      apply (f_equal (fun m => m !! Number_toString (resp_status rl))) in Hempty.
      rewrite responses_foldl, lookup_empty in Hempty. unfold last_response in Hempty.
      apply last_Some in Hrl as [l' Hl']. rewrite Hl', filter_app in Hempty.
      rewrite filter_cons_True, filter_nil, last_snoc in Hempty by done. discriminate.
    + intros k r. rewrite responses_foldl, lookup_empty.
      destruct (last_response k (r0 :: rs)) as [src|] eqn:Hlast; [|discriminate].
      intros [= <-]. apply last_response_elem in Hlast as [Hin <-].
      right. by exists (r0 :: rs), src.
  - split; [apply insert_non_empty|].
    intros k r Hk. apply lookup_singleton_Some in Hk as [<- <-]. left. eauto.
Qed.

Lemma responses_never_empty_witness :
  let e := {| ep_path := "/api/tasks"; ep_method := "POST";
              ep_description := "Add a task"; ep_parameters := None;
              ep_responses := Some [response 201 "Created"] |} in
  ("201" = "200" ∧ convertResponse (response 201 "Created") = default_response ∧
   (ep_responses e = None ∨ ep_responses e = Some []))
  ∨ (∃ rs src, ep_responses e = Some rs ∧ src ∈ rs ∧
               "201" = Number_toString (resp_status src) ∧
               convertResponse (response 201 "Created") = convertResponse src).
Proof.
  intros e.
  apply (proj2 (responses_never_empty e) "201" (convertResponse (response 201 "Created"))).
  by vm_compute.
Defined.

(** *** How the endpoints of a sequence combine *)

Lemma assign_commute {V} (obj : gmap string V) (k1 k2 : string) (v1 v2 : V) :
  k1 ≠ k2 → assign (assign obj k1 v1) k2 v2 = assign (assign obj k2 v2) k1 v1.
Proof.
  intros Hne. unfold assign.
  destruct (String.eqb k1 "__proto__"), (String.eqb k2 "__proto__"); try done.
  by apply insert_insert_ne.
Qed.

Lemma add_commute (ps : gmap string (gmap string Operation)) (e1 e2 : GeneratedEndpoint) :
  endpoint_key e1 ≠ endpoint_key e2 →
  addEndpointToPaths (addEndpointToPaths ps e1) e2
  = addEndpointToPaths (addEndpointToPaths ps e2) e1.
Proof.
  unfold endpoint_key, addEndpointToPaths. intros Hne.
  destruct (decide (normalizePath (ep_path e1) = normalizePath (ep_path e2))) as [Hp|Hp].
  - assert (Hm : toLowerCase (ep_method e1) ≠ toLowerCase (ep_method e2)) by congruence.
    rewrite <- Hp, !lookup_insert_eq, !insert_insert_eq. cbn [default]. unfold id.
    by rewrite assign_commute.
  - rewrite !lookup_insert_ne by done. by apply insert_insert_ne.
Qed.

Lemma foldl_add_permutation (l1 l2 : list GeneratedEndpoint) :
  l1 ≡ₚ l2 → NoDup (endpoint_key <$> l1) →
  ∀ ps, foldl addEndpointToPaths ps l1 = foldl addEndpointToPaths ps l2.
Proof.
  induction 1 as [|x l l' Hperm IH|x y l|l l' l'' H1 IH1 H2 IH2]; intros Hnd ps.
  - reflexivity.
  - rewrite fmap_cons in Hnd. apply NoDup_cons in Hnd as [_ Hnd]. cbn. by apply IH.
  - rewrite !fmap_cons in Hnd. apply NoDup_cons in Hnd as [Hy _].
    cbn. rewrite add_commute; [reflexivity|].
    intros Heq. apply Hy. rewrite Heq. by left.
  - rewrite IH1 by done. apply IH2. by rewrite <- H1.
Qed.

(** X6: when no two endpoints of the model share both the normalized path
    and the lower-cased method, the order of the endpoints does not matter:
    two models with the same endpoints in different orders are projected to
    the same [paths]. *)
Theorem projection_order_irrelevant (b1 b2 : GeneratedBackend)
    (eps1 eps2 : list GeneratedEndpoint) :
  be_endpoints b1 = Some eps1 →
  be_endpoints b2 = Some eps2 →
  eps1 ≡ₚ eps2 →
  NoDup (endpoint_key <$> eps1) →
  paths (generateOpenAPISpec b1) = paths (generateOpenAPISpec b2).
Proof.
  intros H1 H2 Hperm Hnd.
  destruct (generate_present b1 eps1 H1) as [_ ->].
  destruct (generate_present b2 eps2 H2) as [_ ->].
  by apply foldl_add_permutation.
Qed.

Lemma projection_order_irrelevant_witness :
  paths (generateOpenAPISpec
           (backend (Some [endpoint "/api/x" "GET" "read"; endpoint "/x" "POST" "write"])))
  = paths (generateOpenAPISpec
             (backend (Some [endpoint "/x" "POST" "write"; endpoint "/api/x" "GET" "read"]))).
Proof.
  refine (projection_order_irrelevant
            (backend (Some [endpoint "/api/x" "GET" "read"; endpoint "/x" "POST" "write"]))
            (backend (Some [endpoint "/x" "POST" "write"; endpoint "/api/x" "GET" "read"]))
            [endpoint "/api/x" "GET" "read"; endpoint "/x" "POST" "write"]
            [endpoint "/x" "POST" "write"; endpoint "/api/x" "GET" "read"]
            eq_refl eq_refl _ _).
  - apply perm_swap.
  - apply (bool_decide_unpack (NoDup _)). by vm_compute.
Defined.

Lemma last_app_same {A} (l : list A) : last (l ++ l) = last l.
Proof. rewrite last_app. by destruct (last l). Qed.

(** Two endpoint sequences with the same path keys and, at every place, the
    same last endpoint give the same [paths]. *)
Lemma paths_ext (l1 l2 : list GeneratedEndpoint) :
  (∀ k, (∃ e, e ∈ l1 ∧ k = normalizePath (ep_path e))
        ↔ (∃ e, e ∈ l2 ∧ k = normalizePath (ep_path e))) →
  (∀ p m, last_at p m l1 = last_at p m l2) →
  foldl addEndpointToPaths ∅ l1 = foldl addEndpointToPaths ∅ l2.
Proof.
  intros Hkeys Hlast. apply map_eq. intros p.
  assert (Hsome : is_Some (foldl addEndpointToPaths ∅ l1 !! p)
                  ↔ is_Some (foldl addEndpointToPaths ∅ l2 !! p)).
  { rewrite !keys_foldl, Hkeys. done. }
  assert (Hop : ∀ m, op_at (foldl addEndpointToPaths ∅ l1) p m
                     = op_at (foldl addEndpointToPaths ∅ l2) p m).
  { intros m. destruct (decide (m = "__proto__")) as [->|Hm].
    - by rewrite !op_at_accessor.
    - by rewrite !op_at_foldl, Hlast. }
  unfold op_at in Hop.
  destruct (foldl addEndpointToPaths ∅ l1 !! p) as [i1|] eqn:H1;
    destruct (foldl addEndpointToPaths ∅ l2 !! p) as [i2|] eqn:H2.
  - f_equal. apply map_eq. intros m. apply (Hop m).
  - exfalso. by apply (is_Some_None (A := gmap string Operation)), Hsome.
  - exfalso. by apply (is_Some_None (A := gmap string Operation)), Hsome.
  - reflexivity.
Qed.

(** X7: an endpoint that is followed, later in the sequence, by an endpoint
    with the same normalized path and the same lower-cased method leaves no
    trace: the projected [paths] are those of the sequence without it. *)
Theorem shadowed_endpoint_leaves_no_trace (b b' : GeneratedBackend)
    (before after : list GeneratedEndpoint) (e e' : GeneratedEndpoint) :
  be_endpoints b = Some (before ++ e :: after) →
  be_endpoints b' = Some (before ++ after) →
  e' ∈ after →
  endpoint_key e' = endpoint_key e →
  paths (generateOpenAPISpec b) = paths (generateOpenAPISpec b').
Proof.
  intros Hb Hb' Hin Hkey. injection Hkey as Hp Hm.
  destruct (generate_present b _ Hb) as [_ ->].
  destruct (generate_present b' _ Hb') as [_ ->].
  apply paths_ext.
  - intros k. split.
    + intros (x & Hx & ->). apply elem_of_app in Hx as [Hx|Hx].
      * exists x. split; [|done]. apply elem_of_app. by left.
      * apply elem_of_cons in Hx as [->|Hx].
        -- exists e'. split; [|done]. apply elem_of_app. by right.
        -- exists x. split; [|done]. apply elem_of_app. by right.
    + intros (x & Hx & ->). exists x. split; [|done].
      apply elem_of_app in Hx as [Hx|Hx]; apply elem_of_app; [by left|].
      right. by right.
  - intros p m. unfold last_at. rewrite !filter_app, filter_cons.
    destruct (decide (lands_at p m e)) as [[Hlp Hlm]|Hland]; [|reflexivity].
    assert (He' : e' ∈ filter (lands_at p m) after).
    { apply list_elem_of_filter. split; [|done]. split; congruence. }
    rewrite !last_app, last_cons.
    destruct (last (filter (lands_at p m) after)) as [y|] eqn:Hy; [reflexivity|].
    apply last_None in Hy. rewrite Hy in He'. by apply elem_of_nil in He'.
Qed.

Lemma shadowed_endpoint_leaves_no_trace_witness :
  paths (generateOpenAPISpec
           (backend (Some [endpoint "/x" "GET" "first"; endpoint "/api/x" "get" "second"])))
  = paths (generateOpenAPISpec (backend (Some [endpoint "/api/x" "get" "second"]))).
Proof.
  refine (shadowed_endpoint_leaves_no_trace
            (backend (Some [endpoint "/x" "GET" "first"; endpoint "/api/x" "get" "second"]))
            (backend (Some [endpoint "/api/x" "get" "second"]))
            [] [endpoint "/api/x" "get" "second"]
            (endpoint "/x" "GET" "first") (endpoint "/api/x" "get" "second")
            eq_refl eq_refl _ _).
  - by left.
  - by vm_compute.
Defined.

Lemma size_add (ps : gmap string (gmap string Operation)) (e : GeneratedEndpoint) :
  size (addEndpointToPaths ps e)
  = if decide (is_Some (ps !! normalizePath (ep_path e))) then size ps else S (size ps).
Proof.
  unfold addEndpointToPaths.
  destruct (decide (is_Some (ps !! normalizePath (ep_path e)))) as [Hs|Hs].
  - by apply map_size_insert_Some.
  - apply map_size_insert_None. by apply eq_None_not_Some.
Qed.

(** X8: the projected [paths] have at most as many keys as the model has
    endpoints, and exactly as many when the normalized paths of the endpoints
    are pairwise different. *)
Theorem paths_size_bound (b : GeneratedBackend) (eps : list GeneratedEndpoint) :
  be_endpoints b = Some eps →
  (size (paths (generateOpenAPISpec b)) ≤ length eps)%nat ∧
  (NoDup (normalizePath ∘ ep_path <$> eps) →
   size (paths (generateOpenAPISpec b)) = length eps).
Proof.
  intros Heps. destruct (generate_present b eps Heps) as [_ ->]. clear Heps.
  induction eps as [|e eps IH] using rev_ind.
  - split; [by cbn|]. intros _. apply map_size_empty.
  - rewrite foldl_snoc, size_add, length_app. cbn [length].
    destruct IH as [IHle IHeq]. split.
    + destruct (decide _); lia.
    + rewrite fmap_app. cbn. intros Hnd. apply NoDup_app in Hnd as (Hnd & Hfresh & _).
      rewrite decide_False; [rewrite IHeq by done; lia|].
      rewrite keys_foldl. intros [(x & Hx & Hk)|[? Habs]].
      * apply (Hfresh (normalizePath (ep_path e))); [|by left].
        rewrite Hk. by apply (list_elem_of_fmap_2 (normalizePath ∘ ep_path)).
      * by rewrite lookup_empty in Habs.
Qed.

Lemma paths_size_bound_witness :
  (size (paths (generateOpenAPISpec
                 (backend (Some [endpoint "/api/x" "GET" "read"; endpoint "/x" "POST" "write"]))))
  ≤ 2)%nat.
Proof.
  exact (proj1 (paths_size_bound
                  (backend (Some [endpoint "/api/x" "GET" "read"; endpoint "/x" "POST" "write"]))
                  [endpoint "/api/x" "GET" "read"; endpoint "/x" "POST" "write"] eq_refl)).
Defined.

End ProjectorFacts.

(** * Further properties of the Translator *)

Module TranslatorMore.
Import JS Types Translator TranslatorSpec TranslatorFacts.

(** What a run does once the two input guards are passed. *)
Lemma parsePrompt_guards_passed `{JSONCodec} (prompt : string) (config : GeneratorConfig) :
  trim prompt ≠ EmptyString →
  falsy_string (openaiApiKey config) = false →
  parsePrompt prompt config
  = NewOpenAI (default EmptyString (openaiApiKey config)) (fun constructed =>
      match constructed with
      | inl error => Return (outer_catch error)
      | inr _ =>
          CreateCompletion (chat_request prompt config) (fun reply =>
            match reply with
            | inl error => Return (outer_catch error)
            | inr completion =>
                match first_content completion with
                | None => Return (Fulfilled (failure "No content in OpenAI response"))
                | Some content =>
                    if String.eqb content EmptyString
                    then Return (Fulfilled (failure "No content in OpenAI response"))
                    else Return (Fulfilled (decode content))
                end
            end)
      end).
Proof.
  intros Hprompt Hkey. unfold parsePrompt.
  destruct (String.eqb prompt EmptyString || (String.length (trim prompt) =? 0)%nat)
    eqn:Hguard.
  { by apply empty_guard in Hguard. }
  by rewrite Hkey.
Qed.

Lemma parsePrompt_guard_failed `{JSONCodec} (prompt : string) (config : GeneratorConfig) :
  trim prompt = EmptyString ∨ falsy_string (openaiApiKey config) = true →
  ∃ message, parsePrompt prompt config = Return (Fulfilled (failure message)).
Proof.
  intros Hinput. unfold parsePrompt.
  destruct (String.eqb prompt EmptyString || (String.length (trim prompt) =? 0)%nat)
    eqn:Hguard; [eauto|].
  destruct Hinput as [Htrim|Hkey].
  - apply empty_guard in Htrim. congruence.
  - rewrite Hkey. eauto.
Qed.

Lemma guards_decided (prompt : string) (config : GeneratorConfig) :
  (trim prompt = EmptyString ∨ falsy_string (openaiApiKey config) = true)
  ∨ (trim prompt ≠ EmptyString ∧ falsy_string (openaiApiKey config) = false).
Proof.
  destruct (decide (trim prompt = EmptyString)); [by left; left|].
  destruct (falsy_string (openaiApiKey config)); [by left; right|by right].
Qed.

(** X9: a run of [parsePrompt] constructs at most one client and issues at
    most one request, never a second one whatever the first one brings. A
    request is issued exactly when the prompt is not blank, the key is not
    empty and the client could be constructed; it carries the system prompt
    and then the prompt as the user gave it (not trimmed), and asks for the
    configured model, or for [gpt-4o] when none (or the empty name) is
    configured. *)
Theorem one_request_at_most `{JSONCodec} (prompt : string) (config : GeneratorConfig)
    (service : Service) :
  let p := parsePrompt prompt config in
  (clients service p = [] ∨ clients service p = [default EmptyString (openaiApiKey config)]) ∧
  (requests service p = [] ∨ requests service p = [chat_request prompt config]) ∧
  (requests service p = [chat_request prompt config]
   ↔ trim prompt ≠ EmptyString ∧ falsy_string (openaiApiKey config) = false ∧
     ∃ u, construct service (default EmptyString (openaiApiKey config)) = inr u) ∧
  req_messages (chat_request prompt config)
  = [ {| role := "system"; content := systemPrompt |};
      {| role := "user"; content := prompt |} ] ∧
  (falsy_string (model config) = true →
   req_model (chat_request prompt config) = "gpt-4o") ∧
  (∀ name, model config = Some name → name ≠ EmptyString →
   req_model (chat_request prompt config) = name).
Proof.
  intros p. subst p.
  assert (Hmodel : (falsy_string (model config) = true →
                    req_model (chat_request prompt config) = "gpt-4o") ∧
                   (∀ name, model config = Some name → name ≠ EmptyString →
                    req_model (chat_request prompt config) = name)).
  { cbn. unfold or_default, falsy_string. split.
    - destruct (model config) as [name|]; [|done]. by intros ->.
    - intros name -> Hname. by destruct (String.eqb_spec name EmptyString). }
  destruct (guards_decided prompt config) as [Hbad|[Hprompt Hkey]].
  - destruct (parsePrompt_guard_failed prompt config Hbad) as [message ->]. cbn.
    split; [by left|]. split; [by left|]. split; [|by split].
    split; [discriminate|]. intros (Hprompt & Hkey & _).
    destruct Hbad; congruence.
  - rewrite parsePrompt_guards_passed by done. cbn.
    destruct (construct service (default EmptyString (openaiApiKey config)))
      as [thrown|u] eqn:Hconstruct; cbn.
    + split; [by right|]. split; [by left|]. split; [|by split].
      split; [discriminate|]. by intros (_ & _ & u & ?).
    + assert (Hone : requests service
                       match create service (chat_request prompt config) with
                       | inl error => Return (outer_catch error)
                       | inr completion =>
                           match first_content completion with
                           | Some content =>
                               if String.eqb content EmptyString
                               then Return (Fulfilled (failure "No content in OpenAI response"))
                               else Return (Fulfilled (decode content))
                           | None => Return (Fulfilled (failure "No content in OpenAI response"))
                           end
                       end = []).
      { destruct (create service (chat_request prompt config)) as [?|completion]; [done|].
        destruct (first_content completion) as [content|]; [|done].
        by destruct (String.eqb content EmptyString). }
      assert (Hclients : clients service
                       match create service (chat_request prompt config) with
                       | inl error => Return (outer_catch error)
                       | inr completion =>
                           match first_content completion with
                           | Some content =>
                               if String.eqb content EmptyString
                               then Return (Fulfilled (failure "No content in OpenAI response"))
                               else Return (Fulfilled (decode content))
                           | None => Return (Fulfilled (failure "No content in OpenAI response"))
                           end
                       end = []).
      { destruct (create service (chat_request prompt config)) as [?|completion]; [done|].
        destruct (first_content completion) as [content|]; [|done].
        by destruct (String.eqb content EmptyString). }
      rewrite Hone, Hclients.
      split; [by right|]. split; [by right|]. split; [|by split].
      split; [|done]. intros _. by eauto.
Qed.

Lemma one_request_at_most_witness :
  @requests Settled (replying (Some "null"))
    (@parsePrompt sample_codec "  list tasks " (config_with (Some "sk-test")))
  = [chat_request "  list tasks " (config_with (Some "sk-test"))].
Proof.
  apply (proj2 (proj1 (proj2 (proj2
           (@one_request_at_most sample_codec "  list tasks "
              (config_with (Some "sk-test")) (replying (Some "null"))))))).
  split; [by vm_compute|]. split; [reflexivity|]. by exists tt.
Defined.

(** What the inner [try] and its [catch] answer is well formed. *)
Lemma decode_well_formed `{JSONCodec} (content : string) :
  let r := decode content in
  (success r = true ∧ error r = None ∧ is_Some (data r))
  ∨ (success r = false ∧ is_Some (error r) ∧ data r = None).
Proof.
  unfold decode. destruct (JSON_parse content) as [v|]; [|right; cbn; eauto].
  destruct (invalid_format v) as [?|[]]; [right; cbn; eauto..|].
  destruct (logging_throws v); [right; cbn; eauto|left; cbn; eauto].
Qed.

(** X10: how the promise of a run settles, whatever the service does. It
    is rejected exactly when the prompt is not blank, the key is not empty,
    and the construction of the client or else the request threw a value
    that the logger cannot report: then the reason is what the logger
    threw. Otherwise it is fulfilled, and a result it is fulfilled with is
    well formed: either a success with data and no error text, or a failure
    with an error text and no data. *)
Theorem result_well_formed `{JSONCodec} (prompt : string) (config : GeneratorConfig)
    (service : Service) :
  let settled := run service (parsePrompt prompt config) in
  (∀ reason, settled = Rejected reason
     ↔ trim prompt ≠ EmptyString ∧ falsy_string (openaiApiKey config) = false ∧
       (construct service (default EmptyString (openaiApiKey config))
        = inl (Unreportable reason)
        ∨ (∃ u, construct service (default EmptyString (openaiApiKey config)) = inr u) ∧
          create service (chat_request prompt config) = inl (Unreportable reason))) ∧
  ((∃ r, settled = Fulfilled r) ∨ (∃ reason, settled = Rejected reason)) ∧
  (∀ r, settled = Fulfilled r →
     (success r = true ∧ error r = None ∧ is_Some (data r))
     ∨ (success r = false ∧ is_Some (error r) ∧ data r = None)).
Proof.
  intros settled. subst settled.
  destruct (guards_decided prompt config) as [Hbad|[Hprompt Hkey]].
  - destruct (parsePrompt_guard_failed prompt config Hbad) as [message ->]. cbn.
    split; [|split; [eauto|]].
    + intros reason. split; [discriminate|]. intros (Hprompt & Hkey & _).
      destruct Hbad; congruence.
    + intros r [= <-]. right. cbn. eauto.
  - rewrite parsePrompt_guards_passed by done. cbn.
    destruct (construct service _) as [[thrown|rethrown]|u]; cbn.
    + split; [|split; [eauto|]].
      * intros reason. split; [discriminate|].
        intros (_ & _ & [[=]|[[u [=]] _]]).
      * intros r [= <-]. right. cbn. eauto.
    + split; [|split; [eauto|discriminate]].
      intros reason. split.
      * intros [= <-]. split; [done|]. split; [done|]. by left.
      * intros (_ & _ & [[= <-]|[[u [=]] _]]). reflexivity.
    + destruct (create service _) as [[thrown|rethrown]|completion]; cbn.
      * split; [|split; [eauto|]].
        -- intros reason. split; [discriminate|].
           intros (_ & _ & [[=]|[_ [=]]]).
        -- intros r [= <-]. right. cbn. eauto.
      * split; [|split; [eauto|discriminate]].
        intros reason. split.
        -- intros [= <-]. split; [done|]. split; [done|]. right. eauto.
        -- intros (_ & _ & [[=]|[_ [= <-]]]). reflexivity.
      * assert (Hfulfilled : ∃ r,
                  run service
                    match first_content completion with
                    | Some content =>
                        if String.eqb content EmptyString
                        then Return (Fulfilled (failure "No content in OpenAI response"))
                        else Return (Fulfilled (decode content))
                    | None => Return (Fulfilled (failure "No content in OpenAI response"))
                    end = Fulfilled r ∧
                  ((success r = true ∧ error r = None ∧ is_Some (data r))
                   ∨ (success r = false ∧ is_Some (error r) ∧ data r = None))).
        { destruct (first_content completion) as [content|]; cbn;
            [|eexists; split; [reflexivity|right; cbn; eauto]].
          destruct (String.eqb content EmptyString); cbn;
            [eexists; split; [reflexivity|right; cbn; eauto]|].
          eexists. split; [reflexivity|]. apply decode_well_formed. }
        destruct Hfulfilled as (r & -> & Hr).
        split; [|split; [eauto|]].
        -- intros reason. split; [discriminate|].
           intros (_ & _ & [[=]|[_ [=]]]).
        -- by intros r' [= <-].
Qed.

Lemma result_well_formed_witness :
  let service := {| construct := fun _ => inr tt;
                    create := fun _ =>
                      inl (Unreportable
                             (Reportable
                                (ErrorInstance "Converting circular structure to JSON"))) |} in
  @run Settled service
    (@parsePrompt sample_codec "An API to list tasks" (config_with (Some "sk-test")))
  = Rejected (Reportable (ErrorInstance "Converting circular structure to JSON")).
Proof.
  intros service.
  apply (proj2 (proj1 (@result_well_formed sample_codec "An API to list tasks"
                         (config_with (Some "sk-test")) service) _)).
  split; [by vm_compute|]. split; [reflexivity|]. right. split; [by exists tt|reflexivity].
Defined.

Lemma invalid_format_passed (v : json) :
  invalid_format v = inr false →
  ∃ members name items,
    v = JObj members ∧
    get_member "name" members = Some name ∧ truthy name = true ∧
    get_member "workflows" members = Some (JArr items).
Proof.
  unfold invalid_format.
  destruct v as [| b | n | s | items | members]; cbn [get]; try discriminate.
  destruct (get_member "name" members) as [name|] eqn:Hname; cbn; [|discriminate].
  destruct (truthy name) eqn:Htruthy; cbn; [|discriminate].
  destruct (get_member "workflows" members) as [w|] eqn:Hw; cbn; [|discriminate].
  destruct (truthy w); cbn; [|discriminate].
  destruct w; cbn; try discriminate. intros _. eauto 10.
Qed.

(** X11: a success is never invented. When a run answers success, the
    prompt was not blank and the key not empty, one request was issued, the
    first choice of the completion held a text that [JSON.parse] decodes, and
    the data is that decoded value: an object with a truthy [name] member and
    an array [workflows] member. *)
Theorem success_is_sound `{JSONCodec} (prompt : string) (config : GeneratorConfig)
    (service : Service) (result : GenerationResult) :
  run service (parsePrompt prompt config) = Fulfilled result →
  success result = true →
  trim prompt ≠ EmptyString ∧
  falsy_string (openaiApiKey config) = false ∧
  requests service (parsePrompt prompt config) = [chat_request prompt config] ∧
  ∃ completion content members name items,
    create service (chat_request prompt config) = inr completion ∧
    first_content completion = Some content ∧
    JSON_parse content = Some (JObj members) ∧
    data result = Some (JObj members) ∧
    get_member "name" members = Some name ∧ truthy name = true ∧
    get_member "workflows" members = Some (JArr items).
Proof.
  destruct (guards_decided prompt config) as [Hbad|[Hprompt Hkey]].
  { destruct (parsePrompt_guard_failed prompt config Hbad) as [message ->].
    cbn. by intros [= <-]. }
  rewrite parsePrompt_guards_passed by done. cbn.
  destruct (construct service _) as [[thrown|rethrown]|u]; cbn;
    [by intros [= <-]|discriminate|].
  destruct (create service _) as [[thrown|rethrown]|completion] eqn:Hcreate; cbn;
    [by intros [= <-]|discriminate|].
  destruct (first_content completion) as [content|] eqn:Hcontent; cbn;
    [|by intros [= <-]].
  destruct (String.eqb content EmptyString); cbn; [by intros [= <-]|].
  intros [= <-].
  unfold decode. destruct (JSON_parse content) as [v|] eqn:Hparse; cbn; [|discriminate].
  destruct (invalid_format v) as [?|[]] eqn:Hformat; cbn; try discriminate.
  destruct (logging_throws v); cbn; [discriminate|]. intros _.
  apply invalid_format_passed in Hformat as (members & name & items & -> & Hname & Ht & Hw).
  split; [done|]. split; [done|]. split; [done|].
  exists completion, content, members, name, items. by repeat split.
Qed.

Lemma success_is_sound_witness :
  @requests Settled (replying (Some bare_reply))
    (@parsePrompt sample_codec "An API to list tasks" (config_with (Some "sk-test")))
  = [chat_request "An API to list tasks" (config_with (Some "sk-test"))].
Proof.
  refine (proj1 (proj2 (proj2
            (@success_is_sound sample_codec "An API to list tasks"
               (config_with (Some "sk-test")) (replying (Some bare_reply))
               (succeeded bare_object) _ eq_refl)))).
  by vm_compute.
Defined.

(** X12: when the construction of the client throws, no request is
    issued. For a thrown [Error] the result is a failure carrying its
    message, and for another value that the logger reports a failure
    carrying "Unknown error". For a value that the logger cannot report
    there is no result: the promise is rejected with what the logger
    threw. *)
Theorem construction_failure_reported `{JSONCodec} (prompt : string)
    (config : GeneratorConfig) (service : Service) (error : Raised) :
  trim prompt ≠ EmptyString →
  falsy_string (openaiApiKey config) = false →
  construct service (default EmptyString (openaiApiKey config)) = inl error →
  requests service (parsePrompt prompt config) = [] ∧
  (∀ thrown, error = Reportable thrown →
     run service (parsePrompt prompt config) = Fulfilled (failure (message_of thrown))) ∧
  (error = Reportable NotAnError →
     run service (parsePrompt prompt config) = Fulfilled (failure "Unknown error")) ∧
  (∀ rethrown, error = Unreportable rethrown →
     run service (parsePrompt prompt config) = Rejected rethrown).
Proof.
  intros Hprompt Hkey Hconstruct.
  rewrite parsePrompt_guards_passed by done. cbn. rewrite Hconstruct. cbn.
  split; [reflexivity|]. by repeat split; intros; subst.
Qed.

Lemma construction_failure_reported_witness :
  (let service := {| construct := fun _ =>
                       inl (Reportable (ErrorInstance "fetch is not defined"));
                     create := fun _ => inl (Reportable NotAnError) |} in
   @run Settled service
     (@parsePrompt sample_codec "An API to list tasks" (config_with (Some "sk-test")))
   = Fulfilled (failure "fetch is not defined")) ∧
  (let service := {| construct := fun _ =>
                       inl (Unreportable
                              (Reportable
                                 (ErrorInstance "Do not know how to serialize a BigInt")));
                     create := fun _ => inl (Reportable NotAnError) |} in
   @run Settled service
     (@parsePrompt sample_codec "An API to list tasks" (config_with (Some "sk-test")))
   = Rejected (Reportable (ErrorInstance "Do not know how to serialize a BigInt"))).
Proof.
  split; intros service.
  - refine (proj1 (proj2 (@construction_failure_reported sample_codec
                     "An API to list tasks" (config_with (Some "sk-test")) service
                     _ _ eq_refl eq_refl)) _ eq_refl).
    by vm_compute.
  - refine (proj2 (proj2 (proj2 (@construction_failure_reported sample_codec
                     "An API to list tasks" (config_with (Some "sk-test")) service
                     _ _ eq_refl eq_refl))) _ eq_refl).
    by vm_compute.
Defined.



(** X14: a decoded reply that passes the validation is still answered with
    the parse failure when its [name] cannot be turned into text for the log
    line (an object with an own [toString] member, or an array holding one):
    the conversion throws inside the block whose [catch] reports a parse
    error. *)
Theorem unloggable_name_reported_unparsable `{JSONCodec} (prompt : string)
    (config : GeneratorConfig) (reply : string)
    (members : list (string * json)) (name : json) (items : list json) :
  trim prompt ≠ EmptyString →
  falsy_string (openaiApiKey config) = false →
  reply ≠ EmptyString →
  JSON_parse reply = Some (JObj members) →
  get_member "name" members = Some name →
  truthy name = true →
  get_member "workflows" members = Some (JArr items) →
  ToString_throws name = true →
  invalid_format (JObj members) = inr false ∧
  run (replying (Some reply)) (parsePrompt prompt config) = parse_failure.
Proof.
  intros Hprompt Hkey Hreply Hparse Hname Htruthy Hw Hthrows.
  assert (Hformat : invalid_format (JObj members) = inr false).
  { unfold invalid_format. cbn [get]. rewrite Hname. cbn. rewrite Htruthy. cbn.
    by rewrite Hw. }
  split; [exact Hformat|].
  rewrite run_replying by done. unfold decode. rewrite Hparse, Hformat.
  unfold logging_throws. cbn [get]. rewrite Hname, Hthrows. reflexivity.
Qed.

Lemma unloggable_name_reported_unparsable_witness :
  @run Settled (replying (Some TranslatorSamples.unloggable_reply))
    (@parsePrompt TranslatorSamples.unloggable_codec "An API to list tasks"
       (config_with (Some "sk-test")))
  = parse_failure.
Proof.
  refine (proj2 (@unloggable_name_reported_unparsable TranslatorSamples.unloggable_codec
                   "An API to list tasks" (config_with (Some "sk-test"))
                   TranslatorSamples.unloggable_reply
                   [("name", JObj [("toString", JNum 1)]); ("workflows", JArr [])]
                   (JObj [("toString", JNum 1)]) [] _ eq_refl _ eq_refl eq_refl eq_refl
                   eq_refl eq_refl)).
  - by vm_compute.
  - by vm_compute.
Defined.

End TranslatorMore.

(** * Further properties of the renderer, the current model and the routes *)

Module RoutesFacts.
Import JS Types Host Docs DocsSpec Server Routes RoutesSpec HostFacts.

Ltac run_m :=
  unfold mbind, M_bind, mret, M_ret, ask, io, call, lift, logger, logged, throw,
    try_catch, set_generatedBackend, clear_generatedBackend; cbn.

Section Renderer.
Context {World : Type} `{Env World}.

(** The [try] block when the template is there. *)
Lemma render_try_present (backend : GeneratedBackend) (st : State World) (cwd : string) :
  process_cwd (world st) = inr cwd →
  fs_existsSync (path_join [cwd; "src"; "templates"; "documentation.ejs"]) (world st) = true →
  render_try backend st
  = ({| generatedBackend := generatedBackend st; world := world st;
        log := log st ++ [LogInfo "Rendering documentation..."] |},
     match fs_readFileSync (path_join [cwd; "src"; "templates"; "documentation.ejs"])
             (world st) with
     | inl error => inl (Reportable error)
     | inr template => rendering_of template backend (today (world st))
     end).
Proof.
  intros Hcwd Hpresent. unfold render_try, rendering_of. run_m.
  rewrite Hcwd. cbn. rewrite Hpresent. cbn.
  by destruct (fs_readFileSync _ (world st)).
Qed.

(** The [try] block when neither the template nor its directory is there and
    both can be created. *)
Lemma render_try_fresh (backend : GeneratedBackend) (st : State World) (cwd : string)
    (w1 w2 : World) :
  let templatePath := path_join [cwd; "src"; "templates"; "documentation.ejs"] in
  process_cwd (world st) = inr cwd →
  fs_existsSync templatePath (world st) = false →
  fs_existsSync (path_dirname templatePath) (world st) = false →
  fs_mkdirSync (path_dirname templatePath) (world st) = (w1, inr tt) →
  fs_writeFileSync templatePath getDefaultTemplate w1 = (w2, inr tt) →
  render_try backend st
  = ({| generatedBackend := generatedBackend st; world := w2;
        log := (log st ++ [LogInfo "Rendering documentation..."])
               ++ [LogInfo "Created default documentation template"] |},
     match fs_readFileSync templatePath w2 with
     | inl error => inl (Reportable error)
     | inr template => rendering_of template backend (today w2)
     end).
Proof.
  intros templatePath Hcwd Hpresent Hdir Hmkdir Hwrite.
  unfold render_try, rendering_of. run_m.
  rewrite Hcwd. cbn. fold templatePath. rewrite Hpresent. cbn. rewrite Hdir. cbn.
  rewrite Hmkdir. cbn. rewrite Hwrite. cbn.
  by destruct (fs_readFileSync templatePath w2).
Qed.


Lemma render_state (backend : GeneratedBackend) (st : State World) :
  renderDocumentation backend st
  = ({| generatedBackend := generatedBackend (fst (render_try backend st));
        world := world (fst (render_try backend st));
        log := log (fst (render_try backend st))
               ++ failure_line (snd (render_try backend st)) |},
     outcome_of (snd (render_try backend st))).
Proof.
  unfold renderDocumentation. rewrite try_catch_result.
  destruct (render_try backend st) as [[g w l] [[thrown|rethrown]|html]]; cbn.
  - reflexivity.
  - reflexivity.
  - by rewrite app_nil_r.
Qed.



(** X17: on a fresh installation (neither the template nor its directory
    exists, and both can be created) the first rendering creates the
    directory and writes the built-in template; if that file then exists and
    reads back as written, later renderings, of any model, find it and leave
    the file system alone, and every answer comes from rendering the
    built-in template: it is the page of that rendering (its text, or the
    error page of what it threw) unless it threw a value that the logger
    cannot report. *)
Theorem template_created_once (backend later : GeneratedBackend) (st : State World)
    (cwd : string) (w1 w2 : World) :
  let templatePath := path_join [cwd; "src"; "templates"; "documentation.ejs"] in
  process_cwd (world st) = inr cwd →
  fs_existsSync templatePath (world st) = false →
  fs_existsSync (path_dirname templatePath) (world st) = false →
  fs_mkdirSync (path_dirname templatePath) (world st) = (w1, inr tt) →
  fs_writeFileSync templatePath getDefaultTemplate w1 = (w2, inr tt) →
  process_cwd w2 = inr cwd →
  fs_existsSync templatePath w2 = true →
  fs_readFileSync templatePath w2 = inr getDefaultTemplate →
  let st1 := fst (renderDocumentation backend st) in
  let st2 := fst (renderDocumentation later st1) in
  world st1 = w2 ∧
  snd (renderDocumentation backend st)
  = outcome_of (rendering_of getDefaultTemplate backend (today w2)) ∧
  In (LogInfo "Created default documentation template") (log st1) ∧
  world st2 = w2 ∧
  snd (renderDocumentation later st1)
  = outcome_of (rendering_of getDefaultTemplate later (today w2)) ∧
  log st2 = log st1 ++ LogInfo "Rendering documentation..."
                    :: failure_line (rendering_of getDefaultTemplate later (today w2)) ∧
  ((∀ rethrown, rendering_of getDefaultTemplate backend (today w2)
                ≠ inl (Unreportable rethrown)) →
   snd (renderDocumentation backend st)
   = inr (page_of (rendering_of getDefaultTemplate backend (today w2)))) ∧
  ((∀ rethrown, rendering_of getDefaultTemplate later (today w2)
                ≠ inl (Unreportable rethrown)) →
   snd (renderDocumentation later st1)
   = inr (page_of (rendering_of getDefaultTemplate later (today w2)))).
Proof.
  intros templatePath Hcwd Hpresent Hdir Hmkdir Hwrite Hcwd2 Hpresent2 Hread st1 st2.
  assert (Hpage : ∀ r : Raised + string,
            (∀ rethrown, r ≠ inl (Unreportable rethrown)) →
            outcome_of r = inr (page_of r)).
  { intros [[thrown|rethrown]|html] Hr; [done| |done]. by destruct (Hr rethrown). }
  assert (Hst1 : renderDocumentation backend st
                 = ({| generatedBackend := generatedBackend st; world := w2;
                       log := ((log st ++ [LogInfo "Rendering documentation..."])
                               ++ [LogInfo "Created default documentation template"])
                              ++ failure_line (rendering_of getDefaultTemplate backend (today w2)) |},
                    outcome_of (rendering_of getDefaultTemplate backend (today w2)))).
  { rewrite render_state,
      (render_try_fresh backend st cwd w1 w2 Hcwd Hpresent Hdir Hmkdir Hwrite).
    fold templatePath. by rewrite Hread. }
  subst st2 st1. rewrite Hst1. cbn [fst snd world log].
  split; [reflexivity|]. split; [reflexivity|]. split.
  { apply in_or_app. left. apply in_or_app. right. by left. }
  rewrite render_state, (render_try_present later _ cwd) by done.
  cbn [fst snd world log]. fold templatePath. rewrite Hread.
  split; [reflexivity|]. split; [reflexivity|]. split; [by rewrite <- app_assoc|].
  split; apply Hpage.
Qed.

End Renderer.


Lemma template_created_once_witness :
  let st1 := fst (renderDocumentation SimHost.sample_backend (SimHost.initial fresh_disk)) in
  snd (renderDocumentation SimHost.sample_backend st1) = inr getDefaultTemplate.
Proof.
  intros st1.
  refine (proj1 (proj2 (proj2 (proj2 (proj2
            (template_created_once SimHost.sample_backend SimHost.sample_backend
               (SimHost.initial fresh_disk) "/app"
               {| SimHost.files := ∅;
                  SimHost.dirs := {["/app/src/templates"]} ∪ {["/app"]};
                  SimHost.read_only := false |}
               {| SimHost.files :=
                    <["/app/src/templates/documentation.ejs" := getDefaultTemplate]> ∅;
                  SimHost.dirs := {["/app/src/templates"]} ∪ {["/app"]};
                  SimHost.read_only := false |}
               eq_refl _ _ _ _ eq_refl _ _)))))).
  all: by vm_compute.
Defined.


Section Persistence.
Context {World : Type} `{Env World} `{BackendCodec}.

(** The run of [updateGeneratedBackend] when the directory exists and the
    write succeeds. *)
Lemma update_written (backend : GeneratedBackend) (st : State World)
    (cwd text : string) (w : World) :
  process_cwd (world st) = inr cwd →
  JSON_stringify backend = inr text →
  fs_existsSync (path_join [cwd; "src"; "generator"]) (world st) = true →
  fs_writeFileSync
    (path_join [path_join [cwd; "src"; "generator"]; "generated-backend.json"])
    text (world st) = (w, inr tt) →
  updateGeneratedBackend backend st
  = ({| generatedBackend := Some backend; world := w; log := log st |}, inr tt).
Proof.
  intros Hcwd Htext Hpresent Hwrite.
  unfold updateGeneratedBackend, save_try. run_m.
  rewrite Hcwd, Hpresent. cbn. by rewrite Htext, Hwrite.
Qed.

(** X18: when the data directory is missing and can be created, and the
    model can be serialized and written, [updateGeneratedBackend] creates
    the directory, writes the serialized model to
    [generated-backend.json] in it, logs nothing, and the model is the
    current one; when the directory exists it is not created again. *)
Theorem update_persists (backend : GeneratedBackend) (st : State World)
    (cwd text : string) (w1 w2 : World) :
  let dataPath := path_join [cwd; "src"; "generator"] in
  let file := path_join [dataPath; "generated-backend.json"] in
  process_cwd (world st) = inr cwd →
  JSON_stringify backend = inr text →
  (fs_existsSync dataPath (world st) = false →
   fs_mkdirSync dataPath (world st) = (w1, inr tt) →
   fs_writeFileSync file text w1 = (w2, inr tt) →
   updateGeneratedBackend backend st
   = ({| generatedBackend := Some backend; world := w2; log := log st |}, inr tt)) ∧
  (fs_existsSync dataPath (world st) = true →
   fs_writeFileSync file text (world st) = (w2, inr tt) →
   updateGeneratedBackend backend st
   = ({| generatedBackend := Some backend; world := w2; log := log st |}, inr tt)).
Proof.
  intros dataPath file Hcwd Htext. split.
  - intros Hpresent Hmkdir Hwrite.
    unfold updateGeneratedBackend, save_try. run_m.
    rewrite Hcwd. fold dataPath. rewrite Hpresent. cbn. rewrite Hmkdir. cbn.
    rewrite Htext. fold file. by rewrite Hwrite.
  - intros Hpresent Hwrite.
    unfold updateGeneratedBackend, save_try. run_m.
    rewrite Hcwd. fold dataPath. rewrite Hpresent. cbn.
    rewrite Htext. fold file. by rewrite Hwrite.
Qed.

(** X19: the persistence stops at its first failure. When the data
    directory cannot be created, or when the model cannot be serialized,
    nothing is written: the world is the one the failed [mkdir] left, or the
    one before the call; the error is logged and the model is the current
    one all the same. *)
Theorem update_stops_at_first_failure (backend : GeneratedBackend) (st : State World)
    (cwd : string) (error : Thrown) :
  let dataPath := path_join [cwd; "src"; "generator"] in
  process_cwd (world st) = inr cwd →
  (∀ w1, fs_existsSync dataPath (world st) = false →
         fs_mkdirSync dataPath (world st) = (w1, inl error) →
         updateGeneratedBackend backend st
         = ({| generatedBackend := Some backend; world := w1;
               log := log st ++ [LogError "Error saving generated backend data:" error] |},
            inr tt)) ∧
  (fs_existsSync dataPath (world st) = true →
   JSON_stringify backend = inl error →
   updateGeneratedBackend backend st
   = ({| generatedBackend := Some backend; world := world st;
         log := log st ++ [LogError "Error saving generated backend data:" error] |},
      inr tt)).
Proof.
  intros dataPath Hcwd. split.
  - intros w1 Hpresent Hmkdir.
    unfold updateGeneratedBackend, save_try. run_m.
    rewrite Hcwd. fold dataPath. rewrite Hpresent. cbn. by rewrite Hmkdir.
  - intros Hpresent Htext.
    unfold updateGeneratedBackend, save_try. run_m.
    rewrite Hcwd. fold dataPath. rewrite Hpresent. cbn. by rewrite Htext.
Qed.

(** The start-up load does not change the world. *)
Lemma load_try_world (st : State World) :
  world (fst (load_try st)) = world st.
Proof.
  unfold load_try. run_m.
  destruct (process_cwd (world st)) as [?|cwd]; cbn; [done|].
  destruct (fs_existsSync _ (world st)); cbn; [|done].
  destruct (fs_readFileSync _ (world st)) as [?|data]; cbn; [done|].
  by destruct (parse_backend data) as [?|[| |backend]].
Qed.

(** What the start-up load throws is an [Error], or another value that the
    logger reports: it comes from [process.cwd], [fs], [JSON.parse] or the
    read of [name] of [null]. *)
Lemma load_try_reportable (st : State World) (error : Raised) :
  snd (load_try st) = inl error → ∃ thrown, error = Reportable thrown.
Proof.
  unfold load_try. run_m.
  destruct (process_cwd (world st)) as [?|cwd]; cbn; [intros [= <-]; eauto|].
  destruct (fs_existsSync _ (world st)); cbn; [|done].
  destruct (fs_readFileSync _ (world st)) as [?|data]; cbn; [intros [= <-]; eauto|].
  destruct (parse_backend data) as [?|[| |backend]]; cbn;
    [intros [= <-]; eauto|intros [= <-]; eauto|done|done].
Qed.

(** X20: the start-up load never throws and never changes the file system.
    Without a persisted file it changes nothing at all. When the file cannot
    be read or decoded, the current model stays as it was and the error is
    logged. When the file holds [null], no model is current afterwards and
    an error is logged, the one thrown by reading [name] of [null]. *)
Theorem load_edge_cases (st : State World) (cwd : string) :
  let file := path_join [cwd; "src"; "generator"; "generated-backend.json"] in
  snd (loadGeneratedBackend st) = inr tt ∧
  world (fst (loadGeneratedBackend st)) = world st ∧
  (process_cwd (world st) = inr cwd →
   (fs_existsSync file (world st) = false → fst (loadGeneratedBackend st) = st) ∧
   (fs_existsSync file (world st) = true →
    (∀ error, fs_readFileSync file (world st) = inl error →
       fst (loadGeneratedBackend st)
       = {| generatedBackend := generatedBackend st; world := world st;
            log := log st ++ [LogError "Error loading generated backend data:" error] |}) ∧
    (∀ data error, fs_readFileSync file (world st) = inr data →
       parse_backend data = inl error →
       fst (loadGeneratedBackend st)
       = {| generatedBackend := generatedBackend st; world := world st;
            log := log st ++ [LogError "Error loading generated backend data:" error] |}) ∧
    (∀ data, fs_readFileSync file (world st) = inr data →
       parse_backend data = inr DNull →
       fst (loadGeneratedBackend st)
       = {| generatedBackend := None; world := world st;
            log := log st ++ [LogError "Error loading generated backend data:"
                                (ErrorInstance "Cannot read properties of null (reading 'name')")] |}))).
Proof.
  intros file. pose proof (load_try_reportable st) as Hreportable. split; [|split].
  - unfold loadGeneratedBackend. rewrite try_catch_result.
    destruct (snd (load_try st)) as [error|[]]; [|done].
    by destruct (Hreportable error eq_refl) as [thrown ->].
  - unfold loadGeneratedBackend. rewrite try_catch_result.
    pose proof (load_try_world st) as Hw.
    by destruct (snd (load_try st)) as [?|[]].
  - intros Hcwd. split; [|intros Hpresent; split; [|split]].
    + intros Hpresent. unfold loadGeneratedBackend, load_try. run_m.
      rewrite Hcwd. fold file. rewrite Hpresent. by destruct st.
    + intros error Hread. unfold loadGeneratedBackend, load_try. run_m.
      rewrite Hcwd. fold file. rewrite Hpresent. cbn. by rewrite Hread.
    + intros data error Hread Hparse. unfold loadGeneratedBackend, load_try. run_m.
      rewrite Hcwd. fold file. rewrite Hpresent. cbn. rewrite Hread. cbn.
      by rewrite Hparse.
    + intros data Hread Hparse. unfold loadGeneratedBackend, load_try. run_m.
      rewrite Hcwd. fold file. rewrite Hpresent. cbn. rewrite Hread. cbn.
      by rewrite Hparse.
Qed.

(** X21: a model that was persisted is the current model again after a
    restart. If [updateGeneratedBackend] wrote the file, the file then
    exists and reads back as written, and the written text decodes to the
    model, then the start-up load of a process that starts in that world
    installs the model and logs its name. *)
Theorem persisted_model_is_reloaded (backend : GeneratedBackend) (st : State World)
    (cwd text : string) (w : World) :
  let dataPath := path_join [cwd; "src"; "generator"] in
  let file := path_join [dataPath; "generated-backend.json"] in
  process_cwd (world st) = inr cwd →
  fs_existsSync dataPath (world st) = true →
  JSON_stringify backend = inr text →
  fs_writeFileSync file text (world st) = (w, inr tt) →
  path_join [cwd; "src"; "generator"; "generated-backend.json"] = file →
  process_cwd w = inr cwd →
  fs_existsSync file w = true →
  fs_readFileSync file w = inr text →
  parse_backend text = inr (DBackend backend) →
  let st1 := fst (updateGeneratedBackend backend st) in
  loadGeneratedBackend (restarted st1)
  = ({| generatedBackend := Some backend; world := w;
        log := log st ++ [LogInfo ("Loaded generated backend: "
                                   +:+ default "undefined" (be_name backend))] |},
     inr tt).
Proof.
  intros dataPath file Hcwd Hpresent Htext Hwrite Hjoin Hcwd' Hpresent' Hread Hparse st1.
  subst st1.
  rewrite (update_written backend st cwd text w Hcwd Htext Hpresent Hwrite).
  unfold restarted, loadGeneratedBackend, load_try. run_m.
  rewrite Hcwd', Hjoin, Hpresent'. cbn. rewrite Hread. cbn. by rewrite Hparse.
Qed.

(** X22: the documentation route always answers, with 404, 200 or 500. It
    answers 404 exactly when no model is current, and then leaves the state
    as it was. With a current model it answers 200 with an HTML body: the
    rendered page, or the error page when the [try] block of the renderer
    threw an [Error] or another value that the logger reports. It answers
    500 exactly when that block threw a value that the logger cannot report:
    then the renderer throws what the logger threw, and the body of the
    answer carries the message of that. *)
Theorem docs_route_answers (st : State World) :
  ∃ r, snd (docs st) = inr r ∧
       (status r = 200 ∨ status r = 404 ∨ status r = 500) ∧
       (status r = 404 ↔ generatedBackend st = None) ∧
       (generatedBackend st = None → r = no_backend ∧ fst (docs st) = st) ∧
       (∀ backend, generatedBackend st = Some backend →
          match snd (render_try backend st) with
          | inr html => r = {| status := 200; body := Html html |}
          | inl (Reportable thrown) =>
              r = {| status := 200; body := Html (error_page thrown) |}
          | inl (Unreportable rethrown) =>
              r = {| status := 500;
                     body := error_body "Failed to render documentation"
                               (raised_message rethrown) |}
          end) ∧
       (status r = 500
        ↔ ∃ backend rethrown, generatedBackend st = Some backend ∧
            snd (render_try backend st) = inl (Unreportable rethrown)).
Proof.
  unfold docs. destruct (generatedBackend st) as [backend|] eqn:Hmodel.
  - rewrite try_catch_result. unfold mbind, M_bind. rewrite render_state.
    cbn [fst snd].
    destruct (snd (render_try backend st)) as [[thrown|rethrown]|html] eqn:Hblock;
      cbn; (eexists; split; [reflexivity|]); cbn.
    + split; [by left|]. split; [by split|]. split; [done|].
      split; [intros ? [= <-]; by rewrite Hblock|].
      split; [discriminate|]. by intros (b & rethrown & [= <-] & Hb); rewrite Hblock in Hb.
    + split; [by right; right|]. split; [by split|]. split; [done|].
      split; [intros ? [= <-]; by rewrite Hblock|].
      split; [|done]. intros _. by exists backend, rethrown.
    + split; [by left|]. split; [by split|]. split; [done|].
      split; [intros ? [= <-]; by rewrite Hblock|].
      split; [discriminate|]. by intros (b & rethrown & [= <-] & Hb); rewrite Hblock in Hb.
  - exists no_backend. cbn. split; [done|]. split; [by right; left|]. split; [done|].
    split; [done|]. split; [discriminate|].
    split; [discriminate|]. by intros (b & rethrown & [=] & _).
Qed.

(** X23: the preview route shows the model of the latest update, whether
    or not that update could be persisted, and answers 404 as long as no
    model is current. *)
Theorem preview_follows_update (first second : GeneratedBackend) (st : State World) :
  preview (fst (updateGeneratedBackend second st))
  = {| status := 200; body := Model second |} ∧
  preview (fst (updateGeneratedBackend second (fst (updateGeneratedBackend first st))))
  = {| status := 200; body := Model second |} ∧
  (generatedBackend st = None → preview st = no_backend).
Proof.
  assert (Hafter : ∀ b s, generatedBackend (fst (updateGeneratedBackend b s)) = Some b).
  { intros b s. rewrite update_unfold, try_catch_result.
    destruct (save_try_backend b (installed b s)) as [Hmodel _].
    by destruct (snd (save_try b (installed b s))) as [?|[]]. }
  unfold preview. rewrite !Hafter. split; [done|]. split; [done|]. by intros ->.
Qed.

End Persistence.

Lemma update_persists_witness :
  updateGeneratedBackend SimHost.sample_backend (SimHost.initial fresh_disk)
  = ({| generatedBackend := Some SimHost.sample_backend;
        world := {| SimHost.files :=
                      <["/app/src/generator/generated-backend.json" := sample_text]> ∅;
                    SimHost.dirs := {["/app/src/generator"]} ∪ {["/app"]};
                    SimHost.read_only := false |};
        log := [] |}, inr tt).
Proof.
  refine (proj1 (update_persists SimHost.sample_backend (SimHost.initial fresh_disk)
                   "/app" sample_text
                   {| SimHost.files := ∅;
                      SimHost.dirs := {["/app/src/generator"]} ∪ {["/app"]};
                      SimHost.read_only := false |}
                   _ eq_refl eq_refl) _ _ _).
  all: by vm_compute.
Defined.

Lemma update_stops_at_first_failure_witness :
  updateGeneratedBackend SimHost.sample_backend
    (SimHost.initial {| SimHost.files := ∅; SimHost.dirs := {["/app"]};
                        SimHost.read_only := true |})
  = ({| generatedBackend := Some SimHost.sample_backend;
        world := {| SimHost.files := ∅; SimHost.dirs := {["/app"]};
                    SimHost.read_only := true |};
        log := [LogError "Error saving generated backend data:"
                  (ErrorInstance "EROFS: read-only file system, mkdir '/app/src/generator'")] |},
     inr tt).
Proof.
  refine (proj1 (update_stops_at_first_failure SimHost.sample_backend
                   (SimHost.initial {| SimHost.files := ∅; SimHost.dirs := {["/app"]};
                                       SimHost.read_only := true |})
                   "/app"
                   (ErrorInstance "EROFS: read-only file system, mkdir '/app/src/generator'")
                   eq_refl) _ _ _).
  all: by vm_compute.
Defined.

Lemma load_edge_cases_witness :
  fst (@loadGeneratedBackend SimHost.Disk SimHost.disk_env sample_backend_codec
         (SimHost.initial fresh_disk))
  = SimHost.initial fresh_disk.
Proof.
  refine (proj1 (proj2 (proj2 (@load_edge_cases SimHost.Disk SimHost.disk_env
                                 sample_backend_codec (SimHost.initial fresh_disk) "/app"))
                   eq_refl) _).
  by vm_compute.
Defined.

Lemma persisted_model_is_reloaded_witness :
  let disk := {| SimHost.files := ∅;
                 SimHost.dirs := {["/app"; "/app/src/generator"]};
                 SimHost.read_only := false |} in
  generatedBackend
    (fst (@loadGeneratedBackend SimHost.Disk SimHost.disk_env sample_backend_codec
            (restarted (fst (updateGeneratedBackend SimHost.sample_backend
                               (SimHost.initial disk))))))
  = Some SimHost.sample_backend.
Proof.
  intros disk.
  rewrite (@persisted_model_is_reloaded SimHost.Disk SimHost.disk_env sample_backend_codec
             SimHost.sample_backend (SimHost.initial disk) "/app" sample_text
             {| SimHost.files :=
                  <["/app/src/generator/generated-backend.json" := sample_text]> ∅;
                SimHost.dirs := {["/app"; "/app/src/generator"]};
                SimHost.read_only := false |}).
  - reflexivity.
  - reflexivity.
  - by vm_compute.
  - reflexivity.
  - by vm_compute.
  - reflexivity.
  - reflexivity.
  - by vm_compute.
  - by vm_compute.
  - by vm_compute.
Defined.

Lemma docs_route_answers_witness :
  (∃ r, snd (docs {| generatedBackend := Some SimHost.sample_backend;
                     world := SimHost.throwing_template_disk; log := [] |}) = inr r ∧
        r = {| status := 500;
               body := error_body "Failed to render documentation"
                         "Converting circular structure to JSON" |}) ∧
  (∃ r, snd (docs {| generatedBackend := Some SimHost.sample_backend;
                     world := SimHost.template_is_directory; log := [] |}) = inr r ∧
        r = {| status := 200;
               body := Html (error_page (ErrorInstance
                         "EISDIR: illegal operation on a directory, read")) |}) ∧
  (∃ r, snd (docs (SimHost.initial fresh_disk)) = inr r ∧ r = no_backend).
Proof.
  split; [|split].
  - destruct (docs_route_answers
                {| generatedBackend := Some SimHost.sample_backend;
                   world := SimHost.throwing_template_disk; log := [] |})
      as (r & Hr & _ & _ & _ & Hmodel & _).
    exists r. split; [exact Hr|]. exact (Hmodel SimHost.sample_backend eq_refl).
  - destruct (docs_route_answers
                {| generatedBackend := Some SimHost.sample_backend;
                   world := SimHost.template_is_directory; log := [] |})
      as (r & Hr & _ & _ & _ & Hmodel & _).
    exists r. split; [exact Hr|]. exact (Hmodel SimHost.sample_backend eq_refl).
  - destruct (docs_route_answers (SimHost.initial fresh_disk))
      as (r & Hr & _ & _ & Hnone & _).
    exists r. split; [exact Hr|]. by apply Hnone.
Defined.

Lemma preview_follows_update_witness :
  preview (SimHost.initial fresh_disk) = no_backend.
Proof.
  exact (proj2 (proj2 (preview_follows_update SimHost.sample_backend
                         SimHost.sample_backend (SimHost.initial fresh_disk))) eq_refl).
Defined.

(** X24: [POST /api/movies] throws exactly when the body is [null], and
    then what it throws is the TypeError of destructuring [null]. On every
    other body it answers. It answers 200 exactly when the body has truthy
    [name], [description] and [releaseYear] members, and then echoes these
    three members and nothing else of the body; otherwise (a member absent,
    an empty text, the year [0], [false], [null]) it answers 400 "Missing
    required fields". *)
Theorem post_movie_validation (payload : json) :
  ((∃ thrown, post_movie payload = inl thrown) ↔ payload = JNull) ∧
  (payload = JNull →
   post_movie payload = inl (ErrorInstance
     "Cannot destructure property 'name' of 'req.body' as it is null.")) ∧
  (payload ≠ JNull →
   ∃ r, post_movie payload = inr r ∧
     (status r = 200 ∨ status r = 400) ∧
     (status r = 200
      ↔ truthy_opt (TranslatorSpec.member payload "name") = true ∧
        truthy_opt (TranslatorSpec.member payload "description") = true ∧
        truthy_opt (TranslatorSpec.member payload "releaseYear") = true) ∧
     (status r = 200 →
      ∃ name description releaseYear,
        TranslatorSpec.member payload "name" = Some name ∧
        TranslatorSpec.member payload "description" = Some description ∧
        TranslatorSpec.member payload "releaseYear" = Some releaseYear ∧
        body r = Json (JObj [("success", JBool true);
                             ("movie", JObj [("name", name);
                                             ("description", description);
                                             ("releaseYear", releaseYear)])])) ∧
     (status r = 400 →
      body r = error_body "Missing required fields"
                 "Please provide name, description, and releaseYear")).
Proof.
  assert (Hfields : payload ≠ JNull →
            movie_fields payload
            = inr (TranslatorSpec.member payload "name",
                   TranslatorSpec.member payload "description",
                   TranslatorSpec.member payload "releaseYear")).
  { intros Hnull. by destruct payload. }
  assert (Hanswer : payload ≠ JNull →
            ∃ r, post_movie payload = inr r ∧
              (status r = 200 ∨ status r = 400) ∧
              (status r = 200
               ↔ truthy_opt (TranslatorSpec.member payload "name") = true ∧
                 truthy_opt (TranslatorSpec.member payload "description") = true ∧
                 truthy_opt (TranslatorSpec.member payload "releaseYear") = true) ∧
              (status r = 200 →
               ∃ name description releaseYear,
                 TranslatorSpec.member payload "name" = Some name ∧
                 TranslatorSpec.member payload "description" = Some description ∧
                 TranslatorSpec.member payload "releaseYear" = Some releaseYear ∧
                 body r = Json (JObj [("success", JBool true);
                                      ("movie", JObj [("name", name);
                                                      ("description", description);
                                                      ("releaseYear", releaseYear)])])) ∧
              (status r = 400 →
               body r = error_body "Missing required fields"
                          "Please provide name, description, and releaseYear")).
  { intros Hnull. unfold post_movie. rewrite Hfields by done.
    destruct (TranslatorSpec.member payload "name") as [name|]; cbn;
      [destruct (truthy name); cbn|];
      try (eexists; split; [reflexivity|]; cbn; intuition (try discriminate; try lia)).
    destruct (TranslatorSpec.member payload "description") as [description|]; cbn;
      [destruct (truthy description); cbn|];
      try (eexists; split; [reflexivity|]; cbn; intuition (try discriminate; try lia)).
    destruct (TranslatorSpec.member payload "releaseYear") as [releaseYear|]; cbn;
      [destruct (truthy releaseYear); cbn|];
      try (eexists; split; [reflexivity|]; cbn; intuition (try discriminate; try lia)).
    eauto 10. }
  assert (Hcases : payload = JNull ∨ payload ≠ JNull).
  { destruct payload; (by left) || (by right). }
  split; [|split].
  - split; [|intros ->; by eexists].
    intros [thrown Hthrown]. destruct Hcases as [|Hnull]; [done|].
    destruct (Hanswer Hnull) as (r & Hr & _). congruence.
  - by intros ->.
  - exact Hanswer.
Qed.

Lemma post_movie_validation_witness :
  post_movie (JObj [("name", JStr "Alien"); ("description", JStr "A crew");
                    ("releaseYear", JNum 0)])
  = inr {| status := 400;
           body := error_body "Missing required fields"
                     "Please provide name, description, and releaseYear" |} ∧
  ∃ r, post_movie (JObj [("name", JStr "Alien"); ("description", JStr "A crew");
                         ("releaseYear", JNum 1979); ("rating", JNum 9)]) = inr r ∧
       status r = 200 ∧
       body r = Json (JObj [("success", JBool true);
                            ("movie", JObj [("name", JStr "Alien");
                                            ("description", JStr "A crew");
                                            ("releaseYear", JNum 1979)])]).
Proof.
  split.
  - destruct (proj2 (proj2 (post_movie_validation
                (JObj [("name", JStr "Alien"); ("description", JStr "A crew");
                       ("releaseYear", JNum 0)]))))
      as (r & Hr & Hstatus & Hok & _ & Hbad); [discriminate|].
    rewrite Hr. f_equal. destruct r as [code sent]. cbn in *.
    destruct Hstatus as [->| ->].
    + destruct (proj1 Hok eq_refl) as (_ & _ & Hyear). discriminate.
    + by rewrite (Hbad eq_refl).
  - destruct (proj2 (proj2 (post_movie_validation
                (JObj [("name", JStr "Alien"); ("description", JStr "A crew");
                       ("releaseYear", JNum 1979); ("rating", JNum 9)]))))
      as (r & Hr & _ & Hok & Hecho & _); [discriminate|].
    exists r. split; [exact Hr|].
    assert (Hstatus : status r = 200) by (apply Hok; by vm_compute).
    split; [exact Hstatus|].
    destruct (Hecho Hstatus) as (name & description & releaseYear & Hn & Hd & Hy & ->).
    cbn in Hn, Hd, Hy. by injection Hn as <-; injection Hd as <-; injection Hy as <-.
Defined.

End RoutesFacts.

(** * Properties of the node registry and of the logger *)

Module NodesFacts.
Import JS Types Host Nodes NodesSpec.

Lemma endsWith_empty (suffix : string) :
  endsWith suffix EmptyString = true → suffix = EmptyString.
Proof. cbn. rewrite orb_false_r. apply String.eqb_eq. Qed.

(** The round trip of the file name: for a compiled file, the node name
    followed by [.js] is the file name. *)
Lemma strip_js_round_trip (file : string) :
  endsWith ".js" file = true → strip_js file +:+ ".js" = file.
Proof.
  induction file as [|c rest IH]; [intros Habs; by apply endsWith_empty in Habs|].
  cbn [endsWith strip_js].
  destruct (String.eqb_spec (String c rest) ".js") as [->|Hne]; [reflexivity|].
  destruct (String.eqb_spec ".js" (String c rest)) as [Heq|_]; [congruence|].
  cbn [orb]. intros Hrest. change (String c (strip_js rest +:+ ".js") = String c rest).
  f_equal. by apply IH.
Qed.

Lemma strip_js_chars (file : string) (c : ascii) :
  In c (list_ascii_of_string (strip_js file)) → In c (list_ascii_of_string file).
Proof.
  induction file as [|a rest IH]; [done|]. cbn [strip_js].
  destruct (String.eqb (String a rest) ".js"); [intros []|].
  cbn. intros [->|Hin]; [by left|right; by apply IH].
Qed.

Section Registry.
Context {World NodeClass Node : Type} `{Env World} `{Loader World NodeClass Node}.

(** What one round of the loop does to the registry. *)
Lemma load_file_spec (nodesDir file : string) (r : Registry World Node) (n : nat) :
  ∃ added errors,
    nodeMap (fst (fst (load_file nodesDir (r, n) file))) = nodeMap r ++ added ∧
    snd (fst (load_file nodesDir (r, n) file)) = n + length added ∧
    reg_log (fst (fst (load_file nodesDir (r, n) file))) = reg_log r ++ errors ∧
    (fst <$> added) `sublist_of` [strip_js file] ∧
    Forall (load_error_line [file]) errors ∧
    (length added + length errors ≤ 1)%nat ∧
    match snd (load_file nodesDir (r, n) file) with
    | inr _ => Forall reported errors
    | inl thrown => ∃ call, errors = [call] ∧ logged call = inl thrown
    end.
Proof.
  assert (Hfailed : ∀ (w : World) (error : Raised),
    let call := LogError ("Error loading node from file " +:+ file +:+ ":") error in
    ∃ added errors,
      nodeMap (with_log (with_world r w) call) = nodeMap r ++ added ∧
      n = n + length added ∧
      reg_log (with_log (with_world r w) call) = reg_log r ++ errors ∧
      (fst <$> added) `sublist_of` [strip_js file] ∧
      Forall (load_error_line [file]) errors ∧
      (length added + length errors ≤ 1)%nat ∧
      match logged call with
      | inr _ => Forall reported errors
      | inl thrown => ∃ call', errors = [call'] ∧ logged call' = inl thrown
      end).
  { intros w error call. exists [], [call]. cbn [length nodeMap with_log with_world reg_log].
    rewrite app_nil_r. split; [done|]. split; [lia|]. split; [done|].
    split; [apply sublist_nil_l|]. split; [|split; [cbn; lia|]].
    - constructor; [|done]. exists file, error. split; [by left|done].
    - destruct (logged call) as [thrown|[]] eqn:Hcall; [by exists call|].
      by constructor. }
  unfold load_file.
  destruct (require_default _ (reg_world r)) as [w [error|[class|]]]; cbn [fst snd].
  - apply Hfailed.
  - destruct (construct class w) as [w' [error|node]]; cbn [fst snd].
    + apply Hfailed.
    + exists [(strip_js file, node)], []. cbn. rewrite app_nil_r.
      repeat split; [lia|done|done|lia|done].
  - exists [], []. cbn. rewrite !app_nil_r.
    repeat split; [lia|apply sublist_nil_l|done|lia|done].
Qed.

(** What the loop of [initializeCustomNodes] does to the registry. *)
Lemma load_files_spec (nodesDir : string) (files : list string)
    (r : Registry World Node) (n : nat) :
  ∃ added errors,
    nodeMap (fst (fst (load_files nodesDir (r, n) files))) = nodeMap r ++ added ∧
    snd (fst (load_files nodesDir (r, n) files)) = n + length added ∧
    reg_log (fst (fst (load_files nodesDir (r, n) files))) = reg_log r ++ errors ∧
    (fst <$> added) `sublist_of` (strip_js <$> files) ∧
    Forall (load_error_line files) errors ∧
    (length added + length errors ≤ length files)%nat ∧
    match snd (load_files nodesDir (r, n) files) with
    | inr _ => Forall reported errors
    | inl thrown =>
        ∃ earlier call, errors = earlier ++ [call] ∧ Forall reported earlier ∧
                        logged call = inl thrown
    end.
Proof.
  revert r n. induction files as [|file files IH]; intros r n.
  - exists [], []. cbn. rewrite !app_nil_r. repeat split; [lia|done|done|lia|done].
  - cbn [load_files].
    destruct (load_file_spec nodesDir file r n)
      as (added0 & errors0 & Hmap0 & Hn0 & Hlog0 & Hsub0 & Herr0 & Hlen0 & Hout0).
    assert (Herr0' : Forall (load_error_line (file :: files)) errors0).
    { eapply Forall_impl; [exact Herr0|].
      intros call (f & e & Hf & ->). exists f, e. split; [|done].
      apply list_elem_of_singleton in Hf as ->. by left. }
    destruct (load_file nodesDir (r, n) file) as [[r1 n1] [thrown|[]]] eqn:Hload;
      cbn [fst snd] in *.
    + exists added0, errors0. split; [done|]. split; [done|]. split; [done|].
      split; [|split; [done|split; [cbn [length]; lia|]]].
      * rewrite <- (app_nil_r (fst <$> added0)).
        change (strip_js <$> file :: files) with ([strip_js file] ++ (strip_js <$> files)).
        apply sublist_app; [done|apply sublist_nil_l].
      * destruct Hout0 as (call & -> & Hcall). by exists [], call.
    + subst n1.
      destruct (IH r1 (n + length added0))
        as (added & errors & Hmap & Hn & Hlog & Hsub & Herr & Hlen & Hout).
      exists (added0 ++ added), (errors0 ++ errors).
      rewrite Hmap, Hn, Hlog, Hmap0, Hlog0, !length_app, <- !app_assoc.
      split; [done|]. split; [lia|]. split; [done|]. split; [|split; [|split]].
      * rewrite fmap_app.
        change (strip_js <$> file :: files) with ([strip_js file] ++ (strip_js <$> files)).
        by apply sublist_app.
      * apply Forall_app. split; [done|].
        eapply Forall_impl; [exact Herr|].
        intros call (f & e & Hf & ->). exists f, e. split; [by right|done].
      * cbn [length]. lia.
      * destruct (snd (load_files nodesDir (r1, n + length added0) files)) as [thrown|[]].
        -- destruct Hout as (earlier & call & -> & Hearlier & Hcall).
           exists (errors0 ++ earlier), call. rewrite <- app_assoc.
           split; [done|]. split; [|done]. by apply Forall_app.
        -- by apply Forall_app.
Qed.

Lemma compiled_elem (files : list string) (file : string) :
  file ∈ compiled files ↔ file ∈ files ∧ endsWith ".js" file = true.
Proof.
  unfold compiled. rewrite !list_elem_of_In, filter_In. done.
Qed.

(** [initializeCustomNodes] from the run of its loop. *)
Lemma custom_nodes_unfold (r : Registry World Node) (cwd : string)
    (files : list string) :
  process_cwd (reg_world r) = inr cwd →
  fs_existsSync (path_join [cwd; "dist"; "nodes"]) (reg_world r) = true →
  fs_readdirSync (path_join [cwd; "dist"; "nodes"]) (reg_world r) = inr files →
  initializeCustomNodes r
  = match load_files (path_join [cwd; "dist"; "nodes"]) (r, 0) (compiled files) with
    | ((r', loadedCount), inr _) =>
        (with_log r' (LogInfo ("Initialized " +:+ pretty loadedCount +:+ " custom nodes")),
         inr tt)
    | ((r', _), inl thrown) => (r', inl thrown)
    end.
Proof.
  intros Hcwd Hpresent Hlist. unfold initializeCustomNodes.
  by rewrite Hcwd, Hpresent, Hlist.
Qed.

(** The names registered by [initializeCustomNodes] are those of listed
    files. *)
Lemma custom_names_listed (r : Registry World Node) (cwd : string)
    (files : list string) :
  process_cwd (reg_world r) = inr cwd →
  fs_existsSync (path_join [cwd; "dist"; "nodes"]) (reg_world r) = true →
  fs_readdirSync (path_join [cwd; "dist"; "nodes"]) (reg_world r) = inr files →
  ∃ added,
    nodeMap (fst (initializeCustomNodes r)) = nodeMap r ++ added ∧
    ∀ name, name ∈ (fst <$> added) → name +:+ ".js" ∈ files.
Proof.
  intros Hcwd Hpresent Hlist.
  rewrite (custom_nodes_unfold r cwd files Hcwd Hpresent Hlist).
  destruct (load_files_spec (path_join [cwd; "dist"; "nodes"]) (compiled files) r 0)
    as (added & errors & Hmap & _ & _ & Hsub & _).
  destruct (load_files _ (r, 0) (compiled files)) as [[r' n'] [thrown|[]]];
    cbn [fst snd nodeMap with_log] in *.
  all: exists added; split; [exact Hmap|].
  all: intros name Hname.
  all: assert (Hin : name ∈ (strip_js <$> compiled files))
         by (by apply (sublist_subseteq _ _ Hsub)).
  all: apply list_elem_of_fmap in Hin as (file & -> & Hfile).
  all: apply compiled_elem in Hfile as [Hfile Hjs].
  all: by rewrite strip_js_round_trip.
Qed.


(** X26: without a directory of compiled nodes, [initializeCustomNodes]
    registers nothing, loads nothing (the world is untouched), logs one
    warning and returns. It throws when the working directory cannot be
    told or when the existing directory cannot be listed, with the error of
    that and leaving the registry as it was; and it throws in one more case
    only: when the listing was read and the last line of the log is the
    error line of a compiled file, carrying a value that the logger cannot
    report; then it throws what the logger threw. *)
Theorem custom_nodes_without_directory (r : Registry World Node) :
  (∀ cwd, process_cwd (reg_world r) = inr cwd →
     fs_existsSync (path_join [cwd; "dist"; "nodes"]) (reg_world r) = false →
     initializeCustomNodes r
     = ({| nodeMap := nodeMap r; reg_world := reg_world r;
           reg_log := reg_log r
                      ++ [LogInfo "[WARN] Compiled nodes directory does not exist"] |},
        inr tt)) ∧
  (∀ error, process_cwd (reg_world r) = inl error →
     initializeCustomNodes r = (r, inl (Reportable error))) ∧
  (∀ cwd error, process_cwd (reg_world r) = inr cwd →
     fs_existsSync (path_join [cwd; "dist"; "nodes"]) (reg_world r) = true →
     fs_readdirSync (path_join [cwd; "dist"; "nodes"]) (reg_world r) = inl error →
     initializeCustomNodes r = (r, inl (Reportable error))) ∧
  (∀ error, snd (initializeCustomNodes r) = inl error ↔
     (∃ thrown, error = Reportable thrown ∧ process_cwd (reg_world r) = inl thrown)
     ∨ ∃ cwd, process_cwd (reg_world r) = inr cwd ∧
         fs_existsSync (path_join [cwd; "dist"; "nodes"]) (reg_world r) = true ∧
         ((∃ thrown, error = Reportable thrown ∧
             fs_readdirSync (path_join [cwd; "dist"; "nodes"]) (reg_world r) = inl thrown)
          ∨ ∃ files file,
              fs_readdirSync (path_join [cwd; "dist"; "nodes"]) (reg_world r) = inr files ∧
              file ∈ compiled files ∧
              last (reg_log (fst (initializeCustomNodes r)))
              = Some (LogError ("Error loading node from file " +:+ file +:+ ":")
                        (Unreportable error)))).
Proof.
  split; [|split; [|split]].
  - intros cwd Hcwd Hpresent. unfold initializeCustomNodes.
    by rewrite Hcwd, Hpresent.
  - intros error Hcwd. unfold initializeCustomNodes. by rewrite Hcwd.
  - intros cwd error Hcwd Hpresent Hlist. unfold initializeCustomNodes.
    by rewrite Hcwd, Hpresent, Hlist.
  - intros error.
    destruct (process_cwd (reg_world r)) as [e|cwd] eqn:Hcwd.
    { unfold initializeCustomNodes. rewrite Hcwd. cbn. split.
      - intros [= <-]. left. by exists e.
      - intros [(thrown & -> & [= ->])|(? & ? & _)]; [done|discriminate]. }
    destruct (fs_existsSync (path_join [cwd; "dist"; "nodes"]) (reg_world r)) eqn:Hpresent.
    2:{ unfold initializeCustomNodes. rewrite Hcwd, Hpresent. cbn. split; [discriminate|].
        intros [(? & _ & ?)|(cwd' & [= <-] & Hp & _)]; [discriminate|]. congruence. }
    destruct (fs_readdirSync (path_join [cwd; "dist"; "nodes"]) (reg_world r))
      as [e|files] eqn:Hlist.
    { unfold initializeCustomNodes. rewrite Hcwd, Hpresent, Hlist. cbn. split.
      - intros [= <-]. right. exists cwd. split; [done|]. split; [done|]. left. by exists e.
      - intros [(? & _ & ?)|(cwd' & [= <-] & _ & [(thrown & -> & Hl)|(fs & ? & Hl & _)])];
          [discriminate| |]; rewrite Hlist in Hl; congruence. }
    rewrite (custom_nodes_unfold r cwd files Hcwd Hpresent Hlist).
    destruct (load_files_spec (path_join [cwd; "dist"; "nodes"]) (compiled files) r 0)
      as (added & errors & _ & _ & Hlog & _ & Herr & _ & Hout).
    destruct (load_files _ (r, 0) (compiled files)) as [[r' n'] [thrown|[]]];
      cbn [fst snd reg_log with_log] in *.
    + destruct Hout as (earlier & call & -> & _ & Hcall).
      apply Forall_app in Herr as [_ Herr]. rewrite Forall_singleton in Herr.
      destruct Herr as (file & value & Hfile & ->).
      assert (Hvalue : value = Unreportable thrown).
      { unfold logged in Hcall. destruct value as [?|rethrown]; [done|].
        by injection Hcall as ->. }
      assert (Hlast : last (reg_log r') = Some (LogError ("Error loading node from file "
                                                         +:+ file +:+ ":") value)).
      { by rewrite Hlog, app_assoc, last_snoc. }
      split.
      * intros [= <-]. right. exists cwd. split; [done|]. split; [done|]. right.
        exists files, file. by rewrite <- Hvalue.
      * intros [(? & _ & ?)|(cwd' & [= <-] & _ & [(? & _ & Hl)|(fs & f & _ & _ & Hl)])];
          [discriminate|rewrite Hlist in Hl; discriminate|].
        rewrite Hlast in Hl. injection Hl as _ Hv. rewrite Hvalue in Hv.
        by injection Hv as ->.
    + split; [discriminate|].
      intros [(? & _ & ?)|(cwd' & [= <-] & _ & [(? & _ & Hl)|(fs & f & _ & _ & Hl)])];
        [discriminate|rewrite Hlist in Hl; discriminate|].
      by rewrite last_snoc in Hl.
Qed.

(** When every compiled file loads, the loop registers each of them. *)
Lemma load_files_all (nodesDir : string) (files : list string)
    (r : Registry World Node) (n : nat) :
  (∀ file w, file ∈ files →
     ∃ class w1 node w2,
       require_default (path_join [nodesDir; file]) w = (w1, inr (Some class)) ∧
       construct class w1 = (w2, inr node)) →
  (fst <$> nodeMap (fst (fst (load_files nodesDir (r, n) files))))
  = (fst <$> nodeMap r) ++ (strip_js <$> files) ∧
  snd (fst (load_files nodesDir (r, n) files)) = n + length files ∧
  reg_log (fst (fst (load_files nodesDir (r, n) files))) = reg_log r ∧
  snd (load_files nodesDir (r, n) files) = inr tt.
Proof.
  revert r n. induction files as [|file files IH]; intros r n Hall.
  - cbn. rewrite app_nil_r. repeat split. lia.
  - cbn [load_files].
    destruct (Hall file (reg_world r)) as (class & w1 & node & w2 & Hreq & Hnew); [by left|].
    assert (Hstep : load_file nodesDir (r, n) file
                    = (addNode (with_world r w2) (strip_js file) node, S n, inr tt)).
    { unfold load_file. by rewrite Hreq, Hnew. }
    rewrite Hstep.
    destruct (IH (addNode (with_world r w2) (strip_js file) node) (S n))
      as (Hmap & Hn & Hlog & Hout).
    { intros f w Hf. apply Hall. by right. }
    rewrite Hmap, Hn, Hlog, Hout. cbn. rewrite fmap_app, <- app_assoc. cbn.
    repeat split. lia.
Qed.

(** X27: when every [.js] file of the directory loads and its class can be
    constructed, in whatever state the earlier files left the world,
    [initializeCustomNodes] registers one node for each of them, in the
    order of the listing, logs no error and reports their number. *)
Theorem all_compiled_nodes_registered (r : Registry World Node) (cwd : string)
    (files : list string) :
  let nodesDir := path_join [cwd; "dist"; "nodes"] in
  process_cwd (reg_world r) = inr cwd →
  fs_existsSync nodesDir (reg_world r) = true →
  fs_readdirSync nodesDir (reg_world r) = inr files →
  (∀ file w, file ∈ compiled files →
     ∃ class w1 node w2,
       require_default (path_join [nodesDir; file]) w = (w1, inr (Some class)) ∧
       construct class w1 = (w2, inr node)) →
  (fst <$> nodeMap (fst (initializeCustomNodes r)))
  = (fst <$> nodeMap r) ++ (strip_js <$> compiled files) ∧
  reg_log (fst (initializeCustomNodes r))
  = reg_log r ++ [LogInfo ("Initialized " +:+ pretty (length (compiled files))
                           +:+ " custom nodes")].
Proof.
  intros nodesDir Hcwd Hpresent Hlist Hall.
  rewrite (custom_nodes_unfold r cwd files Hcwd Hpresent Hlist). fold nodesDir.
  destruct (load_files_all nodesDir (compiled files) r 0 Hall)
    as (Hmap & Hn & Hlog & Hout).
  destruct (load_files nodesDir (r, 0) (compiled files)) as [[r' n'] out].
  cbn [fst snd] in *. subst out. cbn [fst snd nodeMap reg_log with_log].
  split; [exact Hmap|]. by rewrite Hlog, Hn.
Qed.

(** X28: [initializeNodes] registers the two built-in nodes first, in a
    fixed order, and the custom nodes after them; when the names of a
    directory listing hold no slash, no custom node is registered under the
    name of a built-in node, so that a built-in node is never replaced. *)
Theorem built_in_nodes_first (r : Registry World Node) (nodes : list (string * Node)) :
  snd (initializeNodes r) = inr nodes →
  ∃ apiCall ifElse custom,
    nodes = nodeMap r ++ [("@nanoservice-ts/api-call", apiCall);
                          ("@nanoservice-ts/if-else", ifElse)] ++ custom ∧
    nodeMap (fst (initializeNodes r)) = nodes ∧
    ((∀ dir w files, fs_readdirSync dir w = inr files → Forall no_slash files) →
     ∀ name, name ∈ (fst <$> custom) → name ∉ built_in_names).
Proof.
  unfold initializeNodes, initializeBuiltInNodes.
  destruct (new_ApiCall (reg_world r)) as [w1 [?|apiCall]]; cbn; [discriminate|].
  destruct (new_IfElse w1) as [w2 [?|ifElse]]; cbn; [discriminate|].
  set (r2 := with_log _ _).
  destruct (initializeCustomNodes r2) as [r3 [?|[]]] eqn:Hcustom; cbn; [discriminate|].
  intros [= <-]. exists apiCall, ifElse.
  assert (Hmap2 : nodeMap r2 = nodeMap r ++ [("@nanoservice-ts/api-call", apiCall);
                                            ("@nanoservice-ts/if-else", ifElse)]).
  { subst r2. cbn. by rewrite <- app_assoc. }
  unfold initializeCustomNodes in Hcustom.
  destruct (process_cwd (reg_world r2)) as [?|cwd] eqn:Hcwd; [discriminate|].
  destruct (fs_existsSync _ (reg_world r2)) eqn:Hpresent; cbn [negb] in Hcustom.
  - destruct (fs_readdirSync _ (reg_world r2)) as [?|files] eqn:Hlist; [discriminate|].
    destruct (custom_names_listed r2 cwd files Hcwd Hpresent Hlist)
      as (added & Hmap & Hnames).
    unfold initializeCustomNodes in Hmap.
    rewrite Hcwd, Hpresent, Hlist in Hmap. cbn [negb] in Hmap.
    destruct (load_files _ _ _) as [[r' n'] [?|[]]]; [discriminate|].
    injection Hcustom as <-.
    cbn [fst nodeMap with_log] in Hmap.
    exists added. cbn [nodeMap with_log]. rewrite Hmap, Hmap2, <- app_assoc.
    split; [done|]. split; [done|].
    intros Hlisting name Hname Hbuilt.
    pose proof (Hnames name Hname) as Hfile.
    pose proof (Hlisting _ _ _ Hlist) as Hslash.
    rewrite Forall_forall in Hslash. apply (Hslash _ Hfile).
    unfold built_in_names in Hbuilt.
    apply elem_of_cons in Hbuilt as [->|Hbuilt]; [by vm_compute; tauto|].
    apply elem_of_cons in Hbuilt as [->|Hbuilt]; [by vm_compute; tauto|].
    by apply elem_of_nil in Hbuilt.
  - injection Hcustom as <-. exists []. cbn [nodeMap with_log].
    split; [exact Hmap2|]. split; [done|].
    intros _ name Hname. by apply elem_of_nil in Hname.
Qed.

End Registry.


Lemma custom_nodes_without_directory_witness :
  @initializeCustomNodes SimHost.Disk string string SimHost.disk_env
    NodesSamples.sample_loader (NodesSamples.empty_registry RoutesSpec.fresh_disk)
  = ({| nodeMap := []; reg_world := RoutesSpec.fresh_disk;
        reg_log := [LogInfo "[WARN] Compiled nodes directory does not exist"] |}, inr tt)
  ∧ snd (@initializeCustomNodes SimHost.Disk string string SimHost.disk_env
           NodesSamples.cyclic_loader
           (NodesSamples.empty_registry NodesSamples.compiled_disk))
    = inl (Reportable (ErrorInstance "Converting circular structure to JSON")).
Proof.
  split.
  - refine (proj1 (@custom_nodes_without_directory SimHost.Disk string string
                     SimHost.disk_env NodesSamples.sample_loader
                     (NodesSamples.empty_registry RoutesSpec.fresh_disk)) "/app" eq_refl _).
    by vm_compute.
  - apply (proj2 (proj2 (proj2 (@custom_nodes_without_directory SimHost.Disk string string
                     SimHost.disk_env NodesSamples.cyclic_loader
                     (NodesSamples.empty_registry NodesSamples.compiled_disk))))).
    right. exists "/app". split; [reflexivity|]. split; [by vm_compute|]. right.
    exists ["fetch-movies.js"; "cyclic.js"; "helpers.js"], "cyclic.js".
    split; [reflexivity|]. split; [|by vm_compute].
    apply (bool_decide_unpack _). by vm_compute.
Defined.

Lemma all_compiled_nodes_registered_witness :
  (fst <$> nodeMap (fst (@initializeCustomNodes SimHost.Disk string string
                           SimHost.disk_env NodesSamples.sound_loader
                           (NodesSamples.empty_registry NodesSamples.compiled_disk))))
  = ["fetch-movies"; "add-movie"].
Proof.
  refine (proj1 (@all_compiled_nodes_registered SimHost.Disk string string
                   SimHost.disk_env NodesSamples.sound_loader
                   (NodesSamples.empty_registry NodesSamples.compiled_disk) "/app"
                   ["fetch-movies.js"; "notes.txt"; "add-movie.js"] eq_refl _ eq_refl _)).
  - by vm_compute.
  - intros file w _. by exists (SimHost.join ["/app/dist/nodes"; file]), w,
      ("a " +:+ SimHost.join ["/app/dist/nodes"; file]), w.
Defined.

Lemma built_in_nodes_first_witness :
  ∃ apiCall ifElse custom,
    [("@nanoservice-ts/api-call", "an ApiCall"); ("@nanoservice-ts/if-else", "an IfElse");
     ("fetch-movies", "a FetchMovies")]
    = [] ++ [("@nanoservice-ts/api-call", apiCall); ("@nanoservice-ts/if-else", ifElse)]
         ++ custom.
Proof.
  destruct (@built_in_nodes_first SimHost.Disk string string SimHost.disk_env
              NodesSamples.sample_loader
              (NodesSamples.empty_registry NodesSamples.compiled_disk)
              [("@nanoservice-ts/api-call", "an ApiCall");
               ("@nanoservice-ts/if-else", "an IfElse");
               ("fetch-movies", "a FetchMovies")])
    as (apiCall & ifElse & custom & Hnodes & _); [by vm_compute|].
  by exists apiCall, ifElse, custom.
Defined.

End NodesFacts.

Module LoggerFacts.
Import JS Types Logger.

Lemma append_length (a b : string) :
  String.length (a +:+ b) = String.length a + String.length b.
Proof.
  induction a as [|c a IH]; [reflexivity|].
  change (S (String.length (a +:+ b)) = S (String.length a + String.length b)).
  by rewrite IH.
Qed.

Lemma append_longer (a b : string) : b ≠ EmptyString → a +:+ b ≠ a.
Proof.
  intros Hb Heq. apply (f_equal String.length) in Heq.
  rewrite append_length in Heq. destruct b; [done|]. cbn in Heq. lia.
Qed.

(** X29: what [logger.error] hands to the underlying logger. A second
    argument that is missing or falsy ([null], [0], [false], the empty text)
    is dropped: the line is the bare message, and it is the bare message only
    then. An [Error] adds a space and its message, a thrown text a space and
    itself, and a thrown number or [true] a space and "Unknown error". *)
Theorem error_line_shape (stringify : json → string) (message : string)
    (error : ErrorArgument) :
  (error_line stringify message error = message ↔ absent error = true) ∧
  (∀ text, error = AnError text →
     error_line stringify message error = message +:+ " " +:+ text) ∧
  (∀ text, error = AValue (JStr text) → text ≠ EmptyString →
     error_line stringify message error = message +:+ " " +:+ text) ∧
  (∀ v, error = AValue v → absent error = false →
     (∃ n, v = JNum n) ∨ (∃ b, v = JBool b) →
     error_line stringify message error = message +:+ " Unknown error").
Proof.
  split; [|split; [|split]].
  - unfold error_line. destruct (absent error) eqn:Habsent; [done|].
    split; [|discriminate]. intros Heq. exfalso. revert Heq.
    apply append_longer. discriminate.
  - by intros text ->.
  - intros text -> Htext. unfold error_line. cbn.
    by destruct (String.eqb_spec text EmptyString).
  - intros v -> Habsent Hv. unfold error_line. rewrite Habsent.
    by destruct Hv as [[n ->]|[b ->]].
Qed.

Lemma error_line_shape_witness :
  error_line (fun _ => "{}") "Backend generation failed:" (AValue (JStr EmptyString))
  = "Backend generation failed:".
Proof.
  exact (proj2 (proj1 (error_line_shape (fun _ => "{}") "Backend generation failed:"
                         (AValue (JStr EmptyString)))) eq_refl).
Defined.

End LoggerFacts.
